(** * DaveSaveEd: the save data transformation engine

    A shallow embedding of [SaveGameManager.cpp]: the XOR byte codec, the
    guarded accessors of the JSON document, the tier classifier, the bulk
    mutators and the backup-then-overwrite write sequence, followed by the
    properties the specification states about them.

    Conventions.
    - [std::string] is [string]; one [ascii] is one byte.
    - [int] / [long long] values are [Z]; conversions that narrow are written
      out ([wrap_int], [wrap_long_long]).
    - [nlohmann::json] is the inductive type [json]; a JSON object is a
      [std::map<std::string, json>], embedded as an association list that is
      walked in key order, because the program depends on iteration order.
    - An operation that can throw returns an [outcome]; state is passed
      explicitly, and the state reached when an exception leaves a member
      function is part of its result.
    - [LogMessage] calls go to the logging collaborator and leave no trace
      in the results.
    - The libraries the program is built on (nlohmann/json, SQLite,
      [std::filesystem]) are embedded by what their documentation says the
      calls in the source do. *)

From Stdlib Require Import ZArith NArith Lia List Bool Ascii String.
From Stdlib Require Import DecimalString DecimalZ OrdersEx SpecFloat RelationClasses.
Import ListNotations.

Local Open Scope string_scope.
Local Open Scope Z_scope.

(* ================================================================= *)
(** ** Byte codec *)

Module Codec.

(** [data[i] ^ key[j]] on two [char]s: both operands are promoted to [int],
    combined bitwise, and the low eight bits are stored back. *)
Definition xor_char (a b : ascii) : ascii :=
  ascii_of_N (N.lxor (N_of_ascii a) (N_of_ascii b)).

(** The body of the [for] loop of [XORDecryptEncrypt], from index [i] on.
    [i % key_len] with [key_len = 0] has no defined result, nor has a read
    past the end of the key: both are [None]. *)
Fixpoint xor_from (i : nat) (data key : string) : option string :=
  match data with
  | EmptyString => Some EmptyString
  | String c rest =>
      let key_len := String.length key in
      if Nat.eqb key_len 0 then None
      else match String.get (i mod key_len) key with
           | None => None
           | Some k =>
               match xor_from (S i) rest key with
               | None => None
               | Some out => Some (String (xor_char c k) out)
               end
           end
  end.

Definition XORDecryptEncrypt (data key : string) : option string :=
  xor_from 0 data key.

(** [const std::string XOR_KEY = "GameData"] (SaveGameManager.h). *)
Definition XOR_KEY : string := "GameData".

(** [LoadSaveFile] step 2 and [WriteSaveFile] step 3 call the same
    transform with the same key. *)
Definition Decode (rawBytes : string) : option string :=
  XORDecryptEncrypt rawBytes XOR_KEY.

Definition Encode (documentText : string) : option string :=
  XORDecryptEncrypt documentText XOR_KEY.

End Codec.

(* ================================================================= *)
(** ** Tier classifier *)

(** [static int GetDesiredMaxCountForTier(int item_db_max_count)].  The
    warning logged on the default branch goes to the logging collaborator and
    is not part of the result. *)
Definition GetDesiredMaxCountForTier (item_db_max_count : Z) : Z :=
  if item_db_max_count =? 1 then 0
  else if item_db_max_count =? 99 then 66
  else if item_db_max_count =? 999 then 666
  else if item_db_max_count >=? 9999 then 6666
  else 0.

(* ================================================================= *)
(** ** Exceptions and outcomes *)

(** The exceptions the modelled code meets: nlohmann's [type_error] with its
    numeric id (302: a value has not the requested type; 305: [operator[]]
    with a string key on a value that is neither an object nor null; 316:
    [dump] met invalid UTF-8), nlohmann's [parse_error],
    [std::filesystem::filesystem_error], which [WriteSaveFile] catches
    together with every other [std::exception], and the [std::out_of_range]
    of [std::stoi]. *)
Inductive exn : Type :=
| type_error (id : Z)
| parse_error
| filesystem_error
| out_of_range.

Inductive outcome (A : Type) : Type :=
| Ok (a : A)
| Throw (e : exn).

Arguments Ok {A} a.
Arguments Throw {A} e.

Definition raises {A : Type} (o : outcome A) : bool :=
  match o with Ok _ => false | Throw _ => true end.

(* ================================================================= *)
(** ** The document tree *)

(** [nlohmann::json].  [JInt] is [number_integer] (a [std::int64_t]), [JUInt]
    is [number_unsigned] (a [std::uint64_t]; the parser produces it for every
    literal without a sign), [JFloat] is [number_float].  An object is a
    [std::map]: its bindings are kept in the order of their keys, which is the
    order [begin()] ... [end()] visits them in. *)
#[local] Set Warnings "-register-all".
Inductive json : Type :=
| JNull
| JBool (b : bool)
| JInt (z : Z)
| JUInt (n : Z)
| JFloat (f : spec_float)
| JString (s : string)
| JArray (l : list json)
| JObject (m : list (string * json)).

#[local] Set Warnings "register-all".

Definition object_t : Type := list (string * json).

(** [std::map::find]. *)
Fixpoint obj_find (k : string) (m : object_t) : option json :=
  match m with
  | [] => None
  | (k', v) :: rest => if String.eqb k k' then Some v else obj_find k rest
  end.

(** [m[k] = v] on the [std::map]: the binding of [k] is replaced where it is,
    a new binding is put at its place in key order ([std::less<std::string>],
    that is, bytes compared as unsigned). *)
Fixpoint obj_set (k : string) (v : json) (m : object_t) : object_t :=
  match m with
  | [] => [(k, v)]
  | (k', v') :: rest =>
      match String.compare k k' with
      | Lt => (k, v) :: (k', v') :: rest
      | Eq => (k, v) :: rest
      | Gt => (k', v') :: obj_set k v rest
      end
  end.

Definition obj_keys (m : object_t) : list string := map fst m.

Definition is_object (j : json) : bool :=
  match j with JObject _ => true | _ => false end.

Definition is_string (j : json) : bool :=
  match j with JString _ => true | _ => false end.

Definition is_number_integer (j : json) : bool :=
  match j with JInt _ | JUInt _ => true | _ => false end.

(** [j.contains(key)]: false on everything that is not an object. *)
Definition contains (j : json) (k : string) : bool :=
  match j with
  | JObject m => match obj_find k m with Some _ => true | None => false end
  | _ => false
  end.

(** [j.empty()]. *)
Definition json_empty (j : json) : bool :=
  match j with
  | JNull => true
  | JArray [] => true
  | JObject [] => true
  | _ => false
  end.

(** [j[key]] read where the caller has checked [contains(key)]: the element
    itself.  (Without the check the const overload has no defined result and
    the other one inserts; see [json_index].) *)
Definition json_at (j : json) (k : string) : json :=
  match j with
  | JObject m => match obj_find k m with Some v => v | None => JNull end
  | _ => JNull
  end.

(** The non-const [j[key]]: a null [j] silently becomes an object, a missing
    key is inserted with a null value, and anything that is neither object
    nor null throws [type_error] 305.  The result is the element referred to
    and [j] as the call leaves it. *)
Definition json_index (j : json) (k : string) : outcome (json * json) :=
  match j with
  | JNull => Ok (JNull, JObject [(k, JNull)])
  | JObject m =>
      match obj_find k m with
      | Some v => Ok (v, j)
      | None => Ok (JNull, JObject (obj_set k JNull m))
      end
  | _ => Throw (type_error 305)
  end.

(** [j[key] = v]. *)
Definition json_assign (j : json) (k : string) (v : json) : outcome json :=
  match j with
  | JNull => Ok (JObject [(k, v)])
  | JObject m => Ok (JObject (obj_set k v m))
  | _ => Throw (type_error 305)
  end.

(** *** Conversions *)

Definition wrap_int (z : Z) : Z :=
  (z + 2147483648) mod 4294967296 - 2147483648.

Definition wrap_long_long (z : Z) : Z :=
  (z + 9223372036854775808) mod 18446744073709551616 - 9223372036854775808.

(** [static_cast<long long>(double)]: the fraction is dropped.  For a value
    outside the range of [long long], an infinity or a NaN the C++ conversion
    has no defined result; the model gives what the x86-64 conversion
    instruction gives, the least [long long]. *)
Definition double_to_long_long (f : spec_float) : Z :=
  let indefinite := -9223372036854775808 in
  match f with
  | S754_zero _ => 0
  | S754_finite s m e =>
      let mag := if e <? 0 then Z.pos m / 2 ^ (- e) else Z.pos m * 2 ^ e in
      let v := if s then - mag else mag in
      if (indefinite <=? v) && (v <=? 9223372036854775807) then v
      else indefinite
  | _ => indefinite
  end.

(** [j.get<long long>()].  The program is a Windows program; there
    [long long] is [std::int64_t], the library's own [number_integer_t], and
    the conversion to that type takes the three kinds of number and nothing
    else: a boolean throws [type_error] 302 like every other value.  (Only a
    conversion to an arithmetic type other than the library's own, such as
    [int], also takes a boolean.) *)
Definition get_long_long (j : json) : outcome Z :=
  match j with
  | JInt z => Ok (wrap_long_long z)
  | JUInt n => Ok (wrap_long_long n)
  | JFloat f => Ok (double_to_long_long f)
  | _ => Throw (type_error 302)
  end.

(** [j.get<int>()], used only behind [is_number_integer()]: the stored
    number cast to [int]; a boolean would convert to 0 or 1. *)
Definition get_int (j : json) : outcome Z :=
  match j with
  | JBool b => Ok (if b then 1 else 0)
  | _ =>
      match get_long_long j with
      | Ok z => Ok (wrap_int z)
      | Throw e => Throw e
      end
  end.

(** [j.get<std::string>()]. *)
Definition get_string (j : json) : outcome string :=
  match j with
  | JString s => Ok s
  | _ => Throw (type_error 302)
  end.

(** [std::to_string(int)]. *)
Definition to_string (z : Z) : string :=
  NilZero.string_of_int (Z.to_int z).

(** *** In-place mutation

    The program mutates the document through references.  A mutation of one
    [json] value is a function from the value before to the value after
    together with the exception, if any, that ended it: what was written
    before a throw stays written. *)
Definition mutation : Type := json -> json * option exn.

(** [j[key] = v] as a mutation of [j]. *)
Definition assign_key (k : string) (v : json) : mutation :=
  fun j =>
    match json_assign j k v with
    | Ok j' => (j', None)
    | Throw e => (j, Some e)
    end.

(** [auto& r = j[key]; f(r);]: [f] works on the element inside [j]. *)
Definition with_element (k : string) (f : mutation) : mutation :=
  fun j =>
    match json_index j k with
    | Throw e => (j, Some e)
    | Ok (elem, j1) =>
        let (elem', x) := f elem in
        match j1 with
        | JObject m => (JObject (obj_set k elem' m), x)
        | _ => (j1, x)
        end
    end.

(** [for (auto it = c.begin(); it != c.end(); ++it) f(it.value());] over the
    bindings of an object, in key order, stopping at the first throw. *)
Fixpoint for_each_value (f : mutation) (m : object_t) : object_t * option exn :=
  match m with
  | [] => ([], None)
  | (k, v) :: rest =>
      let (v', x) := f v in
      match x with
      | Some e => ((k, v') :: rest, Some e)
      | None =>
          let (rest', x') := for_each_value f rest in
          ((k, v') :: rest', x')
      end
  end.

Fixpoint for_each_element (f : mutation) (l : list json) : list json * option exn :=
  match l with
  | [] => ([], None)
  | v :: rest =>
      let (v', x) := f v in
      match x with
      | Some e => (v' :: rest, Some e)
      | None =>
          let (rest', x') := for_each_element f rest in
          (v' :: rest', x')
      end
  end.

(** The same loop over any [json]: an object gives its values, an array its
    elements, null nothing, and every other value is visited once itself. *)
Definition json_for_each (f : mutation) : mutation :=
  fun j =>
    match j with
    | JObject m => let (m', x) := for_each_value f m in (JObject m', x)
    | JArray l => let (l', x) := for_each_element f l in (JArray l', x)
    | JNull => (JNull, None)
    | _ => f j
    end.

(** [c.begin().value()] of a container that is not empty. *)
Definition begin_value (j : json) : json :=
  match j with
  | JObject ((_, v) :: _) => v
  | JArray (v :: _) => v
  | _ => j
  end.

(* ================================================================= *)
(** ** The document store *)

(** A [std::filesystem::path] in parsed form: the directories that lead to
    the file and the file name.  The empty path has neither. *)
Record path : Type := mkPath { parent_path : list string; filename : string }.

Definition empty_path : path := mkPath [] "".

Definition path_empty (p : path) : bool :=
  match parent_path p, filename p with
  | [], EmptyString => true
  | _, _ => false
  end.

(** The data members of [SaveGameManager]. *)
Record SaveGameManager : Type := mkManager {
  m_saveData : json;
  m_currentSaveFilePath : path;
  m_isSaveFileLoaded : bool
}.

Definition set_saveData (s : SaveGameManager) (d : json) : SaveGameManager :=
  mkManager d (m_currentSaveFilePath s) (m_isSaveFileLoaded s).

(** [const long long SAVE_MAX_CURRENCY = 999999999LL]. *)
Definition SAVE_MAX_CURRENCY : Z := 999999999.

(** The condition every getter and setter starts with:
    [m_isSaveFileLoaded && m_saveData.contains(S) && m_saveData[S].is_object()]. *)
Definition section_usable (s : SaveGameManager) (section : string) : bool :=
  m_isSaveFileLoaded s
  && contains (m_saveData s) section
  && is_object (json_at (m_saveData s) section).

(** The body shared by the four getters. *)
Definition read_number (section field : string) (s : SaveGameManager) : outcome Z :=
  if section_usable s section && contains (json_at (m_saveData s) section) field
  then get_long_long (json_at (json_at (m_saveData s) section) field)
  else Ok 0.

Definition GetGold : SaveGameManager -> outcome Z := read_number "PlayerInfo" "m_Gold".
Definition GetBei : SaveGameManager -> outcome Z := read_number "PlayerInfo" "m_Bei".
Definition GetArtisansFlame : SaveGameManager -> outcome Z :=
  read_number "PlayerInfo" "m_ChefFlame".
Definition GetFollowerCount : SaveGameManager -> outcome Z :=
  read_number "SNSInfo" "m_Follow_Count".

(** The body shared by the four setters: [m_saveData[S][F] = v] behind the
    guard, nothing (but a warning) otherwise.  A member function that is not
    [const] returns the manager as it leaves it and the exception that left
    it, if any. *)
Definition write_number (section field : string) (v : Z) (s : SaveGameManager)
  : SaveGameManager * option exn :=
  if section_usable s section then
    let (d, x) := with_element section (assign_key field (JInt v)) (m_saveData s) in
    (set_saveData s d, x)
  else (s, None).

Definition SetGold (value : Z) : SaveGameManager -> SaveGameManager * option exn :=
  write_number "PlayerInfo" "m_Gold" (Z.min value SAVE_MAX_CURRENCY).
Definition SetBei (value : Z) : SaveGameManager -> SaveGameManager * option exn :=
  write_number "PlayerInfo" "m_Bei" (Z.min value SAVE_MAX_CURRENCY).
Definition SetArtisansFlame (value : Z) : SaveGameManager -> SaveGameManager * option exn :=
  write_number "PlayerInfo" "m_ChefFlame" (Z.min value SAVE_MAX_CURRENCY).
Definition SetFollowerCount (value : Z) : SaveGameManager -> SaveGameManager * option exn :=
  write_number "SNSInfo" "m_Follow_Count" value.

(* ================================================================= *)
(** ** The reference store *)

(** Modelled from the spec: the reference dataset is an SQLite database that
    is loaded outside the engine.  The spec's reference-data contract and the
    SQL text in the source fix what the engine asks of it: an [Items] table
    with the columns [ItemDataID], [TID] and [MaxCount], and an
    [Ingredients] table with a [TID] column.  Columns hold integers, which
    SQLite keeps in 64 bits; what the program makes of them depends on the
    call it reads them with ([sqlite3_column_int], [std::stoi] on their
    text).  A table is the list of its rows in the order a scan visits them.
    On a store of this shape [sqlite3_prepare_v2] succeeds and [sqlite3_exec]
    does not report an error, so the two early returns on their failure,
    which change nothing, do not appear. *)
Record ItemRow : Type := mkItem { ItemDataID : Z; TID : Z; MaxCount : Z }.

Record RefDb : Type := mkRefDb { Items : list ItemRow; Ingredients : list Z }.

(** [SELECT MaxCount FROM Items WHERE ItemDataID = ?], one [sqlite3_step]:
    the column of the first matching row as the table stores it, if there is
    such a row. *)
Definition select_MaxCount_by_ItemDataID (db : RefDb) (id : Z) : option Z :=
  option_map MaxCount (find (fun t => ItemDataID t =? id) (Items db)).

(** [SELECT MaxCount FROM Items WHERE TID = ?]. *)
Definition select_MaxCount_by_TID (db : RefDb) (id : Z) : option Z :=
  option_map MaxCount (find (fun t => TID t =? id) (Items db)).

(** [sqlite3_column_int] on a column that holds the integer [stored]:
    SQLite keeps integers in 64 bits and this call returns the low 32 of them
    as an [int]. *)
Definition sqlite3_column_int (stored : Z) : Z := wrap_int stored.

(** One result row as [callbackGetAllIngredients] stores it: a
    [std::map<std::string, int>] from column name to value. *)
Definition db_row : Type := list (string * Z).

Definition row_count (k : string) (r : db_row) : bool :=
  existsb (fun kv => String.eqb k (fst kv)) r.

Definition row_at (k : string) (r : db_row) : Z :=
  match find (fun kv => String.eqb k (fst kv)) r with
  | Some kv => snd kv
  | None => 0
  end.

Definition joined_row (i : Z) (t : ItemRow) : db_row :=
  [("MaxCount", MaxCount t);
   ("ingredientsID_for_save_file_key", i);
   ("parentID", TID t)].

(** [SELECT I.TID AS ingredientsID_for_save_file_key, T.TID AS parentID,
    T.MaxCount FROM Ingredients AS I JOIN Items AS T ON I.TID = T.ItemDataID]:
    the rows of the result as SQLite produces them, each column with the
    integer the tables store, before the callback has seen them. *)
Definition select_all_ingredients (db : RefDb) : list db_row :=
  flat_map
    (fun i => map (joined_row i) (filter (fun t => i =? ItemDataID t) (Items db)))
    (Ingredients db).

(** Whether an integer is a value of [int]. *)
Definition fits_int (z : Z) : bool :=
  (-2147483648 <=? z) && (z <=? 2147483647).

(** [std::stoi(argv[i])] on the text SQLite hands over for a column that
    holds the integer [stored], its decimal digits: the integer itself where
    it is an [int], [std::out_of_range] otherwise. *)
Definition stoi (stored : Z) : outcome Z :=
  if fits_int stored then Ok stored else Throw out_of_range.

(** The loop of [callbackGetAllIngredients] over the columns of one row:
    [row[azColName[i]] = std::stoi(argv[i])]. *)
Fixpoint convert_columns (columns : db_row) : outcome db_row :=
  match columns with
  | [] => Ok []
  | (name, stored) :: rest =>
      match stoi stored with
      | Throw e => Throw e
      | Ok value =>
          match convert_columns rest with
          | Throw e => Throw e
          | Ok row => Ok ((name, value) :: row)
          end
      end
  end.

(** [static int callbackGetAllIngredients(void* data, int argc, char** argv,
    char** azColName)]: the converted row is appended to the vector behind
    [data]; an exception of [std::stoi] leaves the callback. *)
Definition callbackGetAllIngredients (results : list db_row) (columns : db_row)
  : outcome (list db_row) :=
  match convert_columns columns with
  | Throw e => Throw e
  | Ok row => Ok (results ++ [row])%list
  end.

(** [sqlite3_exec(db, sql, callback, &data, &zErrMsg)] on a statement with
    the given result: the callback is called for each row in turn.  An
    exception that leaves the callback leaves [sqlite3_exec] and its caller
    too, for nothing in between catches it. *)
Fixpoint sqlite3_exec (result : list db_row)
  (callback : list db_row -> db_row -> outcome (list db_row)) (data : list db_row)
  : outcome (list db_row) :=
  match result with
  | [] => Ok data
  | columns :: rest =>
      match callback data columns with
      | Throw e => Throw e
      | Ok data' => sqlite3_exec rest callback data'
      end
  end.

(* ================================================================= *)
(** ** Bulk mutators *)

(** The body of the loops of [MaxOwnIngredients] and [MaxOwnMaterials] for
    one entry: [id_field] is the entry's identifier field, [count_field] the
    field that is raised, [lookup] the prepared point query, whose column is
    read with [sqlite3_column_int]. *)
Definition max_own_entry (lookup : Z -> option Z) (id_field count_field : string)
  : mutation :=
  fun entry =>
    if contains entry id_field && is_number_integer (json_at entry id_field) then
      match get_int (json_at entry id_field) with
      | Throw e => (entry, Some e)
      | Ok id =>
          match lookup id with
          | None => (entry, None)
          | Some stored =>
              let max_count_from_db := sqlite3_column_int stored in
              let target_count := GetDesiredMaxCountForTier max_count_from_db in
              if target_count >? 0
              then assign_key count_field (JInt target_count) entry
              else (entry, None)
          end
      end
    else (entry, None).

Definition MaxOwnIngredients (db : option RefDb) (s : SaveGameManager)
  : SaveGameManager * option exn :=
  if negb (section_usable s "Ingredients") then (s, None)
  else match db with
       | None => (s, None)
       | Some d =>
           let body :=
             max_own_entry (select_MaxCount_by_ItemDataID d) "ingredientsID" "count" in
           let (doc, x) :=
             with_element "Ingredients" (json_for_each body) (m_saveData s) in
           (set_saveData s doc, x)
       end.

Definition MaxOwnMaterials (db : option RefDb) (s : SaveGameManager)
  : SaveGameManager * option exn :=
  if negb (section_usable s "InventoryItemSlot") then (s, None)
  else match db with
       | None => (s, None)
       | Some d =>
           let body := max_own_entry (select_MaxCount_by_TID d) "itemID" "totalCount" in
           let (doc, x) :=
             with_element "InventoryItemSlot" (json_for_each body) (m_saveData s) in
           (set_saveData s doc, x)
       end.

(** The body of the loop of [MaxOwnStaffLevel] for one entry.  Reading
    [entry["name"]] goes through the non-const [operator[]]. *)
Definition max_staff_entry : mutation :=
  fun entry =>
    match json_index entry "name" with
    | Throw e => (entry, Some e)
    | Ok (name, entry1) =>
        match get_string name with
        | Throw e => (entry1, Some e)
        | Ok staff_name =>
            if String.eqb staff_name "Staff_Dave" then (entry1, None)
            else assign_key "level" (JInt 20) entry1
        end
    end.

Definition MaxOwnStaffLevel (s : SaveGameManager) : SaveGameManager * option exn :=
  if negb (m_isSaveFileLoaded s) || negb (contains (m_saveData s) "Staff") then (s, None)
  else
    let (doc, x) := with_element "Staff" (json_for_each max_staff_entry) (m_saveData s) in
    (set_saveData s doc, x).

(** The time stamps [MaxAllIngredients] gives to the entries it adds: those
    of [begin().value()] where the collection is not empty and that entry
    has them as strings, the two literals otherwise. *)
Definition default_timestamps (ingredients_json_map : json) : string * string :=
  let default_lastGainTime := "04/01/2025 12:34:56" in
  let default_lastGainGameTime := "10/03/2022 08:30:52" in
  if negb (json_empty ingredients_json_map) then
    let first_item_value := begin_value ingredients_json_map in
    (if contains first_item_value "lastGainTime"
        && is_string (json_at first_item_value "lastGainTime")
     then match json_at first_item_value "lastGainTime" with
          | JString t => t
          | _ => default_lastGainTime
          end
     else default_lastGainTime,
     if contains first_item_value "lastGainGameTime"
        && is_string (json_at first_item_value "lastGainGameTime")
     then match json_at first_item_value "lastGainGameTime" with
          | JString t => t
          | _ => default_lastGainGameTime
          end
     else default_lastGainGameTime)
  else (default_lastGainTime, default_lastGainGameTime).

(** [new_ingredient_entry], field by field in the order of the source. *)
Definition new_ingredient_entry (ts : string * string)
  (ingredients_id parent_id target_count : Z) : json :=
  JObject
    (obj_set "placeTagMask" (JInt 1)
    (obj_set "isNew" (JBool true)
    (obj_set "lastGainGameTime" (JString (snd ts))
    (obj_set "lastGainTime" (JString (fst ts))
    (obj_set "branchCount" (JInt 0)
    (obj_set "count" (JInt target_count)
    (obj_set "parentID" (JInt parent_id)
    (obj_set "level" (JInt 1)
    (obj_set "ingredientsID" (JInt ingredients_id) []))))))))).

(** The body of the loop over [all_db_ingredients] for one row. *)
Definition max_all_row (ts : string * string) (db_ingredient : db_row) : mutation :=
  fun ingredients_json_map =>
    if negb (row_count "ingredientsID_for_save_file_key" db_ingredient)
       || negb (row_count "parentID" db_ingredient)
       || negb (row_count "MaxCount" db_ingredient)
    then (ingredients_json_map, None)
    else
      let ingredients_id_from_db := row_at "ingredientsID_for_save_file_key" db_ingredient in
      let parent_id_from_db := row_at "parentID" db_ingredient in
      let max_count_from_db := row_at "MaxCount" db_ingredient in
      let target_count := GetDesiredMaxCountForTier max_count_from_db in
      if target_count =? 0 then (ingredients_json_map, None)
      else
        let ingredient_key := to_string ingredients_id_from_db in
        if contains ingredients_json_map ingredient_key then
          with_element ingredient_key (assign_key "count" (JInt target_count))
            ingredients_json_map
        else
          assign_key ingredient_key
            (new_ingredient_entry ts ingredients_id_from_db parent_id_from_db target_count)
            ingredients_json_map.

(** [for (const auto& db_ingredient : all_db_ingredients) ...]. *)
Fixpoint max_all_rows (ts : string * string) (rows : list db_row) : mutation :=
  fun ingredients_json_map =>
    match rows with
    | [] => (ingredients_json_map, None)
    | r :: rest =>
        let (m1, x) := max_all_row ts r ingredients_json_map in
        match x with
        | Some e => (m1, Some e)
        | None => max_all_rows ts rest m1
        end
    end.

Definition MaxAllIngredients (db : option RefDb) (s : SaveGameManager)
  : SaveGameManager * option exn :=
  if negb (m_isSaveFileLoaded s) then (s, None)
  else match db with
       | None => (s, None)
       | Some d =>
           let (doc1, x1) :=
             if negb (contains (m_saveData s) "Ingredients")
                || negb (is_object (json_at (m_saveData s) "Ingredients"))
             then assign_key "Ingredients" (JObject []) (m_saveData s)
             else (m_saveData s, None) in
           match x1 with
           | Some e => (set_saveData s doc1, Some e)
           | None =>
               let (doc2, x2) :=
                 with_element "Ingredients"
                   (fun ingredients_json_map =>
                      let ts := default_timestamps ingredients_json_map in
                      match sqlite3_exec (select_all_ingredients d)
                              callbackGetAllIngredients [] with
                      | Throw e => (ingredients_json_map, Some e)
                      | Ok all_db_ingredients =>
                          max_all_rows ts all_db_ingredients ingredients_json_map
                      end)
                   doc1 in
               (set_saveData s doc2, x2)
           end
       end.

(* ================================================================= *)
(** ** Writing the save file *)

(** The files the program can see: the bytes stored under each path.  Two
    paths name the same file exactly when they are equal. *)
Definition filesystem : Type := path -> option string.

Definition path_eq_dec (p q : path) : {p = q} + {p <> q}.
Proof.
  decide equality; [apply string_dec | apply (list_eq_dec string_dec)].
Defined.

Definition fs_store (fs : filesystem) (p : path) (bytes : string) : filesystem :=
  fun q => if path_eq_dec q p then Some bytes else fs q.

(** The rightmost period of a file name: what stands before it and the rest
    from the period on. *)
Fixpoint split_last_dot (s : string) : option (string * string) :=
  match s with
  | EmptyString => None
  | String c rest =>
      match split_last_dot rest with
      | Some (before, from_dot) => Some (String c before, from_dot)
      | None => if Ascii.eqb c "."%char then Some (EmptyString, s) else None
      end
  end.

(** [p.stem()] and [p.extension()] of a file name: the names [.] and [..]
    and a name whose only period is the first character have no extension. *)
Definition stem_and_extension (name : string) : string * string :=
  if String.eqb name "." || String.eqb name ".." then (name, "")
  else match split_last_dot name with
       | None => (name, "")
       | Some (EmptyString, _) => (name, "")
       | Some (before, from_dot) => (before, from_dot)
       end.

Definition stem (p : path) : string := fst (stem_and_extension (filename p)).
Definition extension (p : path) : string := snd (stem_and_extension (filename p)).

(** What the world outside answers during one call of [WriteSaveFile]. *)
Record World : Type := mkWorld {
  (** [GetTempPathW]: the temporary directory, or [None] for a length of 0
      or more than [MAX_PATH]. *)
  temp_path : option (list string);
  (** whether [create_directories(backup_dir)] returns rather than throws *)
  create_directories_ok : bool;
  (** the local time as [put_time] prints it with ["%Y%m%d_%H%M%S"] *)
  timestamp : string;
  (** [None]: [copy] of an existing file succeeds; [Some r]: it throws, and
      [r] is what it leaves under the target, if anything *)
  copy_failure : option (option string);
  (** whether the [ofstream] on the original path opens *)
  open_ok : bool;
  (** [None]: the stream takes all the bytes; [Some n]: only the first [n]
      (the program does not look at the stream after [write]) *)
  short_write : option nat
}.

Definition backup_path_of (w : World) (original_path : path) : path :=
  let backup_dir :=
    match temp_path w with
    | None => (parent_path original_path ++ ["backups"])%list
    | Some base_temp_path => (base_temp_path ++ ["DaveSaveEd_Backups"])%list
    end in
  let backup_filename :=
    (stem original_path ++ "_" ++ timestamp w ++ extension original_path)%string in
  mkPath backup_dir backup_filename.

(** [bool WriteSaveFile(std::string& out_backup_filepath)].  [dump] is
    [nlohmann::json::dump], which returns the text or throws.  The result is
    the returned flag, the out-parameter, and the files afterwards; every
    exception is caught inside. *)
Definition WriteSaveFile (dump : json -> outcome string) (w : World)
  (s : SaveGameManager) (fs : filesystem) : bool * path * filesystem :=
  let out_cleared := empty_path in
  if negb (m_isSaveFileLoaded s) || path_empty (m_currentSaveFilePath s)
  then (false, out_cleared, fs)
  else
    let original_path := m_currentSaveFilePath s in
    let backup_path := backup_path_of w original_path in
    if negb (create_directories_ok w) then (false, out_cleared, fs)
    else
      match fs original_path with
      | None => (false, out_cleared, fs)
      | Some original_bytes =>
          match copy_failure w with
          | Some None => (false, out_cleared, fs)
          | Some (Some partial) => (false, out_cleared, fs_store fs backup_path partial)
          | None =>
              let fs1 := fs_store fs backup_path original_bytes in
              match dump (m_saveData s) with
              | Throw _ => (false, out_cleared, fs1)
              | Ok json_to_write_str =>
                  match Codec.Encode json_to_write_str with
                  | None => (false, out_cleared, fs1) (* never: the key is not empty *)
                  | Some final_bytes =>
                      if negb (open_ok w) then (false, out_cleared, fs1)
                      else
                        let written :=
                          match short_write w with
                          | None => final_bytes
                          | Some n => substring 0 n final_bytes
                          end in
                        (true, backup_path, fs_store fs1 original_path written)
                  end
              end
          end
      end.

(* ================================================================= *)
(** ** Vocabulary of the statements *)

(** The accessors of the class, each with the section and field it works on. *)
Definition typed_getters : list ((SaveGameManager -> outcome Z) * (string * string)) :=
  [ (GetGold, ("PlayerInfo", "m_Gold"));
    (GetBei, ("PlayerInfo", "m_Bei"));
    (GetArtisansFlame, ("PlayerInfo", "m_ChefFlame"));
    (GetFollowerCount, ("SNSInfo", "m_Follow_Count")) ].

Definition typed_setters
  : list ((Z -> SaveGameManager -> SaveGameManager * option exn) * (string * string)) :=
  [ (SetGold, ("PlayerInfo", "m_Gold"));
    (SetBei, ("PlayerInfo", "m_Bei"));
    (SetArtisansFlame, ("PlayerInfo", "m_ChefFlame"));
    (SetFollowerCount, ("SNSInfo", "m_Follow_Count")) ].

Definition currency_accessors
  : list ((Z -> SaveGameManager -> SaveGameManager * option exn)
          * (SaveGameManager -> outcome Z) * string) :=
  [ (SetGold, GetGold, "m_Gold");
    (SetBei, GetBei, "m_Bei");
    (SetArtisansFlame, GetArtisansFlame, "m_ChefFlame") ].

(** The value a field holds is a number: an integer, an unsigned integer
    or a floating-point number. *)
Definition is_arithmetic (j : json) : bool :=
  match j with
  | JInt _ | JUInt _ | JFloat _ => true
  | _ => false
  end.


(** What one pass of [MaxOwnIngredients] may do to an entry: nothing, or
    raise the [count] of an object entry whose [ingredientsID] is found in
    the reference store with a capacity that, read as an [int], is of a tier
    that has a target. *)
Definition count_raised_or_same (lookup : Z -> option Z) (e e' : json) : Prop :=
  e' = e \/
  exists fields idv id stored,
    let max_count := sqlite3_column_int stored in
    e = JObject fields /\
    obj_find "ingredientsID" fields = Some idv /\
    is_number_integer idv = true /\
    get_int idv = Ok id /\
    lookup id = Some stored /\
    0 < GetDesiredMaxCountForTier max_count /\
    e' = JObject (obj_set "count" (JInt (GetDesiredMaxCountForTier max_count)) fields).

(** Two bindings with the same key whose values agree on every field but
    [count]. *)
Definition same_but_count (b b' : string * json) : Prop :=
  fst b' = fst b /\
  forall field, field <> "count" ->
    contains (snd b') field = contains (snd b) field /\
    json_at (snd b') field = json_at (snd b) field.

(** The worlds and files of the examples: one in which every step
    succeeds, and one in which the stream takes three bytes and no more. *)
Definition example_world : World :=
  mkWorld (Some ["C:"; "Temp"]) true "20250401_123456" None true None.

Definition short_write_world : World :=
  mkWorld (Some ["C:"; "Temp"]) true "20250401_123456" None true (Some 3%nat).

Definition example_files : filesystem :=
  fs_store (fun _ => None) (mkPath ["SteamSData"] "GameSave_00_GD.sav") "old bytes".


(** *** The loop of [MaxAllIngredients] seen from the collection

    A row takes part when it has its three columns and its capacity has a
    target; it then works on one key of the collection. *)
Definition row_eligible (r : db_row) : bool :=
  row_count "ingredientsID_for_save_file_key" r
  && row_count "parentID" r
  && row_count "MaxCount" r
  && negb (GetDesiredMaxCountForTier (row_at "MaxCount" r) =? 0).

Definition row_key (r : db_row) : string :=
  to_string (row_at "ingredientsID_for_save_file_key" r).

Definition row_target (r : db_row) : Z :=
  GetDesiredMaxCountForTier (row_at "MaxCount" r).

(** An entry after [entry["count"] = t], also when that assignment throws. *)
Definition raise_count (t : Z) (entry : json) : json :=
  fst (assign_key "count" (JInt t) entry).

(** An entry on which [entry["count"] = t] throws. *)
Definition entry_rejects_fields (entry : json) : bool :=
  match entry with
  | JNull | JObject _ => false
  | _ => true
  end.

(** The value a row leaves under its key, given what it finds there. *)
Definition row_value (ts : string * string) (r : db_row) (found : option json) : json :=
  match found with
  | Some entry => raise_count (row_target r) entry
  | None =>
      new_ingredient_entry ts
        (row_at "ingredientsID_for_save_file_key" r) (row_at "parentID" r) (row_target r)
  end.

Definition row_step (ts : string * string) (r : db_row) (c : object_t) : object_t :=
  if row_eligible r
  then obj_set (row_key r) (row_value ts r (obj_find (row_key r) c)) c
  else c.

Definition key_rejects_fields (c : object_t) (k : string) : bool :=
  match obj_find k c with
  | Some entry => entry_rejects_fields entry
  | None => false
  end.

Definition row_throws (r : db_row) (c : object_t) : bool :=
  row_eligible r && key_rejects_fields c (row_key r).

Definition row_steps (ts : string * string) (rows : list db_row) (c : object_t)
  : object_t :=
  fold_left (fun c r => row_step ts r c) rows c.

(** The rows the loop gets to: all of them, or those up to the first that
    works on a key marked by [b]. *)
Fixpoint rows_reached (b : string -> bool) (rows : list db_row) : list db_row :=
  match rows with
  | [] => []
  | r :: rest =>
      if row_eligible r && b (row_key r) then [r] else r :: rows_reached b rest
  end.

(** Whether some row that takes part works on key [k]. *)
Definition rows_touch (k : string) (rows : list db_row) : bool :=
  existsb (fun r => row_eligible r && String.eqb (row_key r) k) rows.


(** The collection [MaxAllIngredients] starts from: the [Ingredients]
    section where it is a map, the empty map it creates otherwise. *)
Definition ingredients_of (doc : json) : object_t :=
  match doc with
  | JObject top =>
      match obj_find "Ingredients" top with
      | Some (JObject ing) => ing
      | _ => []
      end
  | _ => []
  end.

(** Whether every column of every row is a value of [int]. *)
Definition row_fits_int (r : db_row) : bool :=
  forallb (fun column => fits_int (snd column)) r.

Definition rows_fit_int (rows : list db_row) : bool := forallb row_fits_int rows.

(** The collection one run leaves, from the collection it starts from: the
    loop runs only if the query has returned. *)
Definition max_all_collection (d : RefDb) (ing : object_t) : object_t :=
  if rows_fit_int (select_all_ingredients d) then
    row_steps (default_timestamps (JObject ing))
              (rows_reached (key_rejects_fields ing) (select_all_ingredients d))
              ing
  else ing.

(** The document one run on a loaded document leaves. *)
Definition max_all_document (d : RefDb) (doc : json) : json :=
  match doc with
  | JObject top =>
      JObject (obj_set "Ingredients"
                 (JObject (max_all_collection d (ingredients_of doc))) top)
  | JNull =>
      JObject [("Ingredients", JObject (max_all_collection d []))]
  | _ => doc
  end.


(** The scenario of the specification: an empty collection and a reference
    store whose join has the one row [id = 5, parentID = 5, MaxCount = 99]. *)
Definition scenario_store : RefDb := mkRefDb [mkItem 5 5 99] [5].

Definition scenario_save : SaveGameManager :=
  mkManager
    (JObject [("Ingredients", JObject [])])
    (mkPath ["SteamSData"] "GameSave_00_GD.sav")
    true.


(** A loaded save whose collection binds the identifier 5 to a number, and
    a reference store whose join has the rows 5 and 9, both of capacity 99. *)
Definition scalar_entry_save : SaveGameManager :=
  mkManager
    (JObject [("Ingredients", JObject [("5", JUInt 3)])])
    (mkPath ["SteamSData"] "GameSave_00_GD.sav")
    true.

Definition two_row_store : RefDb :=
  mkRefDb [mkItem 5 5 99; mkItem 9 9 99] [5; 9].

(** A reference store whose one capacity, 2^32 + 99, is not a value of
    [int]. *)
Definition wide_capacity_store : RefDb := mkRefDb [mkItem 5 5 4294967395] [5].

(** The string an entry holds under [field], and [fallback] where it holds
    none: the entry is no map, the field is missing or is not a string. *)
Definition string_field_or (fallback : string) (entry : json) (field : string)
  : string :=
  match entry with
  | JObject fields =>
      match obj_find field fields with
      | Some (JString t) => t
      | _ => fallback
      end
  | _ => fallback
  end.

(** A collection of two owned ingredients: the one under the least key has
    a time of gain but no game time of gain, the other has both. *)
Definition stamped_collection : json :=
  JObject
    [("3", JObject [("count", JUInt 1); ("ingredientsID", JUInt 3);
                    ("lastGainTime", JString "01/02/2024 10:00:00")]);
     ("7", JObject [("count", JUInt 1); ("ingredientsID", JUInt 7);
                    ("lastGainGameTime", JString "08/08/2023 08:08:08");
                    ("lastGainTime", JString "09/09/2024 09:09:09")])].

Definition stamped_save : SaveGameManager :=
  mkManager
    (JObject [("Ingredients", stamped_collection)])
    (mkPath ["SteamSData"] "GameSave_00_GD.sav")
    true.

(** The keys of a [std::map] as iteration meets them: each below the next. *)
Fixpoint keys_ascending (m : object_t) : bool :=
  match m with
  | (k1, _) :: rest =>
      match rest with
      | (k2, _) :: _ => String.ltb k1 k2 && keys_ascending rest
      | [] => true
      end
  | [] => true
  end.

(** The specification's staff scenario, and a staff collection whose second
    entry has no name. *)
Definition staff_save (staff : json) : SaveGameManager :=
  mkManager (JObject [("Staff", staff)])
            (mkPath ["SteamSData"] "GameSave_00_GD.sav") true.

Definition staff_scenario : json :=
  JObject
    [("1", JObject [("level", JUInt 1); ("name", JString "Staff_Dave")]);
     ("2", JObject [("level", JUInt 1); ("name", JString "Staff_Bob")])].

Definition staff_with_nameless_entry : json :=
  JObject
    [("1", JObject [("level", JUInt 1); ("name", JString "Staff_Bob")]);
     ("2", JObject [("level", JUInt 1)]);
     ("3", JObject [("level", JUInt 1); ("name", JString "Staff_Cat")])].

(** What the specification asks of one staff entry: level 20 unless the
    name is the protagonist's; an entry without a string name is skipped. *)
Definition staff_entry_per_spec (entry : json) : json :=
  match entry with
  | JObject fields =>
      match obj_find "name" fields with
      | Some (JString n) =>
          if String.eqb n "Staff_Dave" then entry
          else JObject (obj_set "level" (JInt 20) fields)
      | _ => entry
      end
  | _ => entry
  end.

(** The loop body the specification describes, as a mutation. *)
Definition staff_entry_skipping : mutation :=
  fun entry => (staff_entry_per_spec entry, None).

(** An owned ingredient of a tier with a target, and its reference row. *)
Definition owned_ingredient_save : SaveGameManager :=
  mkManager
    (JObject
       [("Ingredients",
         JObject [("5", JObject [("count", JUInt 1); ("ingredientsID", JUInt 5)])])])
    (mkPath ["SteamSData"] "GameSave_00_GD.sav")
    true.

(** A loaded save whose gold field holds text instead of a number. *)
Definition save_with_text_gold : SaveGameManager :=
  mkManager
    (JObject [("PlayerInfo", JObject [("m_Gold", JString "lots")])])
    (mkPath ["SteamSData"] "GameSave_00_GD.sav")
    true.

(** A manager that has loaded nothing. *)
Definition unloaded_manager : SaveGameManager := mkManager JNull empty_path false.

(** A loaded save with 100 gold and 7 followers. *)
Definition small_save : SaveGameManager :=
  mkManager
    (JObject [("PlayerInfo", JObject [("m_Gold", JUInt 100)]);
              ("SNSInfo", JObject [("m_Follow_Count", JUInt 7)])])
    (mkPath ["SteamSData"] "GameSave_00_GD.sav")
    true.

(** *** Vocabulary of the further properties *)

(** What one turn of an own-items loop may do to an entry, for any
    identifier field, counted field and point query. *)
Definition field_raised_or_same (lookup : Z -> option Z)
  (id_field count_field : string) (e e' : json) : Prop :=
  e' = e \/
  exists fields idv id stored,
    let max_count := sqlite3_column_int stored in
    e = JObject fields /\
    obj_find id_field fields = Some idv /\
    is_number_integer idv = true /\
    get_int idv = Ok id /\
    lookup id = Some stored /\
    0 < GetDesiredMaxCountForTier max_count /\
    e' = JObject (obj_set count_field
                    (JInt (GetDesiredMaxCountForTier max_count)) fields).

(** Two bindings with the same key whose values agree on every field but
    one. *)
Definition same_but_field (count_field : string) (b b' : string * json) : Prop :=
  fst b' = fst b /\
  forall field, field <> count_field ->
    contains (snd b') field = contains (snd b) field /\
    json_at (snd b') field = json_at (snd b) field.

(** A mutation that, run again on what it left, leaves it as it is and ends
    the same way. *)
Definition settles (f : mutation) : Prop :=
  forall e, f (fst (f e)) = (fst (f e), snd (f e)).

(** Values that are neither containers nor null. *)
Definition is_scalar (j : json) : bool :=
  match j with
  | JObject _ | JArray _ | JNull => false
  | _ => true
  end.

(** A mutation that leaves scalars as they are. *)
Definition keeps_scalars (f : mutation) : Prop :=
  forall e, is_scalar e = true -> fst (f e) = e.

(** A staff entry with a string name, before and after the staff loop. *)
Definition staff_entry_levelled (e e' : json) : Prop :=
  exists fields n,
    e = JObject fields /\
    obj_find "name" fields = Some (JString n) /\
    e' = if String.eqb n "Staff_Dave" then e
         else JObject (obj_set "level" (JInt 20) fields).

(** A loaded save with one inventory slot and one hired cook. *)
Definition slot_and_staff_save : SaveGameManager :=
  mkManager
    (JObject
       [("InventoryItemSlot",
         JObject [("7", JObject [("itemID", JUInt 5); ("totalCount", JUInt 2)])]);
        ("Staff",
         JObject [("1", JObject [("level", JUInt 3); ("name", JString "Staff_Bob")])])])
    (mkPath ["SteamSData"] "GameSave_00_GD.sav")
    true.

(** Whether some row that takes part works on a key whose entry refuses
    fields. *)
Definition rows_meet_rejection (c : object_t) (rows : list db_row) : bool :=
  existsb (fun r => row_eligible r && key_rejects_fields c (row_key r)) rows.

(** A loaded save whose collection holds one well-formed entry of another
    identifier than the scenario's row. *)
Definition other_ingredient_save : SaveGameManager :=
  mkManager
    (JObject
       [("Ingredients",
         JObject [("7", JObject [("count", JUInt 1); ("ingredientsID", JUInt 7)])])])
    (mkPath ["SteamSData"] "GameSave_00_GD.sav")
    true.

(* ================================================================= *)
(** ** Loading the save file *)

(** [bool LoadSaveFile(const std::string& filepath)].  [parse] is
    [nlohmann::json::parse], which returns the document or throws.  The three
    members are reset before anything else; every exception is caught
    inside. *)
Definition LoadSaveFile (parse : string -> outcome json) (fs : filesystem)
  (filepath : path) (s : SaveGameManager) : bool * SaveGameManager :=
  let reset := mkManager JNull empty_path false in
  match fs filepath with
  | None => (false, reset)
  | Some xor_encrypted_bytes =>
      match Codec.Decode xor_encrypted_bytes with
      | None => (false, reset) (* never: the key is not empty *)
      | Some json_str =>
          match parse json_str with
          | Throw _ => (false, reset)
          | Ok parsed => (true, mkManager parsed filepath true)
          end
      end
  end.

(* ================================================================= *)
(** ** Finding the save directory and the latest save *)

(** What a [directory_iterator] shows of one entry: its name, what it is,
    and its time of last write ([None] where [last_write_time] throws). *)
Inductive entry_kind : Type := Directory | RegularFile | OtherEntry.

Record dir_entry : Type := mkEntry {
  entry_name : string;
  entry_kind_of : entry_kind;
  entry_write_time : option Z
}.

(** What the system answers: the [LocalLow] folder ([None] where
    [SHGetKnownFolderPath] fails), the [LOCALAPPDATA] variable, and the
    entries of each directory in the order the iterator gives them ([None]
    for a path that is no directory).  A directory is the list of its
    components. *)
Record Shell : Type := mkShell {
  known_LocalAppDataLow : option (list string);
  env_LOCALAPPDATA : option (list string);
  directory_entries : list string -> option (list dir_entry)
}.

(** [::isdigit] on one [char]. *)
Definition isdigit (c : ascii) : bool :=
  ((48 <=? N_of_ascii c) && (N_of_ascii c <=? 57))%N.

(** [std::all_of(s.begin(), s.end(), ::isdigit)]. *)
Fixpoint all_of_isdigit (s : string) : bool :=
  match s with
  | EmptyString => true
  | String c rest => isdigit c && all_of_isdigit rest
  end.

(** The test of the first loop: a directory whose name is not empty and all
    digits. *)
Definition is_steam_id_folder (e : dir_entry) : bool :=
  match entry_kind_of e with
  | Directory =>
      negb (String.eqb (entry_name e) "") && all_of_isdigit (entry_name e)
  | _ => false
  end.

(** [fileName.length() > 10 && fileName.substr(0, 8) == "GameSave" &&
    fileName.substr(fileName.length() - 7) == "_GD.sav"]. *)
Definition is_save_file_name (fileName : string) : bool :=
  (10 <? String.length fileName)%nat
  && String.eqb (substring 0 8 fileName) "GameSave"
  && String.eqb (substring (String.length fileName - 7) 7 fileName) "_GD.sav".

(** One turn of the second loop on [(mostRecentSaveFile, lastWriteTime)]. *)
Definition consider_save (dir : list string) (acc : path * Z) (e : dir_entry)
  : path * Z :=
  match entry_kind_of e with
  | RegularFile =>
      if is_save_file_name (entry_name e) then
        match entry_write_time e with
        | None => acc
        | Some fileTime =>
            if path_empty (fst acc) || (fileTime >? snd acc)
            then (mkPath dir (entry_name e), fileTime)
            else acc
        end
      else acc
  | _ => acc
  end.

(** [static std::filesystem::path GetDefaultSaveGameDirectoryAndLatestFile(
    std::string& latestSaveFileName)]: the returned directory and the
    reference parameter as the call leaves it. *)
Definition GetDefaultSaveGameDirectoryAndLatestFile (sh : Shell)
  (latestSaveFileName : path) : list string * path :=
  let game_dirs := ["nexon"; "DAVE THE DIVER"; "SteamSData"] in
  let base :=
    match known_LocalAppDataLow sh with
    | Some low => Some (low ++ game_dirs)%list
    | None =>
        match env_LOCALAPPDATA sh with
        | Some localAppDataEnv =>
            Some (removelast localAppDataEnv ++ "LocalLow" :: game_dirs)%list
        | None => None
        end
    end in
  match base with
  | None => ([], latestSaveFileName)
  | Some baseSavePath =>
      let found :=
        match directory_entries sh baseSavePath with
        | Some entries =>
            match find is_steam_id_folder entries with
            | Some e => (baseSavePath ++ [entry_name e])%list
            | None => []
            end
        | None => []
        end in
      let steamIDPath := match found with [] => baseSavePath | _ => found end in
      let most_recent :=
        match directory_entries sh steamIDPath with
        | Some entries => fold_left (consider_save steamIDPath) entries (empty_path, 0)
        | None => (empty_path, 0)
        end in
      (steamIDPath,
       if negb (path_empty (fst most_recent)) then fst most_recent else empty_path)
  end.

(** A regular file with the name of a save and a readable time. *)
Definition save_candidate (e : dir_entry) (t : Z) : Prop :=
  entry_kind_of e = RegularFile /\
  is_save_file_name (entry_name e) = true /\
  entry_write_time e = Some t.

(** What the second loop holds after the entries [seen]: nothing while no
    candidate was seen, else a candidate no other seen candidate is newer
    than. *)
Definition newest_of (dir : list string) (seen : list dir_entry) (acc : path * Z)
  : Prop :=
  (path_empty (fst acc) = true /\ forall e t, In e seen -> ~ save_candidate e t) \/
  (exists e t,
      In e seen /\ save_candidate e t /\
      acc = (mkPath dir (entry_name e), t) /\
      forall e' t', In e' seen -> save_candidate e' t' -> t' <= t).

(** A system with one account folder that holds two saves. *)
Definition example_shell : Shell :=
  mkShell (Some ["C:"; "Users"; "dave"; "AppData"; "LocalLow"]) None
    (fun dir =>
       if list_eq_dec string_dec dir
            ["C:"; "Users"; "dave"; "AppData"; "LocalLow";
             "nexon"; "DAVE THE DIVER"; "SteamSData"]
       then Some [mkEntry "notes.txt" RegularFile (Some 9);
                  mkEntry "76561198000000000" Directory (Some 1)]
       else if list_eq_dec string_dec dir
            ["C:"; "Users"; "dave"; "AppData"; "LocalLow";
             "nexon"; "DAVE THE DIVER"; "SteamSData"; "76561198000000000"]
       then Some [mkEntry "GameSave_00_GD.sav" RegularFile (Some 10);
                  mkEntry "GameSave_01_GD.sav" RegularFile (Some 20);
                  mkEntry "GameSave_01_GD.bak" RegularFile (Some 30)]
       else None).

(* ================================================================= *)
(** ** The logger *)

(** [enum LogLevel] (DaveSaveEd.h). *)
Inductive LogLevel : Type := LOG_INFO_LEVEL | LOG_ERROR_LEVEL | LOG_WARNING_LEVEL.

(** The static members of [Logger], and with them the lines that went to
    the log file, to [std::cout] and to [std::cerr], oldest first. *)
Record Logger : Type := mkLogger {
  s_logFile_is_open : bool;
  s_isFileLoggingEnabled : bool;
  s_logFilePath : string;
  s_binDirectory : string;
  log_file_lines : list string;
  cout_lines : list string;
  cerr_lines : list string
}.

(** The static members before [Initialize]. *)
Definition initial_logger : Logger := mkLogger false false "" "" [] [] [].

(** [full_message] of [Logger::Log]. *)
Definition full_message (level : LogLevel) (message : string) (sqlite_err_code : Z)
  : string :=
  let prefix :=
    match level with
    | LOG_INFO_LEVEL => "[INFO] "
    | _ => "[ERROR] "
    end in
  let full_message := (prefix ++ message)%string in
  if negb (sqlite_err_code =? -1)
  then (full_message ++ " (Error Code: " ++ to_string sqlite_err_code ++ ")")%string
  else full_message.

(** [void Logger::Log(LogLevel level, const char* message, int sqlite_err_code)]. *)
Definition Log (level : LogLevel) (message : string) (sqlite_err_code : Z)
  (l : Logger) : Logger :=
  let line := full_message level message sqlite_err_code in
  let to_cout := match level with LOG_INFO_LEVEL => true | _ => false end in
  mkLogger (s_logFile_is_open l) (s_isFileLoggingEnabled l)
    (s_logFilePath l) (s_binDirectory l)
    (if s_isFileLoggingEnabled l && s_logFile_is_open l
     then log_file_lines l ++ [line] else log_file_lines l)
    (if to_cout then cout_lines l ++ [line] else cout_lines l)
    (if to_cout then cerr_lines l else cerr_lines l ++ [line]).

(** [void Logger::Shutdown()]. *)
Definition Shutdown (l : Logger) : Logger :=
  if s_logFile_is_open l then
    mkLogger false (s_isFileLoggingEnabled l) (s_logFilePath l) (s_binDirectory l)
      (log_file_lines l) (cout_lines l ++ ["[INFO] Log file closed."]) (cerr_lines l)
  else l.

(** [void Logger::Initialize(appName, enableFileLogging, binDir)], called
    once, on the members as they are initialized.  [timestamp] is the local
    time as [put_time] prints it, [directory_ready] says whether the log
    directory exists or [create_directories] makes it (it throws otherwise),
    [opens] whether the file opens. *)
Definition Initialize (appName : string) (enableFileLogging : bool) (binDir : string)
  (timestamp : string) (directory_ready opens : bool) : Logger * option exn :=
  if enableFileLogging then
    if negb directory_ready
    then (mkLogger false true "" binDir [] [] [], Some filesystem_error)
    else
      let path := (binDir ++ "/" ++ appName ++ "_log_" ++ timestamp ++ ".txt")%string in
      if opens
      then (mkLogger true true path binDir []
              [("[INFO] File logging enabled. Log will be written to: " ++ path)%string]
              [], None)
      else (mkLogger false false path binDir []
              [] [("[ERROR] Failed to open log file: " ++ path)%string], None)
  else (mkLogger false false "" binDir [] [] [], None).

(** One call of [LogMessage]: level, text and SQLite code. *)
Definition log_call : Type := (LogLevel * string * Z)%type.

Definition log_all (calls : list log_call) (l : Logger) : Logger :=
  fold_left (fun l c => Log (fst (fst c)) (snd (fst c)) (snd c) l) calls l.

Definition line_of (c : log_call) : string :=
  full_message (fst (fst c)) (snd (fst c)) (snd c).

Definition is_info (c : log_call) : bool :=
  match fst (fst c) with LOG_INFO_LEVEL => true | _ => false end.

(* ================================================================= *)
(** ** The currency display *)

(** The texts of the four static controls. *)
Record Display : Type := mkDisplay {
  gold_text : string;
  bei_text : string;
  flame_text : string;
  follower_text : string
}.

(** [void UpdateCurrencyDisplay()] (DaveSaveEd.cpp) on the manager and the
    controls: the controls are set at the end, so an exception from a getter
    leaves them as they were. *)
Definition UpdateCurrencyDisplay (s : SaveGameManager) (shown : Display)
  : Display * option exn :=
  if m_isSaveFileLoaded s then
    match GetGold s with
    | Throw e => (shown, Some e)
    | Ok gold =>
        match GetBei s with
        | Throw e => (shown, Some e)
        | Ok bei =>
            match GetArtisansFlame s with
            | Throw e => (shown, Some e)
            | Ok flame =>
                match GetFollowerCount s with
                | Throw e => (shown, Some e)
                | Ok follower =>
                    (mkDisplay (to_string gold) (to_string bei)
                       (to_string flame) (to_string follower), None)
                end
            end
        end
    end
  else (mkDisplay "" "" "" "", None).

(** The four buttons of the dialog that set one number, with the value each
    passes: [IDC_BTN_MAX_GOLD], [IDC_BTN_MAX_BEI], [IDC_BTN_MAX_FLAME],
    [IDC_BTN_MAX_FOLLOWER]. *)
Inductive max_button : Type :=
| BTN_MAX_GOLD | BTN_MAX_BEI | BTN_MAX_FLAME | BTN_MAX_FOLLOWER.

(** The [WM_COMMAND] branch of [DialogProc] for such a button: the setter
    and a refresh where a save is loaded, a message box otherwise. *)
Definition on_max_button (b : max_button) (s : SaveGameManager) (shown : Display)
  : SaveGameManager * Display * option exn :=
  if m_isSaveFileLoaded s then
    let (s1, x) :=
      match b with
      | BTN_MAX_GOLD => SetGold 999999999 s
      | BTN_MAX_BEI => SetBei 999999999 s
      | BTN_MAX_FLAME => SetArtisansFlame 999999 s
      | BTN_MAX_FOLLOWER => SetFollowerCount 99999 s
      end in
    match x with
    | Some e => (s1, shown, Some e)
    | None =>
        let (shown', x') := UpdateCurrencyDisplay s1 shown in
        (s1, shown', x')
    end
  else (s, shown, None).

(** The section a button's setter works on, the value the button passes,
    and the display with the button's text replaced. *)
Definition button_section (b : max_button) : string :=
  match b with
  | BTN_MAX_FOLLOWER => "SNSInfo"
  | _ => "PlayerInfo"
  end.

Definition button_value (b : max_button) : Z :=
  match b with
  | BTN_MAX_GOLD | BTN_MAX_BEI => 999999999
  | BTN_MAX_FLAME => 999999
  | BTN_MAX_FOLLOWER => 99999
  end.

Definition button_setter (b : max_button)
  : Z -> SaveGameManager -> SaveGameManager * option exn :=
  match b with
  | BTN_MAX_GOLD => SetGold
  | BTN_MAX_BEI => SetBei
  | BTN_MAX_FLAME => SetArtisansFlame
  | BTN_MAX_FOLLOWER => SetFollowerCount
  end.

Definition with_button_text (b : max_button) (text : string) (d : Display) : Display :=
  match b with
  | BTN_MAX_GOLD => mkDisplay text (bei_text d) (flame_text d) (follower_text d)
  | BTN_MAX_BEI => mkDisplay (gold_text d) text (flame_text d) (follower_text d)
  | BTN_MAX_FLAME => mkDisplay (gold_text d) (bei_text d) text (follower_text d)
  | BTN_MAX_FOLLOWER => mkDisplay (gold_text d) (bei_text d) (flame_text d) text
  end.

(* ================================================================= *)
(** ** A serializer and a parser for the examples

    [nlohmann::json::dump] and [nlohmann::json::parse] are parameters of the
    statements about writing and loading.  The examples need an instance:
    the compact text of documents without floating-point numbers whose
    strings consist of printable ASCII other than the quote and the
    backslash, and a reader of that text. *)

(** The character that opens and closes a string. *)
Definition quote : ascii := "034"%char.

(** A character [dump] writes as it is. *)
Definition plain_char (c : ascii) : bool :=
  ((32 <=? N_of_ascii c) && (N_of_ascii c <=? 126)
   && negb (N_of_ascii c =? 34) && negb (N_of_ascii c =? 92))%N.

Fixpoint plain_string (s : string) : bool :=
  match s with
  | EmptyString => true
  | String c rest => plain_char c && plain_string rest
  end.

Definition quoted (s : string) : string :=
  String quote (s ++ String quote EmptyString)%string.

(** [dump()] with no indentation: no white space, object members in key
    order.  [None] where the document is outside the fragment. *)
Fixpoint dump_value (j : json) : option string :=
  match j with
  | JNull => Some "null"
  | JBool b => Some (if b then "true" else "false")
  | JInt z => Some (to_string z)
  | JUInt n => Some (to_string n)
  | JFloat _ => None
  | JString t => if plain_string t then Some (quoted t) else None
  | JArray l =>
      let fix elements (l : list json) (first : bool) : option string :=
        match l with
        | [] => Some "]"
        | v :: rest =>
            match dump_value v, elements rest false with
            | Some a, Some b => Some ((if first then "" else ",") ++ a ++ b)%string
            | _, _ => None
            end
        end in
      option_map (String "["%char) (elements l true)
  | JObject m =>
      let fix members (m : list (string * json)) (first : bool) : option string :=
        match m with
        | [] => Some "}"
        | (k, v) :: rest =>
            match dump_value v, members rest false with
            | Some a, Some b =>
                if plain_string k
                then Some ((if first then "" else ",") ++ quoted k ++ ":" ++ a ++ b)%string
                else None
            | _, _ => None
            end
        end in
      option_map (String "{"%char) (members m true)
  end.

Definition example_dump (j : json) : outcome string :=
  match dump_value j with
  | Some text => Ok text
  | None => Throw (type_error 316)
  end.

(** The digits at the head of a text, as a number, and what follows them. *)
Fixpoint parse_digits (s : string) (acc : Z) : Z * string :=
  match s with
  | EmptyString => (acc, s)
  | String c rest =>
      if isdigit c
      then parse_digits rest (10 * acc + (Z.of_N (N_of_ascii c) - 48))
      else (acc, s)
  end.

(** The characters up to the closing quote, and what follows it. *)
Fixpoint parse_plain (s : string) : option (string * string) :=
  match s with
  | EmptyString => None
  | String c rest =>
      if Ascii.eqb c quote then Some (EmptyString, rest)
      else if plain_char c then
        match parse_plain rest with
        | Some (t, after) => Some (String c t, after)
        | None => None
        end
      else None
  end.

(** [s] without the prefix [p], if it starts with it. *)
Fixpoint strip_prefix (p s : string) : option string :=
  match p, s with
  | EmptyString, _ => Some s
  | String a p', String b s' => if Ascii.eqb a b then strip_prefix p' s' else None
  | _, _ => None
  end.

(** One value at the head of a text, and what follows it.  A literal
    without a sign becomes [number_unsigned], one with a sign
    [number_integer]; the members of an object are stored into the map one
    by one. *)
Fixpoint parse_value (fuel : nat) (s : string) : option (json * string) :=
  match fuel with
  | O => None
  | S fuel' =>
      match strip_prefix "null" s, strip_prefix "true" s, strip_prefix "false" s with
      | Some rest, _, _ => Some (JNull, rest)
      | _, Some rest, _ => Some (JBool true, rest)
      | _, _, Some rest => Some (JBool false, rest)
      | None, None, None =>
          match s with
          | EmptyString => None
          | String c rest =>
              if Ascii.eqb c quote then
                match parse_plain rest with
                | Some (t, after) => Some (JString t, after)
                | None => None
                end
              else if Ascii.eqb c "-"%char then
                match rest with
                | String d _ =>
                    if isdigit d
                    then let (n, after) := parse_digits rest 0 in Some (JInt (- n), after)
                    else None
                | EmptyString => None
                end
              else if isdigit c then
                let (n, after) := parse_digits s 0 in Some (JUInt n, after)
              else if Ascii.eqb c "["%char then
                match rest with
                | String "]"%char after => Some (JArray [], after)
                | _ => parse_elements fuel' rest []
                end
              else if Ascii.eqb c "{"%char then
                match rest with
                | String "}"%char after => Some (JObject [], after)
                | _ => parse_members fuel' rest []
                end
              else None
          end
      end
  end
with parse_elements (fuel : nat) (s : string) (acc : list json)
  : option (json * string) :=
  match fuel with
  | O => None
  | S fuel' =>
      match parse_value fuel' s with
      | Some (v, String c after) =>
          if Ascii.eqb c ","%char then parse_elements fuel' after (acc ++ [v])%list
          else if Ascii.eqb c "]"%char then Some (JArray (acc ++ [v])%list, after)
          else None
      | _ => None
      end
  end
with parse_members (fuel : nat) (s : string) (acc : object_t)
  : option (json * string) :=
  match fuel with
  | O => None
  | S fuel' =>
      match s with
      | String q rest =>
          if Ascii.eqb q quote then
            match parse_plain rest with
            | Some (k, String colon after_colon) =>
                if Ascii.eqb colon ":"%char then
                  match parse_value fuel' after_colon with
                  | Some (v, String c after) =>
                      if Ascii.eqb c ","%char
                      then parse_members fuel' after (obj_set k v acc)
                      else if Ascii.eqb c "}"%char
                      then Some (JObject (obj_set k v acc), after)
                      else None
                  | _ => None
                  end
                else None
            | _ => None
            end
          else None
      | EmptyString => None
      end
  end.

Definition example_parse (text : string) : outcome json :=
  match parse_value (S (String.length text)) text with
  | Some (document, EmptyString) => Ok document
  | _ => Throw parse_error
  end.

(** What [parse] makes of the text [dump] writes for a document: the
    document, except that an integer that is not negative comes back as an
    unsigned one, and a floating-point number that is infinite or not a
    number, which [dump] writes as [null], comes back as null. *)
Fixpoint as_parsed (j : json) : json :=
  match j with
  | JInt z => if 0 <=? z then JUInt z else JInt z
  | JFloat f =>
      match f with
      | S754_infinity _ | S754_nan => JNull
      | _ => JFloat f
      end
  | JArray l => JArray (map as_parsed l)
  | JObject m =>
      JObject (map (fun binding : string * json =>
                      let (k, v) := binding in (k, as_parsed v)) m)
  | _ => j
  end.

(* ================================================================= *)
(** * Properties *)

(** ** The codec *)

Module CodecFacts.
Import Codec.

Lemma lxor_byte_bound (x y : N) :
  (x < 256)%N -> (y < 256)%N -> (N.lxor x y < 256)%N.
Proof.
  intros Hx Hy.
  destruct (N.eq_dec (N.lxor x y) 0) as [E | NE]; [rewrite E; reflexivity |].
  change 256%N with (2 ^ 8)%N.
  apply N.log2_lt_pow2; [lia |].
  eapply N.le_lt_trans; [apply N.log2_lxor |].
  apply N.max_lub_lt.
  - destruct (N.eq_dec x 0) as [-> | Nx]; [reflexivity |].
    apply N.log2_lt_pow2; [lia | exact Hx].
  - destruct (N.eq_dec y 0) as [-> | Ny]; [reflexivity |].
    apply N.log2_lt_pow2; [lia | exact Hy].
Qed.

Lemma xor_char_involutive (c k : ascii) : xor_char (xor_char c k) k = c.
Proof.
  unfold xor_char.
  rewrite N_ascii_embedding
    by (apply lxor_byte_bound; apply N_ascii_bounded).
  rewrite N.lxor_assoc, N.lxor_nilpotent, N.lxor_0_r.
  apply ascii_N_embedding.
Qed.

Lemma get_in_range (s : string) :
  forall n, (n < String.length s)%nat -> exists c, String.get n s = Some c.
Proof.
  induction s as [| a s IH]; simpl; intros n Hn; [lia |].
  destruct n as [| n]; [eauto |].
  apply IH; lia.
Qed.

Section AnyKey.
Variable key : string.
Hypothesis key_not_empty : key <> EmptyString.

Lemma key_len_pos : (0 < String.length key)%nat.
Proof. destruct key; [congruence | simpl; lia]. Qed.

Lemma key_byte (i : nat) :
  exists k, String.get (i mod String.length key) key = Some k.
Proof.
  apply get_in_range, Nat.mod_upper_bound.
  pose proof key_len_pos; lia.
Qed.

Lemma xor_from_cons (i : nat) (c : ascii) (rest : string) :
  xor_from i (String c rest) key =
  match String.get (i mod String.length key) key with
  | None => None
  | Some k =>
      match xor_from (S i) rest key with
      | None => None
      | Some out => Some (String (xor_char c k) out)
      end
  end.
Proof.
  simpl. pose proof key_len_pos as Hp.
  destruct (Nat.eqb_spec (String.length key) 0); [lia | reflexivity].
Qed.

(** The loop returns for every input. *)
Lemma xor_from_total (data : string) :
  forall i, exists out, xor_from i data key = Some out.
Proof.
  induction data as [| c rest IH]; intro i.
  - exists EmptyString; reflexivity.
  - rewrite xor_from_cons.
    destruct (key_byte i) as [k ->].
    destruct (IH (S i)) as [out ->].
    eauto.
Qed.

(** Running the loop on its own output gives the input back. *)
Lemma xor_from_involutive (data : string) :
  forall i out, xor_from i data key = Some out -> xor_from i out key = Some data.
Proof.
  induction data as [| c rest IH]; intros i out H.
  - simpl in H. injection H as <-. reflexivity.
  - rewrite xor_from_cons in H.
    destruct (key_byte i) as [k Hk]. rewrite Hk in H.
    destruct (xor_from (S i) rest key) as [out' |] eqn:E; [| discriminate].
    injection H as <-.
    rewrite xor_from_cons, Hk, (IH _ _ E), xor_char_involutive.
    reflexivity.
Qed.

(** Byte [j] of the output is byte [j] of the input combined with the key
    byte at [(i + j) mod key_len]; the output has the length of the input. *)
Lemma xor_from_get (data : string) :
  forall i out, xor_from i data key = Some out ->
  forall j,
    String.get j out =
    match String.get j data, String.get ((i + j) mod String.length key) key with
    | Some c, Some k => Some (xor_char c k)
    | _, _ => None
    end.
Proof.
  induction data as [| c rest IH]; intros i out H j.
  - simpl in H. injection H as <-. reflexivity.
  - rewrite xor_from_cons in H.
    destruct (key_byte i) as [k Hk]. rewrite Hk in H.
    destruct (xor_from (S i) rest key) as [out' |] eqn:E; [| discriminate].
    injection H as <-.
    destruct j as [| j]; simpl.
    + rewrite Nat.add_0_r, Hk. reflexivity.
    + rewrite (IH _ _ E j).
      replace (S i + j)%nat with (i + S j)%nat by lia.
      reflexivity.
Qed.

Lemma xor_from_length (data : string) :
  forall i out, xor_from i data key = Some out ->
  String.length out = String.length data.
Proof.
  induction data as [| c rest IH]; intros i out H.
  - simpl in H. injection H as <-. reflexivity.
  - rewrite xor_from_cons in H.
    destruct (String.get (i mod String.length key) key); [| discriminate].
    destruct (xor_from (S i) rest key) as [out' |] eqn:E; [| discriminate].
    injection H as <-. simpl. f_equal. eauto.
Qed.

End AnyKey.

Lemma XOR_KEY_not_empty : XOR_KEY <> EmptyString.
Proof. discriminate. Qed.

End CodecFacts.

(** C1.  The codec is its own inverse and never fails: for every text [x],
    [Encode x] is some [y] with [Decode y = x]; for every byte sequence [x],
    [Decode x] is some [t] with [Encode t = x]; and both directions compute
    [output[i] = input[i] XOR key[i mod keyLength]] over the whole input with
    the eight-byte key. *)
Theorem codec_round_trip (x : string) :
  (exists y, Codec.Encode x = Some y /\ Codec.Decode y = Some x) /\
  (exists t, Codec.Decode x = Some t /\ Codec.Encode t = Some x) /\
  (exists out,
      Codec.XORDecryptEncrypt x Codec.XOR_KEY = Some out /\
      Codec.Encode x = Some out /\ Codec.Decode x = Some out /\
      String.length out = String.length x /\
      String.length Codec.XOR_KEY = 8%nat /\
      forall i,
        String.get i out =
        match String.get i x,
              String.get (i mod String.length Codec.XOR_KEY) Codec.XOR_KEY with
        | Some c, Some k => Some (Codec.xor_char c k)
        | _, _ => None
        end).
Proof.
  pose proof CodecFacts.XOR_KEY_not_empty as K.
  destruct (CodecFacts.xor_from_total _ K x 0%nat) as [out Hout].
  pose proof (CodecFacts.xor_from_involutive _ K _ _ _ Hout) as Hback.
  unfold Codec.Encode, Codec.Decode, Codec.XORDecryptEncrypt.
  repeat split.
  - exists out; split; assumption.
  - exists out; split; assumption.
  - exists out. repeat split; try assumption.
    + eapply CodecFacts.xor_from_length; eassumption.
    + intro i. apply (CodecFacts.xor_from_get _ K _ _ _ Hout i).
Qed.

(** ** The tier classifier *)

(** C3.  The classifier is defined on every integer: 1 gives 0, 99 gives 66,
    999 gives 666, everything from 9999 on gives 6666 and every other value
    gives 0; on 1, 99, 999, 9999, 10000, 50 it gives 0, 66, 666, 6666, 6666,
    0. *)
Theorem tier_classifier_table :
  GetDesiredMaxCountForTier 1 = 0 /\
  GetDesiredMaxCountForTier 99 = 66 /\
  GetDesiredMaxCountForTier 999 = 666 /\
  (forall c, 9999 <= c -> GetDesiredMaxCountForTier c = 6666) /\
  (forall c, c <> 1 -> c <> 99 -> c <> 999 -> c < 9999 ->
             GetDesiredMaxCountForTier c = 0) /\
  (forall c, exists t,
      GetDesiredMaxCountForTier c = t /\ (t = 0 \/ t = 66 \/ t = 666 \/ t = 6666)) /\
  map GetDesiredMaxCountForTier [1; 99; 999; 9999; 10000; 50]
  = [0; 66; 666; 6666; 6666; 0].
Proof.
  repeat split.
  - intros c Hc. unfold GetDesiredMaxCountForTier.
    destruct (Z.eqb_spec c 1); [lia |].
    destruct (Z.eqb_spec c 99); [lia |].
    destruct (Z.eqb_spec c 999); [lia |].
    destruct (Z.geb_spec c 9999); [reflexivity | lia].
  - intros c H1 H2 H3 H4. unfold GetDesiredMaxCountForTier.
    destruct (Z.eqb_spec c 1); [lia |].
    destruct (Z.eqb_spec c 99); [lia |].
    destruct (Z.eqb_spec c 999); [lia |].
    destruct (Z.geb_spec c 9999); [lia | reflexivity].
  - intro c. eexists; split; [reflexivity |].
    unfold GetDesiredMaxCountForTier.
    destruct (c =? 1); [auto |].
    destruct (c =? 99); [auto |].
    destruct (c =? 999); [auto |].
    destruct (c >=? 9999); auto.
Qed.

(* ================================================================= *)
(** ** Keys and objects *)

Section KeyOrder.

Lemma key_compare_refl (k : string) : String.compare k k = Eq.
Proof.
  induction k as [| c k IH]; simpl; [reflexivity |].
  unfold Ascii.compare. rewrite N.compare_refl. exact IH.
Qed.

Lemma key_compare_eq (a b : string) : String.compare a b = Eq <-> a = b.
Proof.
  split; [apply String.compare_eq_iff | intros ->; apply key_compare_refl].
Qed.

Lemma key_compare_as_OT (a b : string) :
  String_as_OT.compare a b = String.compare a b.
Proof.
  reflexivity.
Qed.

Lemma key_lt_trans (a b c : string) :
  String.compare a b = Lt -> String.compare b c = Lt -> String.compare a c = Lt.
Proof.
  rewrite <- !key_compare_as_OT.
  apply (@RelationClasses.StrictOrder_Transitive _ _ String_as_OT.lt_strorder).
Qed.

Lemma key_gt_lt (a b : string) :
  String.compare a b = Gt <-> String.compare b a = Lt.
Proof.
  rewrite (String.compare_antisym b a).
  destruct (String.compare a b); simpl; split; congruence.
Qed.

Lemma key_lt_neq (a b : string) : String.compare a b = Lt -> a <> b.
Proof. intros H ->. rewrite key_compare_refl in H. discriminate. Qed.

Lemma key_eqb_compare (a b : string) :
  String.eqb a b = match String.compare a b with Eq => true | _ => false end.
Proof.
  destruct (String.eqb_spec a b) as [-> | N].
  - rewrite key_compare_refl. reflexivity.
  - destruct (String.compare a b) eqn:E; try reflexivity.
    apply key_compare_eq in E. contradiction.
Qed.

Lemma key_two_cases (a b : string) :
  a <> b ->
  (String.compare a b = Lt /\ String.compare b a = Gt) \/
  (String.compare a b = Gt /\ String.compare b a = Lt).
Proof.
  intro N. destruct (String.compare a b) eqn:E.
  - apply key_compare_eq in E. contradiction.
  - left. split; [reflexivity | apply key_gt_lt; exact E].
  - right. split; [reflexivity | apply key_gt_lt; exact E].
Qed.

End KeyOrder.

(** Closes a goal whose hypotheses order some keys in a cycle. *)
Ltac key_order :=
  repeat match goal with
         | H : String.compare _ _ = Eq |- _ => apply key_compare_eq in H; subst
         | H : String.compare _ _ = Gt |- _ => apply key_gt_lt in H
         end;
  try contradiction;
  match goal with
  | H : String.compare ?x ?x = Lt |- _ =>
      rewrite key_compare_refl in H; discriminate
  | H1 : String.compare ?x ?y = Lt, H2 : String.compare ?y ?x = Lt |- _ =>
      let F := fresh in
      pose proof (key_lt_trans _ _ _ H1 H2) as F;
      rewrite key_compare_refl in F; discriminate
  | H1 : String.compare ?x ?y = Lt, H2 : String.compare ?y ?z = Lt,
    H3 : String.compare ?z ?x = Lt |- _ =>
      let F := fresh in
      pose proof (key_lt_trans _ _ _ (key_lt_trans _ _ _ H1 H2) H3) as F;
      rewrite key_compare_refl in F; discriminate
  end.

Section ObjectFacts.

Lemma obj_find_set_same (k : string) (v : json) (m : object_t) :
  obj_find k (obj_set k v m) = Some v.
Proof.
  induction m as [| [k' v'] m IH]; simpl.
  - rewrite String.eqb_refl. reflexivity.
  - destruct (String.compare k k') eqn:E; simpl.
    + rewrite String.eqb_refl. reflexivity.
    + rewrite String.eqb_refl. reflexivity.
    + rewrite key_eqb_compare, E. exact IH.
Qed.

Lemma obj_find_set_other (k k' : string) (v : json) (m : object_t) :
  k' <> k -> obj_find k' (obj_set k v m) = obj_find k' m.
Proof.
  intro N. induction m as [| [k0 v0] m IH]; simpl.
  - destruct (String.eqb_spec k' k); [contradiction | reflexivity].
  - destruct (String.compare k k0) eqn:E; simpl.
    + apply key_compare_eq in E. subst k0.
      destruct (String.eqb_spec k' k); [contradiction | reflexivity].
    + destruct (String.eqb_spec k' k); [contradiction | reflexivity].
    + rewrite IH. reflexivity.
Qed.

(** Assigning twice to one key is assigning the last value. *)
Lemma obj_set_set (k : string) (v w : json) (m : object_t) :
  obj_set k v (obj_set k w m) = obj_set k v m.
Proof.
  induction m as [| [k0 v0] m IH]; simpl.
  - rewrite key_compare_refl. reflexivity.
  - destruct (String.compare k k0) eqn:E; simpl.
    + rewrite key_compare_refl. reflexivity.
    + rewrite key_compare_refl. reflexivity.
    + rewrite E, IH. reflexivity.
Qed.

(** Assignments to different keys commute. *)
Lemma obj_set_comm (a b : string) (v w : json) (m : object_t) :
  a <> b -> obj_set a v (obj_set b w m) = obj_set b w (obj_set a v m).
Proof.
  intro N.
  induction m as [| [k0 v0] m IH]; simpl.
  - destruct (key_two_cases a b N) as [[E1 E2] | [E1 E2]];
      rewrite E1, E2; reflexivity.
  - destruct (key_two_cases a b N) as [[E1 E2] | [E1 E2]];
      destruct (String.compare b k0) eqn:Eb, (String.compare a k0) eqn:Ea;
      simpl;
      rewrite ?E1, ?E2, ?Ea, ?Eb, ?key_compare_refl; simpl;
      rewrite ?E1, ?E2, ?Ea, ?Eb, ?key_compare_refl;
      try reflexivity;
      try (rewrite IH; reflexivity);
      try (exfalso; key_order);
      try (apply key_compare_eq in Ea; subst k0;
           rewrite ?E1, ?E2; reflexivity);
      try (apply key_compare_eq in Eb; subst k0;
           rewrite ?E1, ?E2; reflexivity).
Qed.

Lemma obj_keys_for_each (f : mutation) (m : object_t) :
  obj_keys (fst (for_each_value f m)) = obj_keys m.
Proof.
  induction m as [| [k v] m IH]; simpl; [reflexivity |].
  destruct (f v) as [v' [e |]]; simpl; [reflexivity |].
  destruct (for_each_value f m) as [m' x]; simpl in *.
  rewrite IH. reflexivity.
Qed.

(** Working on an element that is there: the element is replaced by what
    the mutation leaves. *)
Lemma with_element_present (k : string) (g : mutation) (top : object_t) (elem : json) :
  obj_find k top = Some elem ->
  with_element k g (JObject top)
  = (JObject (obj_set k (fst (g elem)) top), snd (g elem)).
Proof.
  intro F. unfold with_element, json_index. rewrite F.
  destruct (g elem) as [elem' x]. reflexivity.
Qed.

End ObjectFacts.

(* ================================================================= *)
(** ** Getters and setters *)

Section Accessors.

Lemma section_usable_inv (s : SaveGameManager) (section : string) :
  section_usable s section = true ->
  m_isSaveFileLoaded s = true /\
  exists m p, m_saveData s = JObject m /\ obj_find section m = Some (JObject p).
Proof.
  unfold section_usable, contains, json_at, is_object.
  intro H. apply andb_true_iff in H as [H H3]. apply andb_true_iff in H as [H1 H2].
  split; [exact H1 |].
  destruct (m_saveData s) as [| | | | | | | m]; try discriminate H2.
  destruct (obj_find section m) as [[| | | | | | | p] |] eqn:E;
    try discriminate H2; try discriminate H3.
  exists m, p. split; [reflexivity | exact E].
Qed.

Lemma section_usable_intro (s : SaveGameManager) (section : string) m p :
  m_isSaveFileLoaded s = true -> m_saveData s = JObject m ->
  obj_find section m = Some (JObject p) ->
  section_usable s section = true.
Proof.
  intros H1 H2 H3. unfold section_usable, contains, json_at.
  rewrite H1, H2, H3. reflexivity.
Qed.

(** Behind the guard a setter is two nested assignments and cannot throw. *)
Lemma write_number_usable (section field : string) (v : Z) (s : SaveGameManager) m p :
  m_isSaveFileLoaded s = true -> m_saveData s = JObject m ->
  obj_find section m = Some (JObject p) ->
  write_number section field v s =
  (set_saveData s (JObject (obj_set section (JObject (obj_set field (JInt v) p)) m)),
   None).
Proof.
  intros H1 H2 H3. unfold write_number.
  rewrite (section_usable_intro _ _ _ _ H1 H2 H3).
  unfold with_element, json_index. rewrite H2, H3. reflexivity.
Qed.

Lemma write_number_unusable (section field : string) (v : Z) (s : SaveGameManager) :
  section_usable s section = false -> write_number section field v s = (s, None).
Proof. intro H. unfold write_number. rewrite H. reflexivity. Qed.

Lemma read_number_after_write (section field : string) (v : Z) (s : SaveGameManager) :
  section_usable s section = true ->
  read_number section field (fst (write_number section field v s))
  = Ok (wrap_long_long v).
Proof.
  intro U. destruct (section_usable_inv _ _ U) as [L (m & p & Hm & Hp)].
  rewrite (write_number_usable _ _ _ _ _ _ L Hm Hp). simpl.
  unfold read_number, section_usable, contains, json_at. simpl.
  rewrite L, !obj_find_set_same. simpl. rewrite ?obj_find_set_same. reflexivity.
Qed.

Lemma wrap_long_long_small (v : Z) :
  - 9223372036854775808 <= v <= 9223372036854775807 -> wrap_long_long v = v.
Proof. intro H. unfold wrap_long_long. rewrite Z.mod_small; lia. Qed.

Lemma typed_setters_write f section field :
  In (f, (section, field)) typed_setters ->
  exists clamp : Z -> Z, forall v s, f v s = write_number section field (clamp v) s.
Proof.
  simpl. intros [H | [H | [H | [H | []]]]]; injection H as <- <- <-.
  - exists (fun v => Z.min v SAVE_MAX_CURRENCY); reflexivity.
  - exists (fun v => Z.min v SAVE_MAX_CURRENCY); reflexivity.
  - exists (fun v => Z.min v SAVE_MAX_CURRENCY); reflexivity.
  - exists (fun v => v); reflexivity.
Qed.

Lemma typed_getters_read g section field :
  In (g, (section, field)) typed_getters -> forall s, g s = read_number section field s.
Proof.
  simpl. intros [H | [H | [H | [H | []]]]]; injection H as <- <- <-; reflexivity.
Qed.

End Accessors.

Section AccessorTheorems.

Lemma read_number_zero (section field : string) (s : SaveGameManager) :
  m_isSaveFileLoaded s = false \/
  contains (m_saveData s) section = false \/
  is_object (json_at (m_saveData s) section) = false \/
  contains (json_at (m_saveData s) section) field = false ->
  read_number section field s = Ok 0.
Proof.
  unfold read_number, section_usable.
  intros [H | [H | [H | H]]]; rewrite H;
    rewrite ?andb_false_r, ?andb_false_l; reflexivity.
Qed.

Lemma read_number_raises (section field : string) (s : SaveGameManager) :
  raises (read_number section field s) = true ->
  section_usable s section = true /\
  contains (json_at (m_saveData s) section) field = true /\
  is_arithmetic (json_at (json_at (m_saveData s) section) field) = false.
Proof.
  unfold read_number.
  destruct (section_usable s section); simpl; [| discriminate].
  destruct (contains (json_at (m_saveData s) section) field); simpl; [| discriminate].
  destruct (json_at (json_at (m_saveData s) section) field); simpl;
    intro H; try discriminate H; auto.
Qed.

Lemma read_number_value (section field : string) (s : SaveGameManager) :
  section_usable s section = true ->
  contains (json_at (m_saveData s) section) field = true ->
  read_number section field s
  = get_long_long (json_at (json_at (m_saveData s) section) field).
Proof. intros H1 H2. unfold read_number. rewrite H1, H2. reflexivity. Qed.

Lemma read_number_throws (section field : string) (s : SaveGameManager) :
  section_usable s section = true ->
  contains (json_at (m_saveData s) section) field = true ->
  is_arithmetic (json_at (json_at (m_saveData s) section) field) = false ->
  read_number section field s = Throw (type_error 302).
Proof.
  intros H1 H2 H3. unfold read_number. rewrite H1, H2. simpl.
  destruct (json_at (json_at (m_saveData s) section) field);
    try discriminate H3; reflexivity.
Qed.

Lemma write_number_no_new_section (section field : string) (v : Z)
  (s : SaveGameManager) (k : string) :
  contains (m_saveData s) k = false ->
  contains (m_saveData (fst (write_number section field v s))) k = false.
Proof.
  intro H. destruct (section_usable s section) eqn:U.
  - destruct (section_usable_inv _ _ U) as [L (m & p & Hm & Hp)].
    rewrite (write_number_usable _ _ _ _ _ _ L Hm Hp). simpl.
    rewrite Hm in H. simpl in H.
    destruct (String.eqb_spec k section) as [-> | N].
    + rewrite Hp in H. discriminate.
    + rewrite obj_find_set_other by exact N. exact H.
  - rewrite write_number_unusable by exact U. exact H.
Qed.

Lemma write_number_never_throws (section field : string) (v : Z) (s : SaveGameManager) :
  snd (write_number section field v s) = None.
Proof.
  destruct (section_usable s section) eqn:U.
  - destruct (section_usable_inv _ _ U) as [L (m & p & Hm & Hp)].
    rewrite (write_number_usable _ _ _ _ _ _ L Hm Hp). reflexivity.
  - rewrite write_number_unusable by exact U. reflexivity.
Qed.

Lemma section_unusable_cases (s : SaveGameManager) (section : string) :
  m_isSaveFileLoaded s = false \/
  contains (m_saveData s) section = false \/
  is_object (json_at (m_saveData s) section) = false ->
  section_usable s section = false.
Proof.
  unfold section_usable.
  intros [H | [H | H]]; rewrite H; rewrite ?andb_false_r; reflexivity.
Qed.

Lemma write_number_twice (section field : string) (v : Z) (s : SaveGameManager) :
  fst (write_number section field v (fst (write_number section field v s)))
  = fst (write_number section field v s).
Proof.
  destruct (section_usable s section) eqn:U.
  - destruct (section_usable_inv _ _ U) as [L (m & p & Hm & Hp)].
    rewrite (write_number_usable _ _ _ _ _ _ L Hm Hp). simpl.
    erewrite write_number_usable;
      [| exact L | reflexivity | apply obj_find_set_same].
    simpl. rewrite !obj_set_set. reflexivity.
  - rewrite (write_number_unusable _ _ _ s U). simpl.
    rewrite (write_number_unusable _ _ _ s U). reflexivity.
Qed.

Lemma stored_after_write (section field : string) (v : Z) (s : SaveGameManager) :
  section_usable s section = true ->
  json_at (json_at (m_saveData (fst (write_number section field v s))) section) field
  = JInt v.
Proof.
  intro U. destruct (section_usable_inv _ _ U) as [L (m & p & Hm & Hp)].
  rewrite (write_number_usable _ _ _ _ _ _ L Hm Hp). simpl.
  rewrite obj_find_set_same. simpl. rewrite obj_find_set_same. reflexivity.
Qed.

End AccessorTheorems.

(** C4, as stated, fails: on a loaded document whose [m_Gold] is a string,
    [GetGold] does not return but throws [type_error] 302. *)
Lemma getter_throws_on_text_field :
  GetGold save_with_text_gold = Throw (type_error 302).
Proof. reflexivity. Qed.

(** C4, amended.  For every state: a getter returns 0 when the document is
    unloaded, the owning section is absent or not a map, or the field is
    absent; it throws only when the field is present and is not a number,
    then always, with [type_error] 302 (a string, a boolean, null, a
    container), and otherwise returns the number converted to [long long].
    A setter never throws, never makes a top-level key appear that was not
    there, and leaves the whole state as it was when the owning section is
    absent or not a map. *)
Theorem getters_default_to_zero_setters_keep_sections (s : SaveGameManager) :
  (forall g section field, In (g, (section, field)) typed_getters ->
     (m_isSaveFileLoaded s = false \/
      contains (m_saveData s) section = false \/
      is_object (json_at (m_saveData s) section) = false \/
      contains (json_at (m_saveData s) section) field = false ->
      g s = Ok 0) /\
     (raises (g s) = true ->
      section_usable s section = true /\
      contains (json_at (m_saveData s) section) field = true /\
      is_arithmetic (json_at (json_at (m_saveData s) section) field) = false) /\
     (section_usable s section = true ->
      contains (json_at (m_saveData s) section) field = true ->
      is_arithmetic (json_at (json_at (m_saveData s) section) field) = false ->
      g s = Throw (type_error 302)) /\
     (section_usable s section = true ->
      contains (json_at (m_saveData s) section) field = true ->
      g s = get_long_long (json_at (json_at (m_saveData s) section) field))) /\
  (forall f section field v, In (f, (section, field)) typed_setters ->
     snd (f v s) = None /\
     (m_isSaveFileLoaded s = false \/
      contains (m_saveData s) section = false \/
      is_object (json_at (m_saveData s) section) = false ->
      f v s = (s, None)) /\
     (forall k, contains (m_saveData s) k = false ->
                contains (m_saveData (fst (f v s))) k = false)).
Proof.
  split.
  - intros g section field Hin.
    rewrite (typed_getters_read _ _ _ Hin s).
    split; [apply read_number_zero |].
    split; [apply read_number_raises |].
    split; [apply read_number_throws | apply read_number_value].
  - intros f section field v Hin.
    destruct (typed_setters_write _ _ _ Hin) as [clamp Hf].
    rewrite Hf.
    split; [apply write_number_never_throws |].
    split.
    + intro H. apply write_number_unusable, section_unusable_cases, H.
    + intros k Hk. apply write_number_no_new_section, Hk.
Qed.

Lemma getters_default_to_zero_witness :
  GetFollowerCount unloaded_manager = Ok 0 /\
  SetGold 5 unloaded_manager = (unloaded_manager, None).
Proof.
  split.
  - apply (proj1 (getters_default_to_zero_setters_keep_sections unloaded_manager)
             GetFollowerCount "SNSInfo" "m_Follow_Count").
    + simpl; auto.
    + left; reflexivity.
  - apply (proj2 (getters_default_to_zero_setters_keep_sections unloaded_manager)
             SetGold "PlayerInfo" "m_Gold" 5).
    + simpl; auto.
    + left; reflexivity.
Defined.

(** C5.  Behind the section guard a currency setter stores
    [min(v, 999999999)]: never more than the maximum, exactly the maximum for
    every larger [v], [v] itself otherwise, and a second call with the same
    argument changes nothing; the matching getter reads the stored value
    back.  [SetFollowerCount], behind the same guard on its own section,
    stores its argument as it is. *)
Theorem currency_setters_clamp_follower_setter_does_not (s : SaveGameManager) (v : Z) :
  (section_usable s "PlayerInfo" = true ->
   forall set get field, In (set, get, field) currency_accessors ->
     let s' := fst (set v s) in
     let stored := json_at (json_at (m_saveData s') "PlayerInfo") field in
     snd (set v s) = None /\
     (exists x, stored = JInt x /\ x <= 999999999) /\
     (v > SAVE_MAX_CURRENCY -> stored = JInt 999999999) /\
     (v <= SAVE_MAX_CURRENCY -> stored = JInt v) /\
     fst (set v s') = s' /\
     (- 9223372036854775808 <= v <= 9223372036854775807 ->
      get s' = Ok (Z.min v SAVE_MAX_CURRENCY))) /\
  (section_usable s "SNSInfo" = true ->
   let s' := fst (SetFollowerCount v s) in
   snd (SetFollowerCount v s) = None /\
   json_at (json_at (m_saveData s') "SNSInfo") "m_Follow_Count" = JInt v /\
   fst (SetFollowerCount v s') = s' /\
   (- 9223372036854775808 <= v <= 9223372036854775807 ->
    GetFollowerCount s' = Ok v)).
Proof.
  split.
  - intros U set get field Hin s' stored.
    assert (Hshape : set v = write_number "PlayerInfo" field (Z.min v SAVE_MAX_CURRENCY)
                     /\ get = read_number "PlayerInfo" field).
    { simpl in Hin. destruct Hin as [H | [H | [H | []]]];
        injection H as <- <- <-; split; reflexivity. }
    destruct Hshape as [Hset ->].
    assert (Hstored : stored = JInt (Z.min v SAVE_MAX_CURRENCY)).
    { unfold stored, s'. rewrite Hset. apply stored_after_write, U. }
    unfold SAVE_MAX_CURRENCY in *.
    split; [rewrite Hset; apply write_number_never_throws |].
    split; [exists (Z.min v 999999999); split; [exact Hstored | lia] |].
    split; [intro H; rewrite Hstored; f_equal; lia |].
    split; [intro H; rewrite Hstored; f_equal; lia |].
    split.
    + unfold s'. rewrite Hset. apply write_number_twice.
    + intro R. unfold s'. rewrite Hset, read_number_after_write by exact U.
      rewrite wrap_long_long_small by lia. reflexivity.
  - intros U s'. unfold s', SetFollowerCount.
    split; [apply write_number_never_throws |].
    split; [apply stored_after_write, U |].
    split; [apply write_number_twice |].
    intro R. unfold GetFollowerCount.
    rewrite read_number_after_write by exact U.
    rewrite wrap_long_long_small by lia. reflexivity.
Qed.

Lemma currency_setters_clamp_witness :
  GetGold (fst (SetGold 1000000000 small_save)) = Ok 999999999 /\
  GetFollowerCount (fst (SetFollowerCount 1000000000 small_save)) = Ok 1000000000.
Proof.
  split.
  - apply (proj1 (currency_setters_clamp_follower_setter_does_not small_save 1000000000)
             eq_refl SetGold GetGold "m_Gold").
    + simpl; auto.
    + lia.
  - apply (proj2 (currency_setters_clamp_follower_setter_does_not small_save 1000000000)
             eq_refl).
    lia.
Defined.

(* ================================================================= *)
(** ** Writing the save file *)

Section WriteFacts.

Lemma string_length_append (a b : string) :
  String.length (a ++ b)%string = (String.length a + String.length b)%nat.
Proof. induction a as [| c a IH]; simpl; [reflexivity | rewrite IH; reflexivity]. Qed.

Lemma split_last_dot_append (s before from_dot : string) :
  split_last_dot s = Some (before, from_dot) -> (before ++ from_dot)%string = s.
Proof.
  revert before from_dot.
  induction s as [| c s IH]; simpl; intros before from_dot H; [discriminate |].
  destruct (split_last_dot s) as [[b f] |].
  - injection H as <- <-. simpl. rewrite (IH b f eq_refl). reflexivity.
  - destruct (Ascii.eqb c "."%char); [| discriminate].
    injection H as <- <-. reflexivity.
Qed.

(** A file name is its stem followed by its extension. *)
Lemma stem_extension_append (p : path) : (stem p ++ extension p)%string = filename p.
Proof.
  unfold stem, extension, stem_and_extension.
  assert (R : forall n : string, (n ++ "")%string = n).
  { intro n. induction n as [| c n IH]; simpl; [| rewrite IH]; reflexivity. }
  destruct (String.eqb (filename p) "." || String.eqb (filename p) ".."); simpl;
    [apply R |].
  destruct (split_last_dot (filename p)) as [[before from_dot] |] eqn:E; simpl;
    [| apply R].
  destruct before as [| c before]; simpl; [apply R |].
  apply (split_last_dot_append _ _ _ E).
Qed.

(** The backup never has the name of the original: its name is longer. *)
Lemma backup_path_differs (w : World) (original_path : path) :
  backup_path_of w original_path <> original_path.
Proof.
  intro H.
  assert (L : String.length (filename (backup_path_of w original_path))
              = String.length (filename original_path)) by (rewrite H; reflexivity).
  unfold backup_path_of in L. simpl in L.
  pose proof (f_equal String.length (stem_extension_append original_path)) as Q.
  rewrite !string_length_append in L, Q. simpl in L.
  rewrite string_length_append in L. lia.
Qed.

Lemma fs_store_same (fs : filesystem) (p : path) (bytes : string) :
  fs_store fs p bytes p = Some bytes.
Proof. unfold fs_store. destruct (path_eq_dec p p); congruence. Qed.

Lemma fs_store_other (fs : filesystem) (p q : path) (bytes : string) :
  q <> p -> fs_store fs p bytes q = fs q.
Proof. intro N. unfold fs_store. destruct (path_eq_dec q p); congruence. Qed.

End WriteFacts.

(** Settles one branch of [WriteSaveFile]: the flag is known, and a file is
    read back either where it was stored or elsewhere. *)
Ltac write_case :=
  repeat split; intros;
  repeat match goal with H : _ \/ _ |- _ => destruct H end;
  rewrite ?fs_store_same in *;
  try discriminate; try congruence;
  try (eexists; split; reflexivity);
  try (do 2 eexists; split; [reflexivity | split; [eassumption | reflexivity]]);
  try (rewrite ?fs_store_other in * by congruence;
       rewrite ?fs_store_same in *;
       first [reflexivity | congruence | eexists; split; reflexivity]).

(** C2, as stated, fails in its last clause: the program does not look at
    the stream after [write], so a write that the stream cuts short is
    reported as success.  With a stream that takes three bytes, the call on
    the example save returns [true] and leaves in the original file the
    first three of the 60 bytes of the encoded document, where nine bytes of
    other content were before. *)
Lemma write_reports_success_on_short_write :
  fst (fst (WriteSaveFile example_dump short_write_world small_save example_files))
  = true /\
  example_files (m_currentSaveFilePath small_save) = Some "old bytes" /\
  (exists text final_bytes,
     example_dump (m_saveData small_save) = Ok text /\
     Codec.Encode text = Some final_bytes /\
     String.length final_bytes = 60%nat /\
     snd (WriteSaveFile example_dump short_write_world small_save example_files)
         (m_currentSaveFilePath small_save)
     = Some (substring 0 3 final_bytes) /\
     String.length (substring 0 3 final_bytes) = 3%nat).
Proof.
  split; [reflexivity |]. split; [reflexivity |].
  eexists. eexists.
  split; [vm_compute; reflexivity |].
  split; [vm_compute; reflexivity |].
  split; [reflexivity |].
  split; reflexivity.
Qed.

(** C2, amended.  Let a document be loaded from a known path.  Whenever
    [WriteSaveFile] reports failure, the original file holds the bytes it
    held before the call and the reported backup path is empty; this is so
    in particular when the backup directory cannot be made, the original
    cannot be read or the copy fails.  Whenever it reports success, the
    reported path is the backup path, the backup file holds the bytes the
    original held before the call, and the original holds the encoded
    document: all of it when the stream has taken all bytes, and otherwise
    the bytes the stream has taken.  The backup is never the original file,
    and in every run in which the original's content changes the backup
    already holds the former content.  No third file is touched. *)
Theorem write_backs_up_before_overwriting
  (dump : json -> outcome string) (w : World) (s : SaveGameManager) (fs : filesystem) :
  m_isSaveFileLoaded s = true ->
  path_empty (m_currentSaveFilePath s) = false ->
  let original := m_currentSaveFilePath s in
  let backup := backup_path_of w original in
  let ok := fst (fst (WriteSaveFile dump w s fs)) in
  let out_backup_filepath := snd (fst (WriteSaveFile dump w s fs)) in
  let fs' := snd (WriteSaveFile dump w s fs) in
  backup <> original /\
  (ok = false -> fs' original = fs original /\ out_backup_filepath = empty_path) /\
  (create_directories_ok w = false \/ fs original = None \/ copy_failure w <> None ->
   ok = false /\ fs' original = fs original /\ out_backup_filepath = empty_path) /\
  (ok = true ->
   out_backup_filepath = backup /\
   exists original_bytes,
     fs original = Some original_bytes /\ fs' backup = Some original_bytes) /\
  (ok = true ->
   exists text final_bytes,
     dump (m_saveData s) = Ok text /\
     Codec.Encode text = Some final_bytes /\
     fs' original
     = Some match short_write w with
            | None => final_bytes
            | Some n => substring 0 n final_bytes
            end) /\
  (fs' original <> fs original ->
   ok = true /\ fs original <> None /\ fs' backup = fs original) /\
  (forall p, p <> original -> p <> backup -> fs' p = fs p).
Proof.
  intros L P original backup ok out fs'.
  pose proof (backup_path_differs w original) as D. fold backup in D.
  assert (D' : original <> backup) by congruence.
  unfold ok, out, fs', WriteSaveFile. rewrite L, P. simpl.
  fold original. fold backup.
  destruct (create_directories_ok w); simpl; [| write_case].
  destruct (fs original) as [original_bytes |] eqn:Eo; simpl; [| write_case].
  destruct (copy_failure w) as [[partial |] |]; simpl; [write_case | write_case |].
  destruct (dump (m_saveData s)) as [text | e] eqn:Ed; simpl; [| write_case].
  destruct (Codec.Encode text) as [final_bytes |] eqn:Ee; simpl; [| write_case].
  destruct (open_ok w); simpl; write_case.
Qed.

Lemma write_backs_up_witness :
  exists original_bytes,
    example_files (m_currentSaveFilePath small_save) = Some original_bytes /\
    snd (WriteSaveFile example_dump example_world small_save example_files)
        (backup_path_of example_world (m_currentSaveFilePath small_save))
    = Some original_bytes.
Proof.
  pose proof (write_backs_up_before_overwriting
                example_dump example_world small_save example_files
                eq_refl eq_refl) as H.
  cbv zeta in H.
  destruct H as (_ & _ & _ & H & _).
  apply H. reflexivity.
Defined.

(* ================================================================= *)
(** ** MaxOwnIngredients *)

Section OwnIngredients.

Variable lookup : Z -> option Z.

Lemma get_int_of_integer (j : json) :
  is_number_integer j = true -> exists id, get_int j = Ok id.
Proof.
  destruct j; try discriminate; intros _; unfold get_int; simpl; eauto.
Qed.

(** The loop body never throws, and it leaves an entry as it was or raises
    its [count]. *)
Lemma max_own_entry_effect (entry : json) :
  snd (max_own_entry lookup "ingredientsID" "count" entry) = None /\
  count_raised_or_same lookup entry
    (fst (max_own_entry lookup "ingredientsID" "count" entry)).
Proof.
  unfold max_own_entry.
  destruct (contains entry "ingredientsID") eqn:C; simpl;
    [| split; [reflexivity | left; reflexivity]].
  destruct entry as [| | | | | | | fields]; try discriminate C.
  simpl in C |- *.
  destruct (obj_find "ingredientsID" fields) as [idv |] eqn:F; [| discriminate C].
  destruct (is_number_integer idv) eqn:I; simpl;
    [| split; [reflexivity | left; reflexivity]].
  destruct (get_int_of_integer _ I) as [id G]. rewrite G.
  destruct (lookup id) as [max_count |] eqn:Q;
    [| split; [reflexivity | left; reflexivity]].
  destruct (Z.gtb_spec (GetDesiredMaxCountForTier (sqlite3_column_int max_count)) 0)
    as [T | T];
    [| split; [reflexivity | left; reflexivity]].
  split; [reflexivity |].
  right. exists fields, idv, id, max_count.
  split; [reflexivity |]. split; [exact F |]. split; [exact I |].
  split; [exact G |]. split; [exact Q |]. split; [lia | reflexivity].
Qed.

Lemma count_raised_keeps_other_fields (k : string) (e e' : json) :
  count_raised_or_same lookup e e' -> same_but_count (k, e) (k, e').
Proof.
  intros [-> | (fields & idv & id & mc & -> & _ & _ & _ & _ & _ & ->)];
    split; try reflexivity; intros field N; simpl.
  - split; reflexivity.
  - rewrite obj_find_set_other by exact N. split; reflexivity.
Qed.

Lemma for_each_value_effect (f : mutation) (R : json -> json -> Prop) :
  (forall e, snd (f e) = None /\ R e (fst (f e))) ->
  forall m,
    snd (for_each_value f m) = None /\
    Forall2 (fun b b' => fst b' = fst b /\ R (snd b) (snd b'))
            m (fst (for_each_value f m)).
Proof.
  intros Hf m. induction m as [| [k v] m [IHx IHr]]; simpl.
  - split; [reflexivity | constructor].
  - destruct (Hf v) as [Hx Hr].
    destruct (f v) as [v' x]; simpl in Hx, Hr. subst x.
    destruct (for_each_value f m) as [m' x']; simpl in *.
    split; [exact IHx |].
    constructor; [split; [reflexivity | exact Hr] | exact IHr].
Qed.

End OwnIngredients.

(** C8.  On a loaded document whose [Ingredients] section is a map,
    [MaxOwnIngredients] does not throw and keeps the section a map with the
    same keys in the same order; every entry is left as it was or is an
    object whose identifier the reference store maps to a capacity that, as
    the [int] the program reads it into, has a target above 0, and whose
    [count] is set to that target; every field other than [count] of every
    entry, every other section of the document, the path and the loaded
    flag are unchanged. *)
Theorem MaxOwnIngredients_changes_counts_only
  (db : option RefDb) (s : SaveGameManager) (top ing : object_t) :
  m_isSaveFileLoaded s = true ->
  m_saveData s = JObject top ->
  obj_find "Ingredients" top = Some (JObject ing) ->
  let s' := fst (MaxOwnIngredients db s) in
  let lookup := fun id =>
    match db with
    | Some d => select_MaxCount_by_ItemDataID d id
    | None => None
    end in
  snd (MaxOwnIngredients db s) = None /\
  m_currentSaveFilePath s' = m_currentSaveFilePath s /\
  m_isSaveFileLoaded s' = true /\
  exists top' ing',
    m_saveData s' = JObject top' /\
    obj_find "Ingredients" top' = Some (JObject ing') /\
    (forall k, k <> "Ingredients" -> obj_find k top' = obj_find k top) /\
    obj_keys ing' = obj_keys ing /\
    Forall2 (fun b b' => fst b' = fst b /\
                         count_raised_or_same lookup (snd b) (snd b'))
            ing ing' /\
    Forall2 same_but_count ing ing'.
Proof.
  intros L Hm Hi s' lookup.
  assert (Same : Forall2 (fun b b' : string * json =>
                   fst b' = fst b /\ count_raised_or_same lookup (snd b) (snd b'))
                   ing ing).
  { clear. induction ing as [| b m IH]; constructor;
      [split; [reflexivity | left; reflexivity] | exact IH]. }
  assert (Weaken : forall m m',
            Forall2 (fun b b' : string * json =>
                   fst b' = fst b /\ count_raised_or_same lookup (snd b) (snd b'))
                   m m' ->
            Forall2 same_but_count m m' /\ obj_keys m' = obj_keys m).
  { clear. intros m m' H. induction H as [| [k e] [k' e'] m m' [Hk Hr] _ [IH1 IH2]].
    - split; [constructor | reflexivity].
    - simpl in Hk. subst k'. split.
      + constructor; [| exact IH1].
        apply (count_raised_keeps_other_fields lookup), Hr.
      + simpl. rewrite IH2. reflexivity. }
  unfold s', MaxOwnIngredients.
  rewrite (section_usable_intro _ _ _ _ L Hm Hi). simpl.
  destruct db as [d |]; simpl.
  - unfold with_element, json_index, json_for_each. rewrite Hm, Hi.
    pose proof (for_each_value_effect
                  (max_own_entry (select_MaxCount_by_ItemDataID d)
                                 "ingredientsID" "count")
                  (count_raised_or_same (select_MaxCount_by_ItemDataID d))
                  (max_own_entry_effect (select_MaxCount_by_ItemDataID d)) ing)
      as [Hx Hr].
    destruct (for_each_value _ ing) as [ing' x]; simpl in Hx, Hr |- *.
    repeat split; try assumption.
    exists (obj_set "Ingredients" (JObject ing') top), ing'.
    destruct (Weaken _ _ Hr) as [W1 W2].
    repeat split; try assumption.
    + apply obj_find_set_same.
    + intros k N. apply obj_find_set_other, N.
  - repeat split; try assumption.
    exists top, ing. destruct (Weaken _ _ Same) as [W1 W2].
    repeat split; try assumption.
Qed.

(* ================================================================= *)
(** ** MaxAllIngredients *)

Section AllIngredientsLoop.

(** One turn of the loop on a collection that is an object. *)
Lemma max_all_row_on_object (ts : string * string) (r : db_row) (c : object_t) :
  max_all_row ts r (JObject c)
  = (JObject (row_step ts r c),
     if row_throws r c then Some (type_error 305) else None).
Proof.
  unfold max_all_row, row_step, row_throws, row_eligible, key_rejects_fields.
  destruct (row_count "ingredientsID_for_save_file_key" r); simpl; [| reflexivity].
  destruct (row_count "parentID" r); simpl; [| reflexivity].
  destruct (row_count "MaxCount" r); simpl; [| reflexivity].
  fold (row_target r).
  destruct (row_target r =? 0) eqn:T; simpl; [reflexivity |].
  fold (row_key r).
  unfold with_element, json_index, row_value.
  destruct (obj_find (row_key r) c) as [entry |] eqn:F; simpl.
  - unfold raise_count.
    destruct (assign_key "count" (JInt (row_target r)) entry) as [entry' x] eqn:A.
    simpl. f_equal.
    destruct entry; simpl in A; injection A as <- <-; reflexivity.
  - reflexivity.
Qed.

Lemma raise_count_twice (t u : Z) (entry : json) :
  raise_count t (raise_count u entry) = raise_count t entry.
Proof.
  destruct entry; try reflexivity.
  unfold raise_count; simpl. rewrite obj_set_set. reflexivity.
Qed.

Lemma raise_count_keeps_rejection (t : Z) (entry : json) :
  entry_rejects_fields (raise_count t entry) = entry_rejects_fields entry.
Proof. destruct entry; reflexivity. Qed.

(** A second visit of the same row leaves what the first visit left. *)
Lemma row_value_settled (ts : string * string) (r : db_row) (found : option json) :
  raise_count (row_target r) (row_value ts r found) = row_value ts r found.
Proof.
  destruct found as [entry |]; simpl.
  - apply raise_count_twice.
  - reflexivity.
Qed.

Lemma row_value_rejection (ts : string * string) (r : db_row) (found : option json) :
  entry_rejects_fields (row_value ts r found)
  = match found with Some entry => entry_rejects_fields entry | None => false end.
Proof.
  destruct found as [entry |]; simpl;
    [apply raise_count_keeps_rejection | reflexivity].
Qed.

(** No turn of the loop changes which keys hold an entry that rejects
    fields. *)
Lemma row_step_rejection (ts : string * string) (r : db_row) (c : object_t) (k : string) :
  key_rejects_fields (row_step ts r c) k = key_rejects_fields c k.
Proof.
  unfold row_step, key_rejects_fields.
  destruct (row_eligible r); [| reflexivity].
  destruct (String.eqb_spec k (row_key r)) as [-> | N].
  - rewrite obj_find_set_same, row_value_rejection. reflexivity.
  - rewrite obj_find_set_other by exact N. reflexivity.
Qed.

Lemma row_steps_cons (ts : string * string) (r : db_row) (rows : list db_row)
  (c : object_t) :
  row_steps ts (r :: rows) c = row_steps ts rows (row_step ts r c).
Proof. reflexivity. Qed.

Lemma row_steps_rejection (ts : string * string) (rows : list db_row) :
  forall c k, key_rejects_fields (row_steps ts rows c) k = key_rejects_fields c k.
Proof.
  induction rows as [| r rows IH]; intros c k; [reflexivity |].
  rewrite row_steps_cons, IH. apply row_step_rejection.
Qed.

Lemma rows_reached_ext (b b' : string -> bool) (rows : list db_row) :
  (forall k, b k = b' k) -> rows_reached b rows = rows_reached b' rows.
Proof.
  intro E. induction rows as [| r rows IH]; simpl; [reflexivity |].
  rewrite E, IH. reflexivity.
Qed.

(** The loop, with its exit by exception, is the plain fold over the rows
    it reaches. *)
Lemma max_all_rows_on_object (ts : string * string) (rows : list db_row) :
  forall (c : object_t) (b : string -> bool),
    (forall k, b k = key_rejects_fields c k) ->
    fst (max_all_rows ts rows (JObject c))
    = JObject (row_steps ts (rows_reached b rows) c).
Proof.
  induction rows as [| r rows IH]; intros c b Hb; [reflexivity |].
  cbn [max_all_rows rows_reached].
  rewrite max_all_row_on_object. unfold row_throws. rewrite <- Hb.
  destruct (row_eligible r && b (row_key r)); [reflexivity |].
  rewrite row_steps_cons.
  apply IH. intro k. rewrite row_step_rejection. apply Hb.
Qed.

Lemma row_step_find_other (ts : string * string) (r : db_row) (c : object_t) (k : string) :
  row_eligible r && String.eqb (row_key r) k = false ->
  obj_find k (row_step ts r c) = obj_find k c.
Proof.
  unfold row_step. intro H.
  destruct (row_eligible r); [| reflexivity]. simpl in H.
  apply obj_find_set_other. intros ->. rewrite String.eqb_refl in H. discriminate.
Qed.

Lemma row_step_set_other (ts : string * string) (r : db_row) (c : object_t)
  (k : string) (v : json) :
  row_eligible r && String.eqb (row_key r) k = false ->
  row_step ts r (obj_set k v c) = obj_set k v (row_step ts r c).
Proof.
  unfold row_step. intro H.
  destruct (row_eligible r); [| reflexivity]. simpl in H.
  assert (N : row_key r <> k).
  { intros E. rewrite E, String.eqb_refl in H. discriminate. }
  rewrite obj_find_set_other by exact N.
  apply obj_set_comm, N.
Qed.

Lemma row_step_present (ts : string * string) (r : db_row) (c : object_t) (k : string) :
  obj_find k c <> None -> obj_find k (row_step ts r c) <> None.
Proof.
  unfold row_step. intro H.
  destruct (row_eligible r); [| exact H].
  destruct (String.eqb_spec k (row_key r)) as [-> | N].
  - rewrite obj_find_set_same. discriminate.
  - rewrite obj_find_set_other by exact N. exact H.
Qed.

Lemma row_steps_present (ts : string * string) (rows : list db_row) :
  forall c k, obj_find k c <> None -> obj_find k (row_steps ts rows c) <> None.
Proof.
  induction rows as [| r rows IH]; intros c k H; [exact H |].
  rewrite row_steps_cons. apply IH, row_step_present, H.
Qed.

(** Rows that do not work on [k] neither read nor move its binding. *)
Lemma row_steps_untouched (ts : string * string) (rows : list db_row) (k : string) :
  rows_touch k rows = false ->
  forall c,
    obj_find k (row_steps ts rows c) = obj_find k c /\
    forall v, obj_set k v (row_steps ts rows c) = row_steps ts rows (obj_set k v c).
Proof.
  induction rows as [| r rows IH]; cbn [rows_touch existsb]; intros H c.
  - split; [reflexivity | intro; reflexivity].
  - apply orb_false_iff in H as [Hr Hrest].
    destruct (IH Hrest (row_step ts r c)) as [IH1 IH2].
    rewrite !row_steps_cons.
    split.
    + rewrite IH1. apply row_step_find_other, Hr.
    + intro v. rewrite row_steps_cons, IH2. f_equal. symmetry.
      apply row_step_set_other, Hr.
Qed.

(** A count written under [k] is lost when a later row works on [k]. *)
Lemma row_steps_absorb (ts : string * string) (rows : list db_row) (k : string) (t : Z) :
  rows_touch k rows = true ->
  forall c entry,
    obj_find k c = Some entry ->
    row_steps ts rows (obj_set k (raise_count t entry) c) = row_steps ts rows c.
Proof.
  induction rows as [| r rows IH]; cbn [rows_touch existsb];
    intros H c entry F; [discriminate |].
  rewrite !row_steps_cons.
  destruct (row_eligible r && String.eqb (row_key r) k) eqn:Hr.
  - apply andb_true_iff in Hr as [He Hk]. apply String.eqb_eq in Hk.
    f_equal. unfold row_step. rewrite He, Hk.
    rewrite obj_find_set_same, F, obj_set_set. simpl.
    rewrite raise_count_twice. reflexivity.
  - simpl in H.
    rewrite row_step_set_other by exact Hr.
    apply IH; [exact H |].
    rewrite row_step_find_other by exact Hr. exact F.
Qed.

(** Running the rows again over the collection they produced changes
    nothing, whatever time stamps the second run would give to new entries. *)
Lemma row_steps_idempotent (ts ts' : string * string) (rows : list db_row) :
  forall c, row_steps ts' rows (row_steps ts rows c) = row_steps ts rows c.
Proof.
  induction rows as [| r rows IH]; intro c; [reflexivity |].
  rewrite !row_steps_cons.
  destruct (row_eligible r) eqn:He.
  - set (k := row_key r).
    set (v := row_value ts r (obj_find k c)).
    assert (Hc' : row_step ts r c = obj_set k v c).
    { unfold row_step. rewrite He. reflexivity. }
    rewrite Hc'.
    set (X := row_steps ts rows (obj_set k v c)).
    assert (HX : row_steps ts' rows X = X) by apply IH.
    destruct (rows_touch k rows) eqn:Ht.
    + assert (P : obj_find k X <> None).
      { apply row_steps_present. rewrite obj_find_set_same. discriminate. }
      destruct (obj_find k X) as [entry |] eqn:F; [| contradiction].
      unfold row_step at 1. rewrite He. fold k. rewrite F. simpl.
      rewrite (row_steps_absorb ts' rows k (row_target r) Ht X entry F).
      exact HX.
    + destruct (row_steps_untouched ts rows k Ht (obj_set k v c)) as [U1 U2].
      fold X in U1, U2.
      unfold row_step at 1. rewrite He. fold k.
      rewrite U1, obj_find_set_same. simpl.
      unfold v at 1. rewrite row_value_settled. fold v.
      rewrite U2, obj_set_set. fold X. exact HX.
  - assert (E : forall ts0 c0, row_step ts0 r c0 = c0)
      by (intros; unfold row_step; rewrite He; reflexivity).
    rewrite !E. apply IH.
Qed.

End AllIngredientsLoop.

Section Query.

Lemma stoi_fits (z : Z) : stoi z = if fits_int z then Ok z else Throw out_of_range.
Proof. reflexivity. Qed.

Lemma convert_columns_fits (columns : db_row) :
  convert_columns columns
  = if row_fits_int columns then Ok columns else Throw out_of_range.
Proof.
  induction columns as [| [name stored] rest IH]; [reflexivity |].
  cbn [convert_columns row_fits_int forallb snd]. rewrite stoi_fits.
  destruct (fits_int stored); [| reflexivity].
  fold (row_fits_int rest). rewrite IH.
  destruct (row_fits_int rest); reflexivity.
Qed.

Lemma sqlite3_exec_fits (result : list db_row) :
  forall data,
    sqlite3_exec result callbackGetAllIngredients data
    = if rows_fit_int result then Ok (data ++ result)%list else Throw out_of_range.
Proof.
  induction result as [| columns rest IH]; intro data.
  - simpl. rewrite app_nil_r. reflexivity.
  - cbn [sqlite3_exec rows_fit_int forallb]. unfold callbackGetAllIngredients.
    rewrite convert_columns_fits.
    destruct (row_fits_int columns); [| reflexivity].
    fold (rows_fit_int rest). rewrite IH, <- app_assoc. reflexivity.
Qed.

(** The query of [MaxAllIngredients]: all rows of the join, or
    [std::out_of_range]. *)
Lemma query_all_ingredients (d : RefDb) :
  sqlite3_exec (select_all_ingredients d) callbackGetAllIngredients []
  = if rows_fit_int (select_all_ingredients d)
    then Ok (select_all_ingredients d) else Throw out_of_range.
Proof. apply sqlite3_exec_fits. Qed.

End Query.

Section AllIngredients.

Variable d : RefDb.

Lemma max_all_rows_pair (ts : string * string) (rows : list db_row) (c : object_t) :
  max_all_rows ts rows (JObject c)
  = (JObject (row_steps ts (rows_reached (key_rejects_fields c) rows) c),
     snd (max_all_rows ts rows (JObject c))).
Proof.
  rewrite (surjective_pairing (max_all_rows ts rows (JObject c))) at 1.
  f_equal. apply max_all_rows_on_object. reflexivity.
Qed.

(** The loop as [MaxAllIngredients] runs it: after the query. *)
Lemma query_then_rows (c : object_t) :
  match sqlite3_exec (select_all_ingredients d) callbackGetAllIngredients [] with
  | Throw e => (JObject c, Some e)
  | Ok all_db_ingredients =>
      max_all_rows (default_timestamps (JObject c)) all_db_ingredients (JObject c)
  end
  = (JObject (max_all_collection d c),
     if rows_fit_int (select_all_ingredients d)
     then snd (max_all_rows (default_timestamps (JObject c))
                 (select_all_ingredients d) (JObject c))
     else Some out_of_range).
Proof.
  rewrite query_all_ingredients. unfold max_all_collection.
  destruct (rows_fit_int (select_all_ingredients d)); [| reflexivity].
  apply max_all_rows_pair.
Qed.

(** What [MaxAllIngredients] does to a loaded document. *)
Lemma MaxAllIngredients_document (s : SaveGameManager) :
  m_isSaveFileLoaded s = true ->
  fst (MaxAllIngredients (Some d) s)
  = set_saveData s (max_all_document d (m_saveData s)).
Proof.
  intro L. unfold MaxAllIngredients. rewrite L. simpl.
  destruct (m_saveData s) as [| b | z | n | f | t | l | top] eqn:Hm;
    try reflexivity.
  - (* null: [operator[]] makes it an object *)
    simpl. unfold with_element. simpl.
    rewrite query_then_rows. reflexivity.
  - simpl.
    destruct (obj_find "Ingredients" top) as [sec |] eqn:F; simpl.
    + destruct (is_object sec) eqn:O; simpl.
      * destruct sec; try discriminate O.
        unfold with_element. simpl. rewrite F.
        rewrite query_then_rows. reflexivity.
      * unfold with_element. simpl. rewrite obj_find_set_same.
        rewrite query_then_rows. simpl. rewrite obj_set_set.
        destruct sec; try discriminate O; reflexivity.
    + unfold with_element. simpl. rewrite obj_find_set_same.
      rewrite query_then_rows. simpl. rewrite obj_set_set. reflexivity.
Qed.

Lemma max_all_collection_idempotent (ing : object_t) :
  max_all_collection d (max_all_collection d ing) = max_all_collection d ing.
Proof.
  unfold max_all_collection.
  destruct (rows_fit_int (select_all_ingredients d)); [| reflexivity].
  rewrite (rows_reached_ext
             (key_rejects_fields
                (row_steps (default_timestamps (JObject ing))
                   (rows_reached (key_rejects_fields ing)
                      (select_all_ingredients d)) ing))
             (key_rejects_fields ing))
    by (intro k; apply row_steps_rejection).
  apply row_steps_idempotent.
Qed.

Lemma max_all_document_idempotent (doc : json) :
  max_all_document d (max_all_document d doc) = max_all_document d doc.
Proof.
  destruct doc as [| b | z | n | f | t | l | top]; try reflexivity.
  - cbn [max_all_document ingredients_of].
    change (obj_find "Ingredients" [("Ingredients", JObject (max_all_collection d []))])
      with (Some (JObject (max_all_collection d []))).
    cbn iota. rewrite max_all_collection_idempotent. reflexivity.
  - cbn [max_all_document ingredients_of].
    rewrite obj_find_set_same, obj_set_set.
    rewrite max_all_collection_idempotent. reflexivity.
Qed.

End AllIngredients.

(** C6.  [MaxAllIngredients] is idempotent: for every state of the manager
    and every reference store (or none), the state after two runs in
    succession is the state after one run.  This covers a run that an
    exception leaves half-way: the second run stops at the same row without
    changing anything further. *)
Theorem MaxAllIngredients_idempotent (db : option RefDb) (s : SaveGameManager) :
  fst (MaxAllIngredients db (fst (MaxAllIngredients db s)))
  = fst (MaxAllIngredients db s).
Proof.
  destruct (m_isSaveFileLoaded s) eqn:L.
  - destruct db as [d |].
    + rewrite (MaxAllIngredients_document d s L).
      rewrite MaxAllIngredients_document by exact L.
      unfold set_saveData. simpl.
      rewrite max_all_document_idempotent. reflexivity.
    + unfold MaxAllIngredients. rewrite L. simpl. rewrite L. reflexivity.
  - unfold MaxAllIngredients. rewrite L. simpl. rewrite L. reflexivity.
Qed.

Section AllIngredientsEntries.

Lemma to_int_not_nil (z : Z) :
  Z.to_int z <> Decimal.Pos Decimal.Nil /\ Z.to_int z <> Decimal.Neg Decimal.Nil.
Proof.
  destruct z as [| p | p]; simpl; split; try discriminate;
    intro H; injection H as H; exact (DecimalPos.Unsigned.to_uint_nonnil p H).
Qed.

(** [std::to_string] gives different texts for different numbers. *)
Lemma to_string_inj (a b : Z) : to_string a = to_string b -> a = b.
Proof.
  unfold to_string. intro H.
  apply DecimalZ.to_int_inj.
  apply (f_equal NilZero.int_of_string) in H.
  destruct (to_int_not_nil a) as [A1 A2], (to_int_not_nil b) as [B1 B2].
  rewrite !NilZero.isi in H by assumption.
  injection H as H. exact H.
Qed.

Variable ts : string * string.

(** Where rows work on a key that is bound, the last of them decides the
    count and nothing else changes. *)
Lemma row_steps_on_bound_key (rows : list db_row) (k : string) :
  rows_touch k rows = true ->
  forall c entry,
    obj_find k c = Some entry ->
    exists r_last,
      In r_last rows /\ row_eligible r_last = true /\ row_key r_last = k /\
      obj_find k (row_steps ts rows c) = Some (raise_count (row_target r_last) entry).
Proof.
  induction rows as [| r rows IH]; cbn [rows_touch existsb];
    intros H c entry F; [discriminate |].
  rewrite row_steps_cons.
  destruct (row_eligible r && String.eqb (row_key r) k) eqn:Hr.
  - apply andb_true_iff in Hr as [He Hk]. apply String.eqb_eq in Hk.
    assert (F' : obj_find k (row_step ts r c) = Some (raise_count (row_target r) entry)).
    { unfold row_step. rewrite He, Hk, obj_find_set_same, F. reflexivity. }
    destruct (rows_touch k rows) eqn:Ht.
    + destruct (IH eq_refl _ _ F') as (rl & I & E & K & Q).
      exists rl. rewrite Q, raise_count_twice.
      repeat split; auto. right; exact I.
    + destruct (row_steps_untouched ts rows k Ht (row_step ts r c)) as [U _].
      exists r. rewrite U, F'. repeat split; auto. left; reflexivity.
  - simpl in H.
    assert (F' : obj_find k (row_step ts r c) = Some entry)
      by (rewrite row_step_find_other by exact Hr; exact F).
    destruct (IH H _ _ F') as (rl & I & E & K & Q).
    exists rl. repeat split; auto. right; exact I.
Qed.

(** Where rows work on a key that is not bound, the first of them makes the
    entry and the last decides its count. *)
Lemma row_steps_on_free_key (rows : list db_row) (k : string) :
  rows_touch k rows = true ->
  forall c,
    obj_find k c = None ->
    exists r_first r_last,
      In r_first rows /\ row_eligible r_first = true /\ row_key r_first = k /\
      In r_last rows /\ row_eligible r_last = true /\ row_key r_last = k /\
      obj_find k (row_steps ts rows c)
      = Some (raise_count (row_target r_last) (row_value ts r_first None)).
Proof.
  induction rows as [| r rows IH]; cbn [rows_touch existsb];
    intros H c F; [discriminate |].
  rewrite row_steps_cons.
  destruct (row_eligible r && String.eqb (row_key r) k) eqn:Hr.
  - apply andb_true_iff in Hr as [He Hk]. apply String.eqb_eq in Hk.
    assert (F' : obj_find k (row_step ts r c) = Some (row_value ts r None)).
    { unfold row_step. rewrite He, Hk, obj_find_set_same, F. reflexivity. }
    destruct (rows_touch k rows) eqn:Ht.
    + destruct (row_steps_on_bound_key rows k Ht _ _ F') as (rl & I & E & K & Q).
      exists r, rl. rewrite Q.
      repeat split; auto; [left; reflexivity | right; exact I].
    + destruct (row_steps_untouched ts rows k Ht (row_step ts r c)) as [U _].
      exists r, r. rewrite U, F', row_value_settled.
      repeat split; auto; left; reflexivity.
  - simpl in H.
    assert (F' : obj_find k (row_step ts r c) = None)
      by (rewrite row_step_find_other by exact Hr; exact F).
    destruct (IH H _ F') as (r1 & rl & I1 & E1 & K1 & Il & El & Kl & Q).
    exists r1, rl. repeat split; auto; right; assumption.
Qed.

Lemma rows_touch_intro (rows : list db_row) (r : db_row) :
  In r rows -> row_eligible r = true -> rows_touch (row_key r) rows = true.
Proof.
  intros I E. apply existsb_exists. exists r.
  split; [exact I |]. rewrite E, String.eqb_refl. reflexivity.
Qed.

Lemma rows_reached_all (b : string -> bool) (rows : list db_row) :
  (forall k, b k = false) -> rows_reached b rows = rows.
Proof.
  intro H. induction rows as [| r rows IH]; simpl; [reflexivity |].
  rewrite H, andb_false_r, IH. reflexivity.
Qed.

End AllIngredientsEntries.

Section AllIngredientsTheorems.

Lemma select_all_rows_shape (d : RefDb) (r : db_row) :
  In r (select_all_ingredients d) ->
  exists i t, r = joined_row i t /\ In i (Ingredients d) /\ In t (Items d)
              /\ i = ItemDataID t.
Proof.
  unfold select_all_ingredients. intro H.
  apply in_flat_map in H as (i & Hi & H).
  apply in_map_iff in H as (t & <- & H).
  apply filter_In in H as [Ht E].
  exists i, t. repeat split; auto. apply Z.eqb_eq, E.
Qed.

Lemma joined_row_eligible (i : Z) (t : ItemRow) :
  row_eligible (joined_row i t) = negb (row_target (joined_row i t) =? 0).
Proof. reflexivity. Qed.

Lemma new_entry_fields (ts : string * string) (i p t : Z) :
  new_ingredient_entry ts i p t
  = JObject [("branchCount", JInt 0); ("count", JInt t);
             ("ingredientsID", JInt i); ("isNew", JBool true);
             ("lastGainGameTime", JString (snd ts));
             ("lastGainTime", JString (fst ts));
             ("level", JInt 1); ("parentID", JInt p);
             ("placeTagMask", JInt 1)].
Proof. reflexivity. Qed.

End AllIngredientsTheorems.

Section AllIngredientsMore.

Lemma rows_meet_rejection_ext (c c' : object_t) (rows : list db_row) :
  (forall k, key_rejects_fields c' k = key_rejects_fields c k) ->
  rows_meet_rejection c' rows = rows_meet_rejection c rows.
Proof.
  intro E. unfold rows_meet_rejection.
  induction rows as [| r rows IH]; simpl; [reflexivity |].
  rewrite E, IH. reflexivity.
Qed.

(** The loop throws exactly when it meets an entry that refuses fields, and
    then with [type_error] 305. *)
Lemma max_all_rows_exception (ts : string * string) (rows : list db_row) :
  forall c,
    snd (max_all_rows ts rows (JObject c))
    = if rows_meet_rejection c rows then Some (type_error 305) else None.
Proof.
  induction rows as [| r rows IH]; intro c; [reflexivity |].
  cbn [max_all_rows]. rewrite max_all_row_on_object.
  unfold rows_meet_rejection. cbn [existsb]. fold (rows_meet_rejection c rows).
  unfold row_throws.
  destruct (row_eligible r && key_rejects_fields c (row_key r)); [reflexivity |].
  cbn [orb]. rewrite IH.
  rewrite (rows_meet_rejection_ext c (row_step ts r c) rows)
    by (intro k; apply row_step_rejection).
  reflexivity.
Qed.

Lemma rows_reached_without_rejection (c : object_t) (rows : list db_row) :
  rows_meet_rejection c rows = false ->
  rows_reached (key_rejects_fields c) rows = rows.
Proof.
  unfold rows_meet_rejection.
  induction rows as [| r rows IH]; simpl; intro H; [reflexivity |].
  apply orb_false_iff in H as [H1 H2]. rewrite H1, (IH H2). reflexivity.
Qed.

Lemma rows_reached_incl (b : string -> bool) (rows : list db_row) (r : db_row) :
  In r (rows_reached b rows) -> In r rows.
Proof.
  induction rows as [| r0 rows IH]; simpl; [auto |].
  destruct (row_eligible r0 && b (row_key r0)); simpl.
  - intros [H | []]; auto.
  - intros [H | H]; auto.
Qed.

Lemma rows_touch_elim (k : string) (rows : list db_row) :
  rows_touch k rows = true ->
  exists r, In r rows /\ row_eligible r = true /\ row_key r = k.
Proof.
  intro H. apply existsb_exists in H as (r & I & E).
  apply andb_true_iff in E as [E1 E2]. apply String.eqb_eq in E2.
  exists r. auto.
Qed.

Variable d : RefDb.

(** The whole result of [MaxAllIngredients] on a loaded document that is an
    object. *)
Lemma MaxAllIngredients_on_object (s : SaveGameManager) (top : object_t) :
  m_isSaveFileLoaded s = true ->
  m_saveData s = JObject top ->
  MaxAllIngredients (Some d) s
  = (set_saveData s
       (JObject (obj_set "Ingredients"
                   (JObject (max_all_collection d (ingredients_of (JObject top)))) top)),
     if rows_fit_int (select_all_ingredients d) then
       if rows_meet_rejection (ingredients_of (JObject top)) (select_all_ingredients d)
       then Some (type_error 305) else None
     else Some out_of_range).
Proof.
  intros L Hm.
  rewrite (surjective_pairing (MaxAllIngredients (Some d) s)).
  rewrite (MaxAllIngredients_document d s L), Hm.
  cbn [max_all_document]. f_equal.
  unfold MaxAllIngredients. rewrite L, Hm. cbn [negb].
  cbn [contains json_at ingredients_of].
  destruct (obj_find "Ingredients" top) as [sec |] eqn:F.
  - destruct (is_object sec) eqn:O; cbn [negb orb].
    + destruct sec; try discriminate O.
      rewrite (with_element_present _ _ _ _ F). cbn [snd].
      rewrite query_then_rows. cbn [snd].
      rewrite max_all_rows_exception. reflexivity.
    + unfold assign_key. cbn [json_assign].
      rewrite (with_element_present _ _ _ _ (obj_find_set_same _ _ _)). cbn [snd].
      rewrite query_then_rows. cbn [snd].
      rewrite max_all_rows_exception.
      destruct sec; try discriminate O; reflexivity.
  - cbn [negb orb]. unfold assign_key. cbn [json_assign].
    rewrite (with_element_present _ _ _ _ (obj_find_set_same _ _ _)). cbn [snd].
    rewrite query_then_rows. cbn [snd].
    rewrite max_all_rows_exception. reflexivity.
Qed.

Lemma select_all_eligible (r : db_row) :
  In r (select_all_ingredients d) ->
  row_eligible r = negb (row_target r =? 0).
Proof.
  intro H. destruct (select_all_rows_shape d r H) as (i & t & -> & _).
  apply joined_row_eligible.
Qed.

End AllIngredientsMore.




Lemma MaxOwnIngredients_changes_counts_only_witness :
  snd (MaxOwnIngredients (Some scenario_store) owned_ingredient_save) = None /\
  exists top' ing',
    m_saveData (fst (MaxOwnIngredients (Some scenario_store) owned_ingredient_save))
    = JObject top' /\
    obj_find "Ingredients" top' = Some (JObject ing') /\
    obj_keys ing' = ["5"].
Proof.
  destruct (MaxOwnIngredients_changes_counts_only
              (Some scenario_store) owned_ingredient_save
              [("Ingredients",
                JObject [("5", JObject [("count", JUInt 1);
                                        ("ingredientsID", JUInt 5)])])]
              [("5", JObject [("count", JUInt 1); ("ingredientsID", JUInt 5)])]
              eq_refl eq_refl eq_refl)
    as (Hx & _ & _ & top' & ing' & H1 & H2 & _ & H4 & _).
  split; [exact Hx |].
  exists top', ing'. repeat split; assumption.
Defined.

(* ================================================================= *)
(** ** MaxOwnStaffLevel *)

Section Staff.

(** On an entry that is an object with a string name the loop body does what
    the specification asks. *)
Lemma max_staff_entry_named (fields : object_t) (n : string) :
  obj_find "name" fields = Some (JString n) ->
  max_staff_entry (JObject fields) = (staff_entry_per_spec (JObject fields), None).
Proof.
  intro F. unfold max_staff_entry, staff_entry_per_spec. simpl. rewrite F. simpl.
  destruct (String.eqb n "Staff_Dave"); reflexivity.
Qed.

(** On an object without a name it inserts a null name and throws. *)
Lemma max_staff_entry_nameless (fields : object_t) :
  obj_find "name" fields = None ->
  max_staff_entry (JObject fields)
  = (JObject (obj_set "name" JNull fields), Some (type_error 302)).
Proof.
  intro F. unfold max_staff_entry. simpl. rewrite F. reflexivity.
Qed.

(** Where every entry is an object with a string name, the loop is the one
    the specification describes. *)
Lemma staff_loop_on_named_entries (staff : object_t) :
  Forall (fun b : string * json =>
            exists fields n,
              snd b = JObject fields /\ obj_find "name" fields = Some (JString n))
         staff ->
  for_each_value max_staff_entry staff = for_each_value staff_entry_skipping staff.
Proof.
  induction 1 as [| [k e] staff (fields & n & He & Hn) _ IH]; [reflexivity |].
  simpl in He. subst e. cbn [for_each_value].
  rewrite (max_staff_entry_named fields n Hn). unfold staff_entry_skipping at 1.
  rewrite IH. reflexivity.
Qed.

End Staff.

(** C9.  On the specification's scenario [MaxOwnStaffLevel] leaves Dave at
    level 1 and puts Bob at level 20.  On a collection whose second entry
    has no name it does not skip that entry: it puts the first entry at
    level 20, inserts a null name into the second, and leaves by
    [type_error] 302 with the third entry unvisited. *)
Theorem MaxOwnStaffLevel_aborts_on_nameless_entry :
  MaxOwnStaffLevel (staff_save staff_scenario)
  = (staff_save
       (JObject
          [("1", JObject [("level", JUInt 1); ("name", JString "Staff_Dave")]);
           ("2", JObject [("level", JInt 20); ("name", JString "Staff_Bob")])]),
     None) /\
  MaxOwnStaffLevel (staff_save staff_with_nameless_entry)
  = (staff_save
       (JObject
          [("1", JObject [("level", JInt 20); ("name", JString "Staff_Bob")]);
           ("2", JObject [("level", JUInt 1); ("name", JNull)]);
           ("3", JObject [("level", JUInt 1); ("name", JString "Staff_Cat")])]),
     Some (type_error 302)) /\
  fst (for_each_value staff_entry_skipping
         [("1", JObject [("level", JUInt 1); ("name", JString "Staff_Bob")]);
          ("2", JObject [("level", JUInt 1)]);
          ("3", JObject [("level", JUInt 1); ("name", JString "Staff_Cat")])])
  = [("1", JObject [("level", JInt 20); ("name", JString "Staff_Bob")]);
     ("2", JObject [("level", JUInt 1)]);
     ("3", JObject [("level", JInt 20); ("name", JString "Staff_Cat")])].
Proof.
  split; [reflexivity |]. split; reflexivity.
Qed.

(* ================================================================= *)
(** ** The time stamps of new entries *)

Section FirstEntry.

Lemma key_leb_refl (k : string) : String.leb k k = true.
Proof. unfold String.leb. rewrite key_compare_refl. reflexivity. Qed.

Lemma key_ltb_leb_trans (a b c : string) :
  String.ltb a b = true -> String.leb b c = true -> String.leb a c = true.
Proof.
  unfold String.ltb, String.leb.
  destruct (String.compare a b) eqn:Eab; try discriminate. intros _.
  destruct (String.compare b c) eqn:Ebc; try discriminate; intros _.
  - apply key_compare_eq in Ebc. subst c. rewrite Eab. reflexivity.
  - rewrite (key_lt_trans _ _ _ Eab Ebc). reflexivity.
Qed.

(** In a map whose keys ascend, the first key is the least. *)
Lemma first_key_is_least (m : object_t) :
  forall k0 e0,
    keys_ascending ((k0, e0) :: m) = true ->
    forall k, In k (obj_keys ((k0, e0) :: m)) -> String.leb k0 k = true.
Proof.
  induction m as [| [k1 e1] m IH]; intros k0 e0 A k [<- | H];
    try apply key_leb_refl; [destruct H |].
  cbn [keys_ascending] in A. apply andb_true_iff in A as [A1 A2].
  apply key_ltb_leb_trans with k1; [exact A1 |].
  apply (IH k1 e1 A2 k H).
Qed.

Lemma keys_above_first (m : object_t) :
  forall k0 e0,
    keys_ascending ((k0, e0) :: m) = true ->
    forall k, In k (obj_keys m) -> String.compare k0 k = Lt.
Proof.
  induction m as [| [k1 e1] m IH]; intros k0 e0 A k H; [destruct H |].
  cbn [keys_ascending] in A. apply andb_true_iff in A as [A1 A2].
  assert (L : String.compare k0 k1 = Lt).
  { unfold String.ltb in A1. destruct (String.compare k0 k1); congruence. }
  destruct H as [<- | H]; [exact L |].
  apply key_lt_trans with k1; [exact L | exact (IH k1 e1 A2 k H)].
Qed.

Lemma obj_find_key (k : string) (v : json) (m : object_t) :
  obj_find k m = Some v -> In k (obj_keys m).
Proof.
  induction m as [| [k' v'] m IH]; simpl; [discriminate |].
  destruct (String.eqb_spec k k') as [-> | N]; auto.
Qed.

(** In a map whose keys ascend, storing under a key the value it has
    changes nothing: this is what a reference into the map, written
    through or not, leaves behind. *)
Lemma obj_set_same_value (k : string) (v : json) (m : object_t) :
  keys_ascending m = true -> obj_find k m = Some v -> obj_set k v m = m.
Proof.
  induction m as [| [k' v'] m IH]; intros A F; [discriminate |].
  cbn [obj_find] in F. cbn [obj_set].
  destruct (String.eqb_spec k k') as [-> | N].
  - injection F as ->. rewrite key_compare_refl. reflexivity.
  - pose proof (keys_above_first m k' v' A k (obj_find_key _ _ _ F)) as L.
    apply key_gt_lt in L. rewrite L. f_equal.
    apply IH; [| exact F].
    destruct m as [| [k2 v2] m]; [reflexivity |].
    cbn [keys_ascending] in A. apply andb_true_iff in A as [_ A]. exact A.
Qed.

(** The time stamps are the two strings of the first binding's value, each
    replaced by its literal where the value has no such string. *)
Lemma default_timestamps_first (k0 : string) (e0 : json) (m : object_t) :
  default_timestamps (JObject ((k0, e0) :: m))
  = (string_field_or "04/01/2025 12:34:56" e0 "lastGainTime",
     string_field_or "10/03/2022 08:30:52" e0 "lastGainGameTime").
Proof.
  unfold default_timestamps. cbn [json_empty negb begin_value].
  destruct e0 as [| b | z | n | f | t | l | fields]; try reflexivity.
  unfold string_field_or. cbn [contains json_at].
  destruct (obj_find "lastGainTime" fields) as [[| | | | | | |] |];
    destruct (obj_find "lastGainGameTime" fields) as [[| | | | | | |] |];
    reflexivity.
Qed.

(** Every entry under a key that the run has bound carries the time stamps
    the run was started with. *)
Lemma new_keys_carry_timestamps (ts : string * string) (rows : list db_row)
  (c : object_t) (k : string) (e' : json) :
  obj_find k c = None ->
  obj_find k (row_steps ts rows c) = Some e' ->
  json_at e' "lastGainTime" = JString (fst ts) /\
  json_at e' "lastGainGameTime" = JString (snd ts).
Proof.
  intros F F'.
  destruct (rows_touch k rows) eqn:Ht.
  - destruct (row_steps_on_free_key ts rows k Ht c F)
      as (r1 & rl & _ & _ & _ & _ & _ & _ & Q).
    rewrite Q in F'. injection F' as <-. split; reflexivity.
  - destruct (row_steps_untouched ts rows k Ht c) as [U _].
    rewrite U, F in F'. discriminate.
Qed.

Lemma keys_ascending_tail (b : string * json) (m : object_t) :
  keys_ascending (b :: m) = true -> keys_ascending m = true.
Proof.
  destruct b as [k v], m as [| [k2 v2] m]; [reflexivity |].
  cbn [keys_ascending]. intro A. apply andb_true_iff in A as [_ A]. exact A.
Qed.

Lemma first_key_not_again (k0 : string) (e0 : json) (m : object_t) :
  keys_ascending ((k0, e0) :: m) = true -> obj_find k0 m = None.
Proof.
  intro A. destruct (obj_find k0 m) as [v |] eqn:F; [| reflexivity].
  pose proof (keys_above_first m k0 e0 A k0 (obj_find_key _ _ _ F)) as L.
  rewrite key_compare_refl in L. discriminate.
Qed.

(** A map is its bindings: two association lists with ascending keys that
    bind the same keys to the same values are the same list, whatever the
    order in which their entries were inserted. *)
Lemma keys_ascending_ext (m1 : object_t) :
  forall m2,
    keys_ascending m1 = true -> keys_ascending m2 = true ->
    (forall k, obj_find k m1 = obj_find k m2) -> m1 = m2.
Proof.
  induction m1 as [| [k1 v1] r1 IH]; intros [| [k2 v2] r2] A1 A2 E.
  - reflexivity.
  - specialize (E k2). simpl in E. rewrite String.eqb_refl in E. discriminate.
  - specialize (E k1). simpl in E. rewrite String.eqb_refl in E. discriminate.
  - assert (K : k1 = k2).
    { destruct (String.eqb_spec k1 k2) as [-> | N]; [reflexivity | exfalso].
      pose proof (E k1) as E1. pose proof (E k2) as E2.
      cbn [obj_find] in E1, E2. rewrite String.eqb_refl in E1, E2.
      destruct (String.eqb_spec k1 k2) as [-> | _]; [contradiction |].
      destruct (String.eqb_spec k2 k1) as [-> | _]; [contradiction |].
      symmetry in E1.
      pose proof (keys_above_first r2 k2 v2 A2 k1 (obj_find_key _ _ _ E1)) as L1.
      pose proof (keys_above_first r1 k1 v1 A1 k2 (obj_find_key _ _ _ E2)) as L2.
      pose proof (key_lt_trans _ _ _ L1 L2) as L.
      rewrite key_compare_refl in L. discriminate. }
    subst k2.
    pose proof (E k1) as E1. cbn [obj_find] in E1.
    rewrite String.eqb_refl in E1. injection E1 as <-.
    f_equal. apply IH.
    + exact (keys_ascending_tail _ _ A1).
    + exact (keys_ascending_tail _ _ A2).
    + intro k. destruct (String.eqb_spec k k1) as [-> | N].
      * rewrite (first_key_not_again _ _ _ A1), (first_key_not_again _ _ _ A2).
        reflexivity.
      * specialize (E k). cbn [obj_find] in E.
        destruct (String.eqb_spec k k1); [contradiction | exact E].
Qed.

End FirstEntry.

(** C10.  Where the collection is not empty, the time stamps
    [MaxAllIngredients] gives to the entries it adds are read from
    [begin().value()], and in a map, whose keys ascend, that is the entry
    under the least key.  The stamps are that entry's [lastGainTime] and
    [lastGainGameTime] where it holds them as strings, and the literal of the
    source for a field it does not hold so; no other entry has a part in
    them, and every entry under a key the run has added carries them.  The
    choice does not depend on how the collection came about: two collections
    with the same bindings are the same map and give the same run. *)
Theorem MaxAllIngredients_timestamps_from_least_key :
  (forall (d : RefDb) (s : SaveGameManager) (top ing : object_t),
     m_isSaveFileLoaded s = true ->
     m_saveData s = JObject top ->
     obj_find "Ingredients" top = Some (JObject ing) ->
     ing <> [] ->
     keys_ascending ing = true ->
     exists k0 e0,
       obj_find k0 ing = Some e0 /\
       begin_value (JObject ing) = e0 /\
       (forall k, In k (obj_keys ing) -> String.leb k0 k = true) /\
       default_timestamps (JObject ing)
       = (string_field_or "04/01/2025 12:34:56" e0 "lastGainTime",
          string_field_or "10/03/2022 08:30:52" e0 "lastGainGameTime") /\
       (forall t, json_at e0 "lastGainTime" = JString t ->
                  fst (default_timestamps (JObject ing)) = t) /\
       (forall t, json_at e0 "lastGainGameTime" = JString t ->
                  snd (default_timestamps (JObject ing)) = t) /\
       (is_string (json_at e0 "lastGainTime") = false ->
        fst (default_timestamps (JObject ing)) = "04/01/2025 12:34:56") /\
       (is_string (json_at e0 "lastGainGameTime") = false ->
        snd (default_timestamps (JObject ing)) = "10/03/2022 08:30:52") /\
       exists top' ing',
         m_saveData (fst (MaxAllIngredients (Some d) s)) = JObject top' /\
         obj_find "Ingredients" top' = Some (JObject ing') /\
         forall k e',
           obj_find k ing = None -> obj_find k ing' = Some e' ->
           json_at e' "lastGainTime"
           = JString (string_field_or "04/01/2025 12:34:56" e0 "lastGainTime") /\
           json_at e' "lastGainGameTime"
           = JString (string_field_or "10/03/2022 08:30:52" e0 "lastGainGameTime")) /\
  (forall (db : option RefDb) (s : SaveGameManager) (top ing1 ing2 : object_t),
     keys_ascending ing1 = true ->
     keys_ascending ing2 = true ->
     (forall k, obj_find k ing1 = obj_find k ing2) ->
     MaxAllIngredients db
       (set_saveData s (JObject (obj_set "Ingredients" (JObject ing1) top)))
     = MaxAllIngredients db
         (set_saveData s (JObject (obj_set "Ingredients" (JObject ing2) top)))).
Proof.
  split.
  2:{ intros db s top ing1 ing2 A1 A2 E.
      rewrite (keys_ascending_ext ing1 ing2 A1 A2 E). reflexivity. }
  intros d s top ing L Hm Hi Hne Asc.
  destruct ing as [| [k0 e0] m]; [contradiction |].
  exists k0, e0.
  split; [simpl; rewrite String.eqb_refl; reflexivity |].
  split; [reflexivity |].
  split; [apply (first_key_is_least m k0 e0 Asc) |].
  pose proof (default_timestamps_first k0 e0 m) as Ts.
  split; [exact Ts |].
  assert (Field : forall fallback field,
            (forall t, json_at e0 field = JString t ->
                       string_field_or fallback e0 field = t) /\
            (is_string (json_at e0 field) = false ->
             string_field_or fallback e0 field = fallback)).
  { intros fallback field. unfold string_field_or, json_at.
    destruct e0 as [| b | z | n | f | t0 | l | fields];
      try (split; [intros t H; discriminate H | reflexivity]).
    destruct (obj_find field fields) as [[| | | | | | |] |];
      split; try (intros t H; discriminate H); try reflexivity;
      try (intro H; discriminate H).
    intros t H. injection H as ->. reflexivity. }
  rewrite Ts. cbn [fst snd].
  split; [apply Field |]. split; [apply Field |].
  split; [apply Field |]. split; [apply Field |].
  exists (obj_set "Ingredients"
            (JObject (max_all_collection d ((k0, e0) :: m))) top),
         (max_all_collection d ((k0, e0) :: m)).
  split.
  { rewrite (MaxAllIngredients_document d s L). simpl.
    rewrite Hm. cbn [max_all_document ingredients_of]. rewrite Hi. reflexivity. }
  split; [apply obj_find_set_same |].
  intros k e' F F'.
  unfold max_all_collection in F'.
  destruct (rows_fit_int (select_all_ingredients d));
    [| rewrite F in F'; discriminate F'].
  rewrite Ts in F'.
  exact (new_keys_carry_timestamps _ _ _ k e' F F').
Qed.

Lemma MaxAllIngredients_timestamps_witness :
  exists e',
    obj_find "5"
      (ingredients_of
         (m_saveData (fst (MaxAllIngredients (Some scenario_store) stamped_save))))
    = Some e' /\
    json_at e' "lastGainTime" = JString "01/02/2024 10:00:00" /\
    json_at e' "lastGainGameTime" = JString "10/03/2022 08:30:52".
Proof.
  destruct (proj1 MaxAllIngredients_timestamps_from_least_key
              scenario_store stamped_save
              [("Ingredients", stamped_collection)]
              [("3", JObject [("count", JUInt 1); ("ingredientsID", JUInt 3);
                              ("lastGainTime", JString "01/02/2024 10:00:00")]);
               ("7", JObject [("count", JUInt 1); ("ingredientsID", JUInt 7);
                              ("lastGainGameTime", JString "08/08/2023 08:08:08");
                              ("lastGainTime", JString "09/09/2024 09:09:09")])]
              eq_refl eq_refl eq_refl ltac:(discriminate) eq_refl)
    as (k0 & e0 & _ & _ & _ & Ts & _ & _ & _ & _ & top' & ing' & Hd & Hs & Hnew).
  match type of Ts with
  | ?stamps = _ =>
      change stamps with ("01/02/2024 10:00:00", "10/03/2022 08:30:52") in Ts
  end.
  injection Ts as T1 T2.
  rewrite <- T1, <- T2 in Hnew.
  match type of Hd with
  | ?doc = _ => let v := eval vm_compute in doc in change doc with v in Hd
  end.
  injection Hd as <-.
  match type of Hs with
  | ?sec = _ => let v := eval vm_compute in sec in change sec with v in Hs
  end.
  injection Hs as <-.
  eexists. split; [vm_compute; reflexivity |].
  apply (Hnew "5"); vm_compute; reflexivity.
Defined.

(* ================================================================= *)
(** * Further properties of the code *)

(** ** The codec with any key *)

(** X1.  With any key that is not empty, [XORDecryptEncrypt] returns for
    every input, its output has the length of the input, applying it again
    with the same key gives the input back, and two different inputs never
    give the same output. *)
Theorem XORDecryptEncrypt_any_key (key : string) :
  key <> EmptyString ->
  (forall data, exists out,
      Codec.XORDecryptEncrypt data key = Some out /\
      String.length out = String.length data /\
      Codec.XORDecryptEncrypt out key = Some data) /\
  (forall d1 d2,
      Codec.XORDecryptEncrypt d1 key = Codec.XORDecryptEncrypt d2 key -> d1 = d2).
Proof.
  intro K. unfold Codec.XORDecryptEncrypt. split.
  - intro data.
    destruct (CodecFacts.xor_from_total key K data 0%nat) as [out H].
    exists out. split; [exact H |]. split.
    + exact (CodecFacts.xor_from_length key K data 0%nat out H).
    + exact (CodecFacts.xor_from_involutive key K data 0%nat out H).
  - intros d1 d2 E.
    destruct (CodecFacts.xor_from_total key K d1 0%nat) as [o1 H1].
    pose proof (CodecFacts.xor_from_involutive key K d1 0%nat o1 H1) as B1.
    rewrite E in H1.
    pose proof (CodecFacts.xor_from_involutive key K d2 0%nat o1 H1) as B2.
    congruence.
Qed.

Lemma XORDecryptEncrypt_any_key_witness :
  exists out,
    Codec.XORDecryptEncrypt "abc" "k" = Some out /\
    String.length out = 3%nat /\
    Codec.XORDecryptEncrypt out "k" = Some "abc".
Proof.
  exact (proj1 (XORDecryptEncrypt_any_key "k" ltac:(discriminate)) "abc").
Defined.

(** ** The tier classifier *)

(** X2.  The target the classifier gives is between 0 and 6666, is above 0
    exactly for the capacities 99, 999 and those from 9999 on, and for a
    capacity of at least 1 stays below the capacity. *)
Theorem tier_target_bounds (c : Z) :
  0 <= GetDesiredMaxCountForTier c <= 6666 /\
  (0 < GetDesiredMaxCountForTier c <-> c = 99 \/ c = 999 \/ 9999 <= c) /\
  (1 <= c -> GetDesiredMaxCountForTier c < c).
Proof.
  unfold GetDesiredMaxCountForTier.
  destruct (Z.eqb_spec c 1); [lia |].
  destruct (Z.eqb_spec c 99); [lia |].
  destruct (Z.eqb_spec c 999); [lia |].
  destruct (Z.geb_spec c 9999); lia.
Qed.

(** ** Setters beside each other *)

Section SettersTogether.

(** A setter changes neither the loaded flag nor which sections are maps. *)
Lemma section_usable_after_write (section field : string) (v : Z)
  (s : SaveGameManager) (other : string) :
  section_usable (fst (write_number section field v s)) other
  = section_usable s other.
Proof.
  destruct (section_usable s section) eqn:U.
  - destruct (section_usable_inv _ _ U) as [L (m & p & Hm & Hp)].
    rewrite (write_number_usable _ _ _ _ _ _ L Hm Hp).
    unfold section_usable, contains, json_at. simpl. rewrite L, Hm.
    destruct (String.eqb_spec other section) as [-> | N].
    + rewrite obj_find_set_same, Hp. reflexivity.
    + rewrite obj_find_set_other by exact N. reflexivity.
  - rewrite (write_number_unusable _ _ _ s U). reflexivity.
Qed.

(** What a getter reads elsewhere is what it read before. *)
Lemma read_number_after_other_write (section field section' field' : string)
  (v : Z) (s : SaveGameManager) :
  (section, field) <> (section', field') ->
  read_number section' field' (fst (write_number section field v s))
  = read_number section' field' s.
Proof.
  intro N. unfold read_number. rewrite section_usable_after_write.
  destruct (section_usable s section) eqn:U;
    [| rewrite (write_number_unusable _ _ _ s U); reflexivity].
  destruct (section_usable_inv _ _ U) as [L (m & p & Hm & Hp)].
  rewrite (write_number_usable _ _ _ _ _ _ L Hm Hp).
  unfold contains, json_at. simpl. rewrite Hm.
  destruct (String.eqb_spec section' section) as [-> | Ns].
  - rewrite obj_find_set_same, Hp.
    assert (Nf : field' <> field) by congruence.
    rewrite obj_find_set_other by exact Nf. reflexivity.
  - rewrite obj_find_set_other by exact Ns. reflexivity.
Qed.

(** Two writes to different places can be done in either order. *)
Lemma write_number_comm (sec1 fld1 sec2 fld2 : string) (a b : Z) (s : SaveGameManager) :
  (sec1, fld1) <> (sec2, fld2) ->
  fst (write_number sec1 fld1 a (fst (write_number sec2 fld2 b s)))
  = fst (write_number sec2 fld2 b (fst (write_number sec1 fld1 a s))).
Proof.
  intro N.
  destruct (section_usable s sec1) eqn:U1, (section_usable s sec2) eqn:U2.
  - destruct (section_usable_inv _ _ U1) as [L (m & p1 & Hm & Hp1)].
    destruct (section_usable_inv _ _ U2) as [_ (m' & p2 & Hm' & Hp2)].
    rewrite Hm in Hm'. injection Hm' as <-.
    rewrite (write_number_usable _ _ _ _ _ _ L Hm Hp1).
    rewrite (write_number_usable _ _ _ _ _ _ L Hm Hp2). simpl.
    destruct (String.eqb_spec sec1 sec2) as [E | Ns].
    + subst sec2. rewrite Hp1 in Hp2. injection Hp2 as <-.
      assert (Nf : fld1 <> fld2) by congruence.
      erewrite write_number_usable;
        [| exact L | reflexivity | apply obj_find_set_same].
      erewrite write_number_usable;
        [| exact L | reflexivity | apply obj_find_set_same].
      simpl. rewrite !obj_set_set, (obj_set_comm fld1 fld2) by exact Nf.
      reflexivity.
    + erewrite write_number_usable;
        [| exact L | reflexivity
         | rewrite obj_find_set_other by exact Ns; exact Hp1].
      erewrite write_number_usable;
        [| exact L | reflexivity
         | rewrite obj_find_set_other by congruence; exact Hp2].
      simpl. rewrite (obj_set_comm sec1 sec2) by exact Ns. reflexivity.
  - rewrite (write_number_unusable _ _ _ s U2). simpl.
    rewrite (write_number_unusable sec2 fld2 b (fst (write_number sec1 fld1 a s)))
      by (rewrite section_usable_after_write; exact U2).
    reflexivity.
  - rewrite (write_number_unusable _ _ _ s U1). simpl.
    rewrite (write_number_unusable sec1 fld1 a (fst (write_number sec2 fld2 b s)))
      by (rewrite section_usable_after_write; exact U1).
    reflexivity.
  - rewrite (write_number_unusable _ _ _ s U1), (write_number_unusable _ _ _ s U2).
    simpl. rewrite (write_number_unusable _ _ _ s U1), (write_number_unusable _ _ _ s U2).
    reflexivity.
Qed.

(** A second write to the same place replaces the first. *)
Lemma write_number_overwrite (section field : string) (a b : Z) (s : SaveGameManager) :
  fst (write_number section field a (fst (write_number section field b s)))
  = fst (write_number section field a s).
Proof.
  destruct (section_usable s section) eqn:U.
  - destruct (section_usable_inv _ _ U) as [L (m & p & Hm & Hp)].
    rewrite (write_number_usable section field a s m p L Hm Hp).
    rewrite (write_number_usable section field b s m p L Hm Hp). simpl.
    erewrite write_number_usable;
      [| exact L | reflexivity | apply obj_find_set_same].
    simpl. rewrite !obj_set_set. reflexivity.
  - rewrite (write_number_unusable section field b s U). simpl. reflexivity.
Qed.

End SettersTogether.

(** X3.  A setter changes only its own field: every getter of another field
    returns after the call what it returned before, whatever the state. *)
Theorem setter_leaves_other_getters
  (s : SaveGameManager) (v : Z)
  (set : Z -> SaveGameManager -> SaveGameManager * option exn)
  (get : SaveGameManager -> outcome Z)
  (section field section' field' : string) :
  In (set, (section, field)) typed_setters ->
  In (get, (section', field')) typed_getters ->
  (section, field) <> (section', field') ->
  get (fst (set v s)) = get s.
Proof.
  intros Hs Hg N.
  destruct (typed_setters_write _ _ _ Hs) as [clamp Hset].
  rewrite Hset, !(typed_getters_read _ _ _ Hg).
  apply read_number_after_other_write, N.
Qed.

Lemma setter_leaves_other_getters_witness :
  GetFollowerCount (fst (SetGold 5 small_save)) = GetFollowerCount small_save.
Proof.
  apply (setter_leaves_other_getters small_save 5 SetGold GetFollowerCount
           "PlayerInfo" "m_Gold" "SNSInfo" "m_Follow_Count").
  - simpl; auto.
  - simpl; auto 6.
  - discriminate.
Defined.

(** X4.  Setters of different fields commute, and of two calls of one setter
    the later decides: in every state, the manager after [set1 a] then
    [set2 b] is the manager after [set2 b] then [set1 a], and the manager
    after [set1 b] then [set1 a] is the manager after [set1 a] alone. *)
Theorem setters_commute_and_overwrite
  (s : SaveGameManager) (a b : Z)
  (set1 set2 : Z -> SaveGameManager -> SaveGameManager * option exn)
  (sec1 fld1 sec2 fld2 : string) :
  In (set1, (sec1, fld1)) typed_setters ->
  In (set2, (sec2, fld2)) typed_setters ->
  ((sec1, fld1) <> (sec2, fld2) ->
   fst (set1 a (fst (set2 b s))) = fst (set2 b (fst (set1 a s)))) /\
  fst (set1 a (fst (set1 b s))) = fst (set1 a s).
Proof.
  intros H1 H2.
  destruct (typed_setters_write _ _ _ H1) as [c1 E1].
  destruct (typed_setters_write _ _ _ H2) as [c2 E2].
  rewrite !E1, !E2. split.
  - intro N. apply write_number_comm, N.
  - apply write_number_overwrite.
Qed.

Lemma setters_commute_witness :
  fst (SetGold 5 (fst (SetBei 7 small_save)))
  = fst (SetBei 7 (fst (SetGold 5 small_save))).
Proof.
  apply (proj1 (setters_commute_and_overwrite small_save 5 7 SetGold SetBei
                  "PlayerInfo" "m_Gold" "PlayerInfo" "m_Bei"
                  ltac:(simpl; auto) ltac:(simpl; auto))).
  discriminate.
Defined.

(** ** The own-items loops *)

Section OwnLoops.

Variable lookup : Z -> option Z.
Variables id_field count_field : string.

(** One turn never throws, and leaves the entry or raises the counted
    field. *)
Lemma max_own_entry_effect_any (entry : json) :
  snd (max_own_entry lookup id_field count_field entry) = None /\
  field_raised_or_same lookup id_field count_field entry
    (fst (max_own_entry lookup id_field count_field entry)).
Proof.
  unfold max_own_entry.
  destruct (contains entry id_field) eqn:C; simpl;
    [| split; [reflexivity | left; reflexivity]].
  destruct entry as [| | | | | | | fields]; try discriminate C.
  simpl in C |- *.
  destruct (obj_find id_field fields) as [idv |] eqn:F; [| discriminate C].
  destruct (is_number_integer idv) eqn:I; simpl;
    [| split; [reflexivity | left; reflexivity]].
  destruct (get_int_of_integer _ I) as [id G]. rewrite G.
  destruct (lookup id) as [max_count |] eqn:Q;
    [| split; [reflexivity | left; reflexivity]].
  destruct (Z.gtb_spec (GetDesiredMaxCountForTier (sqlite3_column_int max_count)) 0)
    as [T | T];
    [| split; [reflexivity | left; reflexivity]].
  split; [reflexivity |].
  right. exists fields, idv, id, max_count.
  split; [reflexivity |]. split; [exact F |]. split; [exact I |].
  split; [exact G |]. split; [exact Q |]. split; [lia | reflexivity].
Qed.

Lemma field_raised_keeps_other_fields (k : string) (e e' : json) :
  field_raised_or_same lookup id_field count_field e e' ->
  same_but_field count_field (k, e) (k, e').
Proof.
  intros [-> | (fields & idv & id & mc & -> & _ & _ & _ & _ & _ & ->)];
    split; try reflexivity; intros field N; simpl.
  - split; reflexivity.
  - rewrite obj_find_set_other by exact N. split; reflexivity.
Qed.

Hypothesis fields_differ : id_field <> count_field.

(** A second turn on the same entry finds nothing left to do. *)
Lemma max_own_entry_settles : settles (max_own_entry lookup id_field count_field).
Proof.
  intro entry.
  destruct (max_own_entry_effect_any entry) as [Hx Hr].
  rewrite Hx.
  destruct Hr as [E | (fields & idv & id & mc & -> & F & I & G & Q & T & ->)].
  - rewrite E.
    rewrite (surjective_pairing (max_own_entry lookup id_field count_field entry)).
    rewrite Hx, E. reflexivity.
  - unfold max_own_entry at 1. simpl.
    rewrite obj_find_set_other by exact fields_differ.
    rewrite F, I. simpl. rewrite G, Q.
    cbv zeta in T.
    destruct (Z.gtb_spec (GetDesiredMaxCountForTier (sqlite3_column_int mc)) 0)
      as [_ | T']; [| lia].
    unfold assign_key. simpl. rewrite obj_set_set. reflexivity.
Qed.

Lemma max_own_entry_keeps_scalars :
  keeps_scalars (max_own_entry lookup id_field count_field).
Proof.
  intros e S. destruct e; try discriminate S; reflexivity.
Qed.

End OwnLoops.

Section SettledLoops.

Variable f : mutation.
Hypothesis f_settles : settles f.

Lemma for_each_value_settles (m : object_t) :
  for_each_value f (fst (for_each_value f m))
  = (fst (for_each_value f m), snd (for_each_value f m)).
Proof.
  induction m as [| [k v] m IH]; [reflexivity |].
  cbn [for_each_value].
  pose proof (f_settles v) as Hv.
  destruct (f v) as [v' x] eqn:Ev. simpl in Hv.
  destruct x as [e |].
  - simpl. rewrite Hv. reflexivity.
  - destruct (for_each_value f m) as [m' x'] eqn:Em. simpl in IH |- *.
    rewrite Hv, IH. reflexivity.
Qed.

Lemma for_each_element_settles (l : list json) :
  for_each_element f (fst (for_each_element f l))
  = (fst (for_each_element f l), snd (for_each_element f l)).
Proof.
  induction l as [| v l IH]; [reflexivity |].
  cbn [for_each_element].
  pose proof (f_settles v) as Hv.
  destruct (f v) as [v' x] eqn:Ev. simpl in Hv.
  destruct x as [e |].
  - simpl. rewrite Hv. reflexivity.
  - destruct (for_each_element f l) as [l' x'] eqn:El. simpl in IH |- *.
    rewrite Hv, IH. reflexivity.
Qed.

Hypothesis f_keeps_scalars : keeps_scalars f.

Lemma json_for_each_settles : settles (json_for_each f).
Proof.
  intro j. destruct (is_scalar j) eqn:S.
  - assert (E : json_for_each f j = f j)
      by (destruct j; try discriminate S; reflexivity).
    rewrite E, (f_keeps_scalars j S), E.
    rewrite (surjective_pairing (f j)) at 1.
    rewrite (f_keeps_scalars j S). reflexivity.
  - destruct j as [| b | z | n | r | t | l | m]; try discriminate S.
    + reflexivity.
    + unfold json_for_each.
      pose proof (for_each_element_settles l) as H.
      destruct (for_each_element f l) as [l' x]. simpl in H |- *.
      rewrite H. reflexivity.
    + unfold json_for_each.
      pose proof (for_each_value_settles m) as H.
      destruct (for_each_value f m) as [m' x]. simpl in H |- *.
      rewrite H. reflexivity.
Qed.

End SettledLoops.

Section SectionLoops.

Lemma with_element_settles (k : string) (g : mutation) (top : object_t) (elem : json) :
  settles g ->
  obj_find k top = Some elem ->
  with_element k g (fst (with_element k g (JObject top)))
  = (fst (with_element k g (JObject top)), snd (with_element k g (JObject top))).
Proof.
  intros S F.
  rewrite (with_element_present k g top elem F). simpl.
  rewrite (with_element_present k g _ (fst (g elem)) (obj_find_set_same _ _ _)).
  rewrite (S elem). simpl. rewrite obj_set_set. reflexivity.
Qed.

Lemma json_for_each_object (f : mutation) (m : object_t) :
  json_for_each f (JObject m)
  = (JObject (fst (for_each_value f m)), snd (for_each_value f m)).
Proof.
  unfold json_for_each. destruct (for_each_value f m). reflexivity.
Qed.

(** An own-items loop over a section that is a map. *)
Lemma own_loop_effect (lookup : Z -> option Z) (section id_field count_field : string)
  (top items : object_t) :
  obj_find section top = Some (JObject items) ->
  exists items',
    with_element section
      (json_for_each (max_own_entry lookup id_field count_field)) (JObject top)
    = (JObject (obj_set section (JObject items') top), None) /\
    Forall2 (fun b b' =>
               fst b' = fst b /\
               field_raised_or_same lookup id_field count_field (snd b) (snd b'))
            items items'.
Proof.
  intro F.
  rewrite (with_element_present _ _ _ _ F), json_for_each_object. simpl.
  destruct (for_each_value_effect
              (max_own_entry lookup id_field count_field)
              (field_raised_or_same lookup id_field count_field)
              (max_own_entry_effect_any lookup id_field count_field) items)
    as [Hx Hr].
  exists (fst (for_each_value (max_own_entry lookup id_field count_field) items)).
  rewrite Hx. split; [reflexivity | exact Hr].
Qed.

(** Run twice, an own-items loop does what it does run once. *)
Lemma own_loop_twice (lookup : Z -> option Z) (section id_field count_field : string)
  (s : SaveGameManager) :
  id_field <> count_field ->
  let run := fun s0 : SaveGameManager =>
    if negb (section_usable s0 section) then (s0, None)
    else
      let (doc, x) :=
        with_element section
          (json_for_each (max_own_entry lookup id_field count_field))
          (m_saveData s0) in
      (set_saveData s0 doc, x) in
  run (fst (run s)) = run s.
Proof.
  intros N run. unfold run.
  destruct (section_usable s section) eqn:U; simpl;
    [| rewrite U; reflexivity].
  destruct (section_usable_inv _ _ U) as [L (m & p & Hm & Hp)].
  set (g := json_for_each (max_own_entry lookup id_field count_field)).
  assert (Sg : settles g).
  { apply json_for_each_settles;
      [apply max_own_entry_settles, N | apply max_own_entry_keeps_scalars]. }
  pose proof (with_element_settles section g m (JObject p) Sg Hp) as W.
  rewrite Hm.
  rewrite (with_element_present section g m (JObject p) Hp) in W |- *.
  assert (Hg : g (JObject p)
               = (JObject (fst (for_each_value
                                  (max_own_entry lookup id_field count_field) p)),
                  snd (for_each_value
                         (max_own_entry lookup id_field count_field) p)))
    by apply json_for_each_object.
  rewrite Hg in W |- *. cbn [fst snd] in W |- *.
  set (p' := fst (for_each_value (max_own_entry lookup id_field count_field) p))
    in W |- *.
  assert (U' : section_usable
                 (set_saveData s (JObject (obj_set section (JObject p') m)))
                 section = true).
  { eapply section_usable_intro; [exact L | reflexivity |].
    apply obj_find_set_same. }
  rewrite U'. cbn [negb m_saveData set_saveData]. rewrite W. reflexivity.
Qed.

End SectionLoops.

(** X5.  On a loaded document whose [InventoryItemSlot] section is a map,
    [MaxOwnMaterials] does not throw and keeps the section a map with the
    same keys in the same order; every slot is left as it was or is an object
    whose [itemID] the [Items] table maps, by its [TID] column, to a capacity
    with a target above 0 and whose [totalCount] is set to that target; every
    other field of every slot, every other section, the path and the loaded
    flag are unchanged.  The capacity is the stored column as
    [sqlite3_column_int] returns it, its low 32 bits. *)
Theorem MaxOwnMaterials_changes_totalCount_only
  (db : option RefDb) (s : SaveGameManager) (top slots : object_t) :
  m_isSaveFileLoaded s = true ->
  m_saveData s = JObject top ->
  obj_find "InventoryItemSlot" top = Some (JObject slots) ->
  let s' := fst (MaxOwnMaterials db s) in
  let lookup := fun id =>
    match db with
    | Some d => select_MaxCount_by_TID d id
    | None => None
    end in
  snd (MaxOwnMaterials db s) = None /\
  m_currentSaveFilePath s' = m_currentSaveFilePath s /\
  m_isSaveFileLoaded s' = true /\
  exists top' slots',
    m_saveData s' = JObject top' /\
    obj_find "InventoryItemSlot" top' = Some (JObject slots') /\
    (forall k, k <> "InventoryItemSlot" -> obj_find k top' = obj_find k top) /\
    obj_keys slots' = obj_keys slots /\
    Forall2 (fun b b' => fst b' = fst b /\
                         field_raised_or_same lookup "itemID" "totalCount"
                           (snd b) (snd b'))
            slots slots' /\
    Forall2 (same_but_field "totalCount") slots slots'.
Proof.
  intros L Hm Hi s' lookup.
  assert (Weaken : forall m m',
            Forall2 (fun b b' : string * json =>
                   fst b' = fst b /\
                   field_raised_or_same lookup "itemID" "totalCount" (snd b) (snd b'))
                   m m' ->
            Forall2 (same_but_field "totalCount") m m' /\ obj_keys m' = obj_keys m).
  { clear. intros m m' H. induction H as [| [k e] [k' e'] m m' [Hk Hr] _ [IH1 IH2]].
    - split; [constructor | reflexivity].
    - simpl in Hk. subst k'. split.
      + constructor; [| exact IH1].
        apply (field_raised_keeps_other_fields lookup "itemID"), Hr.
      + simpl. rewrite IH2. reflexivity. }
  unfold s', MaxOwnMaterials.
  rewrite (section_usable_intro _ _ _ _ L Hm Hi). simpl.
  destruct db as [d |]; simpl.
  - rewrite Hm.
    destruct (own_loop_effect (select_MaxCount_by_TID d)
                "InventoryItemSlot" "itemID" "totalCount" top slots Hi)
      as (slots' & -> & Hr).
    simpl. repeat split; try assumption.
    exists (obj_set "InventoryItemSlot" (JObject slots') top), slots'.
    destruct (Weaken _ _ Hr) as [W1 W2].
    repeat split; try assumption.
    + apply obj_find_set_same.
    + intros k N. apply obj_find_set_other, N.
  - repeat split; try assumption.
    exists top, slots.
    assert (Same : Forall2 (fun b b' : string * json =>
                   fst b' = fst b /\
                   field_raised_or_same lookup "itemID" "totalCount" (snd b) (snd b'))
                   slots slots).
    { clear. induction slots as [| b m IH]; constructor;
        [split; [reflexivity | left; reflexivity] | exact IH]. }
    destruct (Weaken _ _ Same) as [W1 W2].
    repeat split; try assumption.
Qed.

Lemma MaxOwnMaterials_changes_totalCount_only_witness :
  snd (MaxOwnMaterials (Some scenario_store) slot_and_staff_save) = None /\
  m_isSaveFileLoaded (fst (MaxOwnMaterials (Some scenario_store) slot_and_staff_save))
  = true.
Proof.
  destruct (MaxOwnMaterials_changes_totalCount_only
              (Some scenario_store) slot_and_staff_save _ _
              eq_refl eq_refl eq_refl)
    as (Hx & _ & Hl & _).
  split; [exact Hx | exact Hl].
Defined.

(** X6.  [MaxOwnIngredients] and [MaxOwnMaterials] are idempotent: in every
    state and with every reference store (or none), a second run in
    succession returns what the first returned and leaves the manager as
    the first left it. *)
Theorem own_loops_idempotent (db : option RefDb) (s : SaveGameManager) :
  MaxOwnIngredients db (fst (MaxOwnIngredients db s)) = MaxOwnIngredients db s /\
  MaxOwnMaterials db (fst (MaxOwnMaterials db s)) = MaxOwnMaterials db s.
Proof.
  split.
  - destruct db as [d |].
    + exact (own_loop_twice (select_MaxCount_by_ItemDataID d)
               "Ingredients" "ingredientsID" "count" s ltac:(discriminate)).
    + unfold MaxOwnIngredients.
      destruct (section_usable s "Ingredients") eqn:U; simpl; rewrite U; reflexivity.
  - destruct db as [d |].
    + exact (own_loop_twice (select_MaxCount_by_TID d)
               "InventoryItemSlot" "itemID" "totalCount" s ltac:(discriminate)).
    + unfold MaxOwnMaterials.
      destruct (section_usable s "InventoryItemSlot") eqn:U; simpl; rewrite U;
        reflexivity.
Qed.

(** ** The staff loop *)

Section StaffLoop.

(** On an object whose name is not a string it throws and changes nothing. *)
Lemma max_staff_entry_bad_name (fields : object_t) (name : json) :
  obj_find "name" fields = Some name ->
  is_string name = false ->
  max_staff_entry (JObject fields) = (JObject fields, Some (type_error 302)).
Proof.
  intros F S. unfold max_staff_entry. cbn [json_index]. rewrite F.
  destruct name; try discriminate S; reflexivity.
Qed.

Lemma max_staff_entry_settles : settles max_staff_entry.
Proof.
  intros [| b | z | n | r | t | l | fields]; try reflexivity.
  destruct (obj_find "name" fields) as [name |] eqn:F.
  - destruct (is_string name) eqn:S.
    + destruct name as [| | | | | n | |]; try discriminate S.
      rewrite (max_staff_entry_named fields n F). cbn [fst snd].
      unfold staff_entry_per_spec. rewrite F.
      destruct (String.eqb n "Staff_Dave") eqn:D.
      * rewrite (max_staff_entry_named fields n F).
        unfold staff_entry_per_spec. rewrite F, D. reflexivity.
      * assert (F' : obj_find "name" (obj_set "level" (JInt 20) fields)
                     = Some (JString n))
          by (rewrite obj_find_set_other by discriminate; exact F).
        rewrite (max_staff_entry_named _ n F').
        unfold staff_entry_per_spec. rewrite F', D, obj_set_set. reflexivity.
    + rewrite (max_staff_entry_bad_name fields name F S). cbn [fst snd].
      apply (max_staff_entry_bad_name fields name F S).
  - rewrite (max_staff_entry_nameless fields F). cbn [fst snd].
    apply (max_staff_entry_bad_name _ JNull); [apply obj_find_set_same | reflexivity].
Qed.

Lemma max_staff_entry_keeps_scalars : keeps_scalars max_staff_entry.
Proof.
  intros e S. destruct e; try discriminate S; reflexivity.
Qed.

(** The loop over entries that all have a string name. *)
Lemma staff_loop_levels (staff : object_t) :
  Forall (fun b : string * json =>
            exists fields n,
              snd b = JObject fields /\ obj_find "name" fields = Some (JString n))
         staff ->
  snd (for_each_value max_staff_entry staff) = None /\
  Forall2 (fun b b' => fst b' = fst b /\ staff_entry_levelled (snd b) (snd b'))
          staff (fst (for_each_value max_staff_entry staff)).
Proof.
  induction 1 as [| [k e] staff (fields & n & He & Hn) _ [IHx IHr]];
    [split; [reflexivity | constructor] |].
  simpl in He. subst e. cbn [for_each_value].
  rewrite (max_staff_entry_named fields n Hn).
  destruct (for_each_value max_staff_entry staff) as [staff' x].
  simpl in IHx, IHr |- *. split; [exact IHx |].
  constructor; [| exact IHr].
  split; [reflexivity |].
  exists fields, n. split; [reflexivity |]. split; [exact Hn |].
  unfold staff_entry_per_spec. rewrite Hn. reflexivity.
Qed.

End StaffLoop.

(** X7.  On a loaded document whose [Staff] section is a map of entries
    that all are objects with a string [name], [MaxOwnStaffLevel] does not
    throw, keeps the keys of the section, leaves the entry named
    [Staff_Dave] as it is and in every other entry sets [level] to 20 and
    nothing else; the other sections, the path and the loaded flag are
    unchanged. *)
Theorem MaxOwnStaffLevel_on_named_staff
  (s : SaveGameManager) (top staff : object_t) :
  m_isSaveFileLoaded s = true ->
  m_saveData s = JObject top ->
  obj_find "Staff" top = Some (JObject staff) ->
  Forall (fun b : string * json =>
            exists fields n,
              snd b = JObject fields /\ obj_find "name" fields = Some (JString n))
         staff ->
  let s' := fst (MaxOwnStaffLevel s) in
  snd (MaxOwnStaffLevel s) = None /\
  m_currentSaveFilePath s' = m_currentSaveFilePath s /\
  m_isSaveFileLoaded s' = true /\
  exists staff',
    m_saveData s' = JObject (obj_set "Staff" (JObject staff') top) /\
    obj_keys staff' = obj_keys staff /\
    Forall2 (fun b b' => fst b' = fst b /\ staff_entry_levelled (snd b) (snd b'))
            staff staff' /\
    Forall2 (fun b b' =>
               forall field, field <> "level" ->
                 json_at (snd b') field = json_at (snd b) field)
            staff staff'.
Proof.
  intros L Hm Hs Named s'.
  unfold s', MaxOwnStaffLevel. rewrite L, Hm.
  assert (C : contains (JObject top) "Staff" = true) by (simpl; rewrite Hs; reflexivity).
  rewrite C. cbn [negb orb].
  rewrite (with_element_present _ _ _ _ Hs), json_for_each_object.
  destruct (staff_loop_levels staff Named) as [Hx Hr].
  rewrite Hx. cbn [fst snd m_currentSaveFilePath m_isSaveFileLoaded set_saveData
                   m_saveData].
  split; [reflexivity |]. split; [reflexivity |]. split; [exact L |].
  exists (fst (for_each_value max_staff_entry staff)).
  split; [reflexivity |].
  split; [apply obj_keys_for_each |].
  split; [exact Hr |].
  clear - Hr. induction Hr as [| b b' m m' [_ (fields & n & Hb & Hn & Hb')] _ IH];
    constructor; [| exact IH].
  intros field N. rewrite Hb', Hb.
  destruct (String.eqb n "Staff_Dave"); [reflexivity |].
  simpl. rewrite obj_find_set_other by exact N. reflexivity.
Qed.

Lemma MaxOwnStaffLevel_on_named_staff_witness :
  snd (MaxOwnStaffLevel slot_and_staff_save) = None.
Proof.
  refine (proj1 (MaxOwnStaffLevel_on_named_staff slot_and_staff_save _ _
                   eq_refl eq_refl eq_refl _)).
  constructor; [| constructor].
  exists [("level", JUInt 3); ("name", JString "Staff_Bob")], "Staff_Bob".
  split; reflexivity.
Defined.

(** X8.  [MaxOwnStaffLevel] is idempotent in every state, also when it
    throws: run again on the manager it left, it returns the same result
    (the same exception, if any) and leaves the manager as it is.  A retry
    after an exception therefore neither repairs nor damages the document. *)
Theorem MaxOwnStaffLevel_idempotent (s : SaveGameManager) :
  MaxOwnStaffLevel (fst (MaxOwnStaffLevel s)) = MaxOwnStaffLevel s.
Proof.
  unfold MaxOwnStaffLevel.
  destruct (negb (m_isSaveFileLoaded s) || negb (contains (m_saveData s) "Staff"))
    eqn:G; cbn [fst]; [rewrite G; reflexivity |].
  apply orb_false_iff in G as [GL GC].
  apply negb_false_iff in GL, GC.
  destruct (m_saveData s) as [| | | | | | | top] eqn:Hm; try discriminate GC.
  simpl in GC.
  destruct (obj_find "Staff" top) as [elem |] eqn:F; [| discriminate GC].
  set (g := json_for_each max_staff_entry).
  assert (Sg : settles g).
  { apply json_for_each_settles;
      [apply max_staff_entry_settles | apply max_staff_entry_keeps_scalars]. }
  pose proof (with_element_settles "Staff" g top elem Sg F) as W.
  rewrite (with_element_present "Staff" g top elem F) in W |- *.
  cbn [fst snd] in W |- *.
  cbn [m_isSaveFileLoaded m_saveData set_saveData].
  rewrite GL. cbn [negb orb contains].
  rewrite obj_find_set_same. cbn [negb].
  rewrite W. reflexivity.
Qed.

(** ** MaxAllIngredients: exceptions, old entries, new keys *)

(** X9.  The exceptions of [MaxAllIngredients].  In every state and with
    every store (or none) it throws nothing but [std::out_of_range] and
    [type_error] 305.  On a loaded document that is an object it throws
    [std::out_of_range] exactly when some column of the join is not a value
    of [int], and then adds nothing; otherwise it throws [type_error] 305
    exactly when a row with a target other than 0 has its identifier bound,
    in the collection the run starts from, to a value that is neither a map
    nor null; otherwise it returns.  In particular, when the columns are
    [int]s it cannot throw on a collection whose entries are all maps. *)
Theorem MaxAllIngredients_throws_exactly (d : RefDb) (s : SaveGameManager) :
  (forall db e, snd (MaxAllIngredients db s) = Some e ->
     e = type_error 305 \/ e = out_of_range) /\
  (forall top,
     m_isSaveFileLoaded s = true ->
     m_saveData s = JObject top ->
     let ing := ingredients_of (m_saveData s) in
     let rows := select_all_ingredients d in
     let fit :=
       forall r name stored, In r rows -> In (name, stored) r ->
         -2147483648 <= stored <= 2147483647 in
     let clean :=
       forall r e, In r rows -> row_target r <> 0 ->
                   obj_find (row_key r) ing = Some e ->
                   entry_rejects_fields e = false in
     (snd (MaxAllIngredients (Some d) s) = Some out_of_range <-> ~ fit) /\
     (snd (MaxAllIngredients (Some d) s) = Some (type_error 305) <->
      fit /\ ~ clean) /\
     (snd (MaxAllIngredients (Some d) s) = None <-> fit /\ clean) /\
     (fit -> Forall (fun b => is_object (snd b) = true) ing ->
      snd (MaxAllIngredients (Some d) s) = None) /\
     (snd (MaxAllIngredients (Some d) s) = Some out_of_range ->
      ingredients_of (m_saveData (fst (MaxAllIngredients (Some d) s))) = ing)).
Proof.
  split.
  { intros db e H.
    destruct (m_isSaveFileLoaded s) eqn:L;
      [| unfold MaxAllIngredients in H; rewrite L in H; discriminate H].
    destruct db as [d' |];
      [| unfold MaxAllIngredients in H; rewrite L in H; discriminate H].
    destruct (m_saveData s) as [| b | z | n | f | t | l | top] eqn:Hm;
      try (unfold MaxAllIngredients in H; rewrite L, Hm in H;
           injection H as <-; left; reflexivity).
    - unfold MaxAllIngredients in H. rewrite L, Hm in H.
      cbn [negb contains orb assign_key json_assign] in H.
      rewrite (with_element_present "Ingredients" _
                 [("Ingredients", JObject [])] (JObject []) eq_refl) in H.
      cbn [snd] in H. rewrite query_then_rows in H. cbn [snd] in H.
      rewrite max_all_rows_exception in H.
      destruct (rows_fit_int (select_all_ingredients d'));
        [destruct (rows_meet_rejection [] (select_all_ingredients d')) |];
        inversion H; auto.
    - rewrite (MaxAllIngredients_on_object d' s top L Hm) in H. cbn [snd] in H.
      destruct (rows_fit_int (select_all_ingredients d'));
        [destruct (rows_meet_rejection _ (select_all_ingredients d')) |];
        inversion H; auto. }
  intros top L Hm. rewrite Hm. intros c rows fit clean.
  rewrite (MaxAllIngredients_on_object d s top L Hm). cbn [fst snd].
  fold c. fold rows.
  assert (Fit : rows_fit_int rows = true <-> fit).
  { unfold fit, rows_fit_int, row_fits_int, fits_int. split.
    - intros H r name stored I J.
      rewrite forallb_forall in H. specialize (H r I).
      rewrite forallb_forall in H. specialize (H (name, stored) J).
      cbn [snd] in H. lia.
    - intro H. apply forallb_forall. intros r I.
      apply forallb_forall. intros [name stored] J.
      specialize (H r name stored I J). cbn [snd]. lia. }
  assert (Clean : rows_meet_rejection c rows = false <-> clean).
  { unfold clean, rows_meet_rejection. split.
    - intros H r e I T F.
      assert (Hr : row_eligible r && key_rejects_fields c (row_key r) = false).
      { destruct (row_eligible r && key_rejects_fields c (row_key r)) eqn:E;
          [| reflexivity].
        assert (X : existsb (fun r0 => row_eligible r0
                                       && key_rejects_fields c (row_key r0)) rows
                    = true)
          by (apply existsb_exists; exists r; auto).
        congruence. }
      rewrite (select_all_eligible d r I) in Hr.
      destruct (Z.eqb_spec (row_target r) 0); [contradiction |].
      unfold key_rejects_fields in Hr. rewrite F in Hr. exact Hr.
    - intro H.
      destruct (existsb _ rows) eqn:E; [| reflexivity].
      apply existsb_exists in E as (r & I & E).
      apply andb_true_iff in E as [E1 E2].
      rewrite (select_all_eligible d r I) in E1.
      unfold key_rejects_fields in E2.
      destruct (obj_find (row_key r) c) as [e |] eqn:F; [| discriminate].
      rewrite (H r e I) in E2; [discriminate | | exact F].
      intro Z0. rewrite Z0 in E1. discriminate. }
  assert (Objects : Forall (fun b => is_object (snd b) = true) c -> clean).
  { intros A r e _ _ F.
    assert (O : is_object e = true).
    { clear - A F. induction A as [| [k v] m Hv _ IH]; [discriminate |].
      simpl in F. destruct (String.eqb (row_key r) k).
      - injection F as <-. exact Hv.
      - exact (IH F). }
    destruct e; try discriminate O; reflexivity. }
  clearbody fit clean.
  destruct (rows_fit_int rows) eqn:Ef.
  - assert (Hf : fit) by (apply Fit; reflexivity).
    destruct (rows_meet_rejection c rows) eqn:Er.
    + assert (Hc : ~ clean) by (intro H; apply Clean in H; discriminate H).
      repeat split; try discriminate; try tauto.
    + assert (Hc : clean) by (apply Clean; reflexivity).
      repeat split; try discriminate; try tauto.
  - assert (Hf : ~ fit) by (intro H; apply Fit in H; discriminate H).
    repeat split; try discriminate; try tauto.
    intros _. unfold ingredients_of at 1. cbn [m_saveData set_saveData].
    rewrite obj_find_set_same.
    unfold max_all_collection. fold rows. rewrite Ef. reflexivity.
Qed.

Lemma MaxAllIngredients_throws_exactly_witness :
  snd (MaxAllIngredients (Some scenario_store) other_ingredient_save) = None.
Proof.
  refine (proj1 (proj2 (proj2 (proj2
            (proj2 (MaxAllIngredients_throws_exactly
                      scenario_store other_ingredient_save)
               _ eq_refl eq_refl)))) _ _).
  - intros r name stored [<- | []] J.
    simpl in J. destruct J as [J | [J | [J | []]]]; injection J as _ <-; lia.
  - constructor; [reflexivity | constructor].
Defined.

(** How the three mutators read a capacity that is not an [int].  The point
    queries of [MaxOwnIngredients] and [MaxOwnMaterials] take the low 32 bits
    of 2^32 + 99, which is 99, and write its target 66; the callback of
    [MaxAllIngredients] meets [std::out_of_range] and nothing is added. *)
Example capacity_outside_int :
  m_saveData (fst (MaxOwnIngredients (Some wide_capacity_store) owned_ingredient_save))
  = JObject
      [("Ingredients",
        JObject [("5", JObject [("count", JInt 66); ("ingredientsID", JUInt 5)])])] /\
  json_at
    (json_at
       (json_at
          (m_saveData (fst (MaxOwnMaterials (Some wide_capacity_store)
                              slot_and_staff_save)))
          "InventoryItemSlot") "7") "totalCount"
  = JInt 66 /\
  MaxAllIngredients (Some wide_capacity_store) scenario_save
  = (scenario_save, Some out_of_range).
Proof. vm_compute. repeat split; reflexivity. Qed.

(** X10.  [MaxAllIngredients] removes no entry and changes old entries in
    their [count] only: on a loaded document that is an object, every key
    bound in the collection before is bound after, to the same value or to
    that value with [count] set to the target of a row of the join with this
    identifier, and every other field of the entry is as before.  This holds
    also for a run that an exception ends. *)
Theorem MaxAllIngredients_keeps_old_entries
  (d : RefDb) (s : SaveGameManager) (top : object_t) (k : string) (e : json) :
  m_isSaveFileLoaded s = true ->
  m_saveData s = JObject top ->
  obj_find k (ingredients_of (m_saveData s)) = Some e ->
  let s' := fst (MaxAllIngredients (Some d) s) in
  exists e',
    obj_find k (ingredients_of (m_saveData s')) = Some e' /\
    (e' = e \/
     exists r, In r (select_all_ingredients d) /\ row_key r = k /\
               row_target r <> 0 /\ e' = raise_count (row_target r) e) /\
    forall field, field <> "count" ->
      contains e' field = contains e field /\ json_at e' field = json_at e field.
Proof.
  intros L Hm F s'.
  assert (Hs' : ingredients_of (m_saveData s')
                = max_all_collection d (ingredients_of (m_saveData s))).
  { unfold s'. rewrite (MaxAllIngredients_on_object d s top L Hm), Hm.
    cbn [fst set_saveData m_saveData]. unfold ingredients_of at 1.
    rewrite obj_find_set_same. reflexivity. }
  rewrite Hs'. set (ing := ingredients_of (m_saveData s)) in *.
  unfold max_all_collection.
  destruct (rows_fit_int (select_all_ingredients d));
    [| exists e; split; [exact F |]; split; [left; reflexivity |];
       intros; split; reflexivity].
  set (R := rows_reached (key_rejects_fields ing) (select_all_ingredients d)).
  set (ts := default_timestamps (JObject ing)).
  assert (Frame : forall t field, field <> "count" ->
            contains (raise_count t e) field = contains e field /\
            json_at (raise_count t e) field = json_at e field).
  { intros t field N. destruct e; try (split; reflexivity).
    - unfold raise_count. simpl.
      destruct (String.eqb_spec field "count"); [contradiction | split; reflexivity].
    - unfold raise_count. simpl.
      rewrite obj_find_set_other by exact N. split; reflexivity. }
  destruct (rows_touch k R) eqn:Ht.
  - destruct (row_steps_on_bound_key ts R k Ht ing e F) as (r & I & E & K & Q).
    exists (raise_count (row_target r) e).
    split; [exact Q |]. split; [| apply Frame].
    right. exists r.
    assert (I' : In r (select_all_ingredients d))
      by (apply (rows_reached_incl _ _ _ I)).
    split; [exact I' |]. split; [exact K |]. split; [| reflexivity].
    rewrite (select_all_eligible d r I') in E.
    intro Z0. rewrite Z0 in E. discriminate.
  - destruct (row_steps_untouched ts R k Ht ing) as [U _].
    exists e. rewrite U. split; [exact F |]. split; [left; reflexivity |].
    intros; split; reflexivity.
Qed.

Lemma MaxAllIngredients_keeps_old_entries_witness :
  exists e',
    obj_find "7"
      (ingredients_of
         (m_saveData (fst (MaxAllIngredients (Some scenario_store)
                             other_ingredient_save))))
    = Some e'.
Proof.
  destruct (MaxAllIngredients_keeps_old_entries
              scenario_store other_ingredient_save _ "7" _
              eq_refl eq_refl eq_refl) as (e' & H & _).
  exists e'. exact H.
Defined.

(** X11.  [MaxAllIngredients] binds no key but the identifiers of the join:
    on a loaded document that is an object, a key bound afterwards was bound
    before or is the identifier, as [std::to_string] writes it, of a row of
    the join with a target other than 0; and after a run without exception
    the identifier of every such row is bound. *)
Theorem MaxAllIngredients_new_keys
  (d : RefDb) (s : SaveGameManager) (top : object_t) :
  m_isSaveFileLoaded s = true ->
  m_saveData s = JObject top ->
  let ing := ingredients_of (m_saveData s) in
  let ing' := ingredients_of (m_saveData (fst (MaxAllIngredients (Some d) s))) in
  let rows := select_all_ingredients d in
  (forall k, obj_find k ing' <> None ->
     obj_find k ing <> None \/
     exists r, In r rows /\ row_target r <> 0 /\
               k = to_string (row_at "ingredientsID_for_save_file_key" r)) /\
  (snd (MaxAllIngredients (Some d) s) = None ->
   forall r, In r rows -> row_target r <> 0 ->
     obj_find (to_string (row_at "ingredientsID_for_save_file_key" r)) ing' <> None).
Proof.
  intros L Hm ing ing' rows.
  assert (Hs' : ing' = max_all_collection d ing).
  { unfold ing', ing. rewrite (MaxAllIngredients_on_object d s top L Hm), Hm.
    cbn [fst set_saveData m_saveData]. unfold ingredients_of at 1.
    rewrite obj_find_set_same. reflexivity. }
  rewrite Hs'. unfold max_all_collection. fold rows.
  destruct (rows_fit_int rows) eqn:Fit.
  2:{ split; [intros k P; left; exact P |].
      intro Hx. exfalso.
      rewrite (MaxAllIngredients_on_object d s top L Hm) in Hx. cbn [snd] in Hx.
      fold rows in Hx. rewrite Fit in Hx. discriminate Hx. }
  set (R := rows_reached (key_rejects_fields ing) rows).
  set (ts := default_timestamps (JObject ing)).
  split.
  - intros k P.
    destruct (obj_find k ing) as [e |] eqn:F; [left; discriminate |].
    right.
    destruct (rows_touch k R) eqn:Ht.
    + destruct (rows_touch_elim k R Ht) as (r & I & E & K).
      assert (I' : In r rows) by apply (rows_reached_incl _ _ _ I).
      exists r. split; [exact I' |]. split; [| symmetry; exact K].
      unfold rows in I'. rewrite (select_all_eligible d r I') in E.
      intro Z0. rewrite Z0 in E. discriminate.
    + destruct (row_steps_untouched ts R k Ht ing) as [U _].
      rewrite U, F in P. contradiction.
  - intros Hx r I T.
    rewrite (MaxAllIngredients_on_object d s top L Hm) in Hx. cbn [snd] in Hx.
    assert (Hing : ingredients_of (JObject top) = ing)
      by (unfold ing; rewrite Hm; reflexivity).
    rewrite Hing in Hx. fold rows in Hx. rewrite Fit in Hx.
    assert (NoRej : rows_meet_rejection ing rows = false).
    { destruct (rows_meet_rejection ing rows); [discriminate | reflexivity]. }
    assert (HR : R = rows) by (apply rows_reached_without_rejection, NoRej).
    rewrite HR.
    assert (E : row_eligible r = true).
    { unfold rows in I. rewrite (select_all_eligible d r I).
      destruct (Z.eqb_spec (row_target r) 0); [contradiction | reflexivity]. }
    pose proof (rows_touch_intro rows r I E) as Ht.
    fold (row_key r).
    destruct (obj_find (row_key r) ing) as [e |] eqn:F.
    + destruct (row_steps_on_bound_key ts rows (row_key r) Ht ing e F)
        as (r' & _ & _ & _ & Q).
      rewrite Q. discriminate.
    + destruct (row_steps_on_free_key ts rows (row_key r) Ht ing F)
        as (r1 & rl & _ & _ & _ & _ & _ & _ & Q).
      rewrite Q. discriminate.
Qed.

Lemma MaxAllIngredients_new_keys_witness :
  exists e,
    obj_find "5"
      (ingredients_of
         (m_saveData (fst (MaxAllIngredients (Some scenario_store)
                             other_ingredient_save))))
    = Some e.
Proof.
  assert (H : obj_find "5"
                (ingredients_of
                   (m_saveData (fst (MaxAllIngredients (Some scenario_store)
                                       other_ingredient_save))))
              <> None).
  { refine (proj2 (MaxAllIngredients_new_keys
                     scenario_store other_ingredient_save _ eq_refl eq_refl)
              eq_refl (joined_row 5 (mkItem 5 5 99)) _ _).
    - left; reflexivity.
    - discriminate. }
  destruct (obj_find "5"
              (ingredients_of
                 (m_saveData (fst (MaxAllIngredients (Some scenario_store)
                                     other_ingredient_save))))) as [e |].
  - exists e. reflexivity.
  - exfalso. apply H. reflexivity.
Defined.

(** ** Loading, and loading what was written *)

Section Loading.

Variable parse : string -> outcome json.

Lemma Decode_total (bytes : string) : exists text, Codec.Decode bytes = Some text.
Proof.
  exact (CodecFacts.xor_from_total _ CodecFacts.XOR_KEY_not_empty bytes 0%nat).
Qed.

Lemma Decode_Encode (text bytes : string) :
  Codec.Encode text = Some bytes -> Codec.Decode bytes = Some text.
Proof.
  exact (CodecFacts.xor_from_involutive _ CodecFacts.XOR_KEY_not_empty text 0%nat bytes).
Qed.

Lemma LoadSaveFile_cases (fs : filesystem) (filepath : path) (s : SaveGameManager) :
  (exists bytes text doc,
      fs filepath = Some bytes /\ Codec.Decode bytes = Some text /\
      parse text = Ok doc /\
      LoadSaveFile parse fs filepath s = (true, mkManager doc filepath true)) \/
  ((fs filepath = None \/
    exists bytes text e,
      fs filepath = Some bytes /\ Codec.Decode bytes = Some text /\
      parse text = Throw e) /\
   LoadSaveFile parse fs filepath s = (false, mkManager JNull empty_path false)).
Proof.
  unfold LoadSaveFile.
  destruct (fs filepath) as [bytes |] eqn:F; [| right; auto].
  destruct (Decode_total bytes) as [text D]. rewrite D.
  destruct (parse text) as [doc | e] eqn:P.
  - left. exists bytes, text, doc. auto.
  - right. split; [right; exists bytes, text, e; auto | reflexivity].
Qed.

End Loading.

(** X12.  [LoadSaveFile] returns [true] exactly when the file can be read
    and its decoded bytes parse; the manager then holds the parsed document,
    the path and the loaded flag.  When it returns [false] the manager is
    reset, whatever was loaded before: the document is null, the path empty,
    the flag off, so that every getter returns 0, a setter changes nothing
    and [WriteSaveFile] refuses without touching a file.  The returned flag
    is the loaded flag, and the files are never changed. *)
Theorem LoadSaveFile_outcome
  (parse : string -> outcome json) (dump : json -> outcome string) (w : World)
  (fs : filesystem) (filepath : path) (s : SaveGameManager) :
  let ok := fst (LoadSaveFile parse fs filepath s) in
  let s' := snd (LoadSaveFile parse fs filepath s) in
  (ok = true <->
   exists bytes text doc,
     fs filepath = Some bytes /\ Codec.Decode bytes = Some text /\
     parse text = Ok doc) /\
  (ok = true ->
   exists bytes text,
     fs filepath = Some bytes /\ Codec.Decode bytes = Some text /\
     parse text = Ok (m_saveData s') /\
     m_currentSaveFilePath s' = filepath) /\
  (ok = false ->
   s' = mkManager JNull empty_path false /\
   (forall get section field, In (get, (section, field)) typed_getters ->
      get s' = Ok 0) /\
   (forall set section field v, In (set, (section, field)) typed_setters ->
      set v s' = (s', None)) /\
   WriteSaveFile dump w s' fs = (false, empty_path, fs)) /\
  m_isSaveFileLoaded s' = ok.
Proof.
  intros ok s'. unfold ok, s'.
  destruct (LoadSaveFile_cases parse fs filepath s)
    as [(bytes & text & doc & F & D & P & ->)
       | [[F | (bytes & text & e & F & D & P)] ->]]; cbn [fst snd].
  - split; [split; [intros _; exists bytes, text, doc; auto | reflexivity] |].
    split; [intros _; exists bytes, text; auto |].
    split; [discriminate | reflexivity].
  - split.
    { split; [discriminate |]. intros (b & t & dd & F' & _). congruence. }
    split; [discriminate |].
    split; [| reflexivity].
    intros _. split; [reflexivity |].
    split.
    { intros get section field Hin.
      rewrite (typed_getters_read _ _ _ Hin). reflexivity. }
    split; [| reflexivity].
    intros set section field v Hin.
    destruct (typed_setters_write _ _ _ Hin) as [clamp ->]. reflexivity.
  - split.
    { split; [discriminate |]. intros (b & t & dd & F' & D' & P'). congruence. }
    split; [discriminate |].
    split; [| reflexivity].
    intros _. split; [reflexivity |].
    split.
    { intros get section field Hin.
      rewrite (typed_getters_read _ _ _ Hin). reflexivity. }
    split; [| reflexivity].
    intros set section field v Hin.
    destruct (typed_setters_write _ _ _ Hin) as [clamp ->]. reflexivity.
Qed.

Section Reparsed.

Lemma obj_find_as_parsed (k : string) (m : object_t) :
  obj_find k (map (fun binding : string * json =>
                     let (k', v) := binding in (k', as_parsed v)) m)
  = option_map as_parsed (obj_find k m).
Proof.
  induction m as [| [k' v] m IH]; [reflexivity |].
  simpl. destruct (String.eqb k k'); [reflexivity | exact IH].
Qed.

Lemma is_object_as_parsed (j : json) : is_object (as_parsed j) = is_object j.
Proof.
  destruct j as [| b | z | n | f | t | l | m]; try reflexivity.
  - simpl. destruct (0 <=? z); reflexivity.
  - destruct f; reflexivity.
Qed.

Lemma contains_as_parsed (j : json) (k : string) :
  contains (as_parsed j) k = contains j k.
Proof.
  destruct j as [| b | z | n | f | t | l | m]; try reflexivity.
  - simpl. destruct (0 <=? z); reflexivity.
  - destruct f; reflexivity.
  - cbn [as_parsed contains]. rewrite obj_find_as_parsed.
    destruct (obj_find k m); reflexivity.
Qed.

Lemma json_at_as_parsed (j : json) (k : string) :
  json_at (as_parsed j) k = as_parsed (json_at j k).
Proof.
  destruct j as [| b | z | n | f | t | l | m]; try reflexivity.
  - simpl. destruct (0 <=? z); reflexivity.
  - destruct f; reflexivity.
  - cbn [as_parsed json_at]. rewrite obj_find_as_parsed.
    destruct (obj_find k m); reflexivity.
Qed.

Lemma get_long_long_as_parsed (v : json) :
  (forall f, v <> JFloat f) -> get_long_long (as_parsed v) = get_long_long v.
Proof.
  intro N. destruct v as [| b | z | n | f | t | l | m]; try reflexivity.
  - simpl. destruct (0 <=? z); reflexivity.
  - exfalso. exact (N f eq_refl).
Qed.

(** A getter reads from the reparsed document what it read from the
    document, unless its field is a floating-point number. *)
Lemma read_number_as_parsed (section field : string) (s : SaveGameManager) :
  (forall f, json_at (json_at (m_saveData s) section) field <> JFloat f) ->
  read_number section field (set_saveData s (as_parsed (m_saveData s)))
  = read_number section field s.
Proof.
  intro N. unfold read_number, section_usable. cbn [m_saveData set_saveData
    m_isSaveFileLoaded].
  rewrite !json_at_as_parsed, !contains_as_parsed, is_object_as_parsed.
  rewrite get_long_long_as_parsed by exact N. reflexivity.
Qed.

End Reparsed.

(** X13.  What [WriteSaveFile] wrote, [LoadSaveFile] reads back.  Let a
    loaded manager write with success, the stream taking all bytes, and let
    the parser read the serializer's text of the document as the library's
    parser does: as the document itself, but with every integer that is not
    negative as an unsigned one (a setter stores a signed integer; the parser
    gives an unsigned one for a literal without sign).  Then the bytes now
    in the original file decode to that text, and a load of the original
    path, from any state of a manager, returns [true] and gives the manager
    that wrote with its document so reparsed; every getter whose field is
    not a floating-point number returns from it what it returned from the
    manager that wrote.  A load of the backup gives the document a load of
    the original gave before the write. *)
Theorem load_reads_back_what_was_written
  (parse : string -> outcome json) (dump : json -> outcome string) (w : World)
  (s s0 : SaveGameManager) (fs : filesystem) (text : string) :
  m_isSaveFileLoaded s = true ->
  fst (fst (WriteSaveFile dump w s fs)) = true ->
  short_write w = None ->
  dump (m_saveData s) = Ok text ->
  parse text = Ok (as_parsed (m_saveData s)) ->
  let fs' := snd (WriteSaveFile dump w s fs) in
  let original := m_currentSaveFilePath s in
  let backup := snd (fst (WriteSaveFile dump w s fs)) in
  (exists bytes, fs' original = Some bytes /\ Codec.Decode bytes = Some text) /\
  LoadSaveFile parse fs' original s0
  = (true, set_saveData s (as_parsed (m_saveData s))) /\
  (forall get section field, In (get, (section, field)) typed_getters ->
     (forall f, json_at (json_at (m_saveData s) section) field <> JFloat f) ->
     get (snd (LoadSaveFile parse fs' original s0)) = get s) /\
  fst (LoadSaveFile parse fs' backup s0) = fst (LoadSaveFile parse fs original s0) /\
  m_saveData (snd (LoadSaveFile parse fs' backup s0))
  = m_saveData (snd (LoadSaveFile parse fs original s0)).
Proof.
  intros L W SW Hd Hp fs' original backup.
  unfold fs', backup. unfold WriteSaveFile in W |- *.
  rewrite L in W |- *. cbn [negb orb] in W |- *.
  destruct (path_empty (m_currentSaveFilePath s)); [discriminate W |].
  destruct (create_directories_ok w); cbn [negb] in W |- *; [| discriminate W].
  fold original in W |- *.
  destruct (fs original) as [original_bytes |] eqn:Fo; [| discriminate W].
  destruct (copy_failure w) as [[partial |] |]; try discriminate W.
  rewrite Hd in W |- *.
  destruct (Codec.Encode text) as [final_bytes |] eqn:E; [| discriminate W].
  destruct (open_ok w); cbn [negb] in W |- *; [| discriminate W].
  rewrite SW. cbn [fst snd].
  pose proof (backup_path_differs w original) as D.
  pose proof (Decode_Encode text final_bytes E) as Dec.
  assert (Load : LoadSaveFile parse
                   (fs_store (fs_store fs (backup_path_of w original) original_bytes)
                      original final_bytes) original s0
                 = (true, set_saveData s (as_parsed (m_saveData s)))).
  { unfold LoadSaveFile. rewrite fs_store_same, Dec, Hp.
    unfold set_saveData. rewrite L. reflexivity. }
  split; [exists final_bytes; split; [apply fs_store_same | exact Dec] |].
  split; [exact Load |].
  split.
  - intros get section field Hin N. rewrite Load. cbn [snd].
    rewrite !(typed_getters_read _ _ _ Hin).
    apply read_number_as_parsed, N.
  - unfold LoadSaveFile.
    rewrite (fs_store_other _ _ _ _ D), fs_store_same, Fo.
    destruct (Codec.Decode original_bytes) as [t |]; [| split; reflexivity].
    destruct (parse t); split; reflexivity.
Qed.

Lemma load_reads_back_witness :
  LoadSaveFile example_parse
    (snd (WriteSaveFile example_dump example_world
            (fst (SetGold 5 small_save)) example_files))
    (m_currentSaveFilePath small_save) unloaded_manager
  = (true,
     mkManager
       (JObject [("PlayerInfo", JObject [("m_Gold", JUInt 5)]);
                 ("SNSInfo", JObject [("m_Follow_Count", JUInt 7)])])
       (mkPath ["SteamSData"] "GameSave_00_GD.sav")
       true).
Proof.
  refine (proj1 (proj2 (load_reads_back_what_was_written
                          example_parse example_dump example_world
                          (fst (SetGold 5 small_save)) unloaded_manager
                          example_files _ eq_refl _ eq_refl _ _))).
  - reflexivity.
  - vm_compute. reflexivity.
  - vm_compute. reflexivity.
Defined.

(** ** The save directory and the latest save *)

Section LatestSave.

Variable dir : list string.
Hypothesis dir_not_empty : dir <> [].

Lemma path_in_dir_not_empty (name : string) : path_empty (mkPath dir name) = false.
Proof. unfold path_empty. simpl. destruct dir; [contradiction | reflexivity]. Qed.

Lemma consider_save_newest (seen : list dir_entry) (acc : path * Z) (e : dir_entry) :
  newest_of dir seen acc -> newest_of dir (seen ++ [e])%list (consider_save dir acc e).
Proof.
  intro Inv. unfold consider_save.
  assert (Skip : (forall t, ~ save_candidate e t) -> newest_of dir (seen ++ [e])%list acc).
  { intro No. destruct Inv as [[Pe Hn] | (e0 & t0 & I & C & A & M)].
    - left. split; [exact Pe |].
      intros e' t' I'. apply in_app_or in I' as [I' | [<- | []]]; auto.
    - right. exists e0, t0. split; [apply in_or_app; auto |].
      split; [exact C |]. split; [exact A |].
      intros e' t' I' C'. apply in_app_or in I' as [I' | [<- | []]]; eauto.
      exfalso. exact (No t' C'). }
  destruct (entry_kind_of e) eqn:K;
    try (apply Skip; intros t (K' & _); congruence).
  destruct (is_save_file_name (entry_name e)) eqn:N;
    [| apply Skip; intros t (_ & N' & _); congruence].
  destruct (entry_write_time e) as [fileTime |] eqn:T;
    [| apply Skip; intros t (_ & _ & T'); congruence].
  assert (Ce : save_candidate e fileTime) by (repeat split; assumption).
  destruct Inv as [[Pe Hn] | (e0 & t0 & I & C & A & M)].
  - rewrite Pe. cbn [orb].
    right. exists e, fileTime.
    split; [apply in_or_app; right; left; reflexivity |].
    split; [exact Ce |]. split; [reflexivity |].
    intros e' t' I' C'. apply in_app_or in I' as [I' | [<- | []]].
    + exfalso. exact (Hn e' t' I' C').
    + destruct C' as (_ & _ & T'). rewrite T in T'. injection T' as <-. lia.
  - rewrite A. cbn [fst snd]. rewrite path_in_dir_not_empty. cbn [orb].
    destruct (Z.gtb_spec fileTime t0) as [G | G].
    + right. exists e, fileTime.
      split; [apply in_or_app; right; left; reflexivity |].
      split; [exact Ce |]. split; [reflexivity |].
      intros e' t' I' C'. apply in_app_or in I' as [I' | [<- | []]].
      * pose proof (M e' t' I' C'). lia.
      * destruct C' as (_ & _ & T'). rewrite T in T'. injection T' as <-. lia.
    + right. exists e0, t0.
      split; [apply in_or_app; left; exact I |].
      split; [exact C |]. split; [reflexivity |].
      intros e' t' I' C'. apply in_app_or in I' as [I' | [<- | []]].
      * exact (M e' t' I' C').
      * destruct C' as (_ & _ & T'). rewrite T in T'. injection T' as <-. lia.
Qed.

Lemma fold_consider_save_newest (entries : list dir_entry) :
  forall seen acc,
    newest_of dir seen acc ->
    newest_of dir (seen ++ entries)%list (fold_left (consider_save dir) entries acc).
Proof.
  induction entries as [| e entries IH]; intros seen acc Inv.
  - rewrite app_nil_r. exact Inv.
  - cbn [fold_left].
    replace (seen ++ e :: entries)%list with ((seen ++ [e]) ++ entries)%list
      by (rewrite <- app_assoc; reflexivity).
    apply IH, consider_save_newest, Inv.
Qed.

Lemma newest_of_all (entries : list dir_entry) :
  newest_of dir entries (fold_left (consider_save dir) entries (empty_path, 0)).
Proof.
  apply (fold_consider_save_newest entries [] (empty_path, 0)).
  left. split; [reflexivity | intros e t []].
Qed.

End LatestSave.

Section SaveDirectory.

Lemma find_first {A : Type} (f : A -> bool) (l : list A) (a : A) :
  find f l = Some a ->
  exists before after,
    l = (before ++ a :: after)%list /\ f a = true /\
    forall x, In x before -> f x = false.
Proof.
  induction l as [| x l IH]; simpl; [discriminate |].
  destruct (f x) eqn:Fx.
  - intro H. injection H as <-. exists [], l. split; [reflexivity |].
    split; [exact Fx | intros y []].
  - intro H. destruct (IH H) as (before & after & -> & Fa & Hb).
    exists (x :: before), after. split; [reflexivity |]. split; [exact Fa |].
    intros y [<- | Hy]; auto.
Qed.

Lemma is_steam_id_folder_elim (e : dir_entry) :
  is_steam_id_folder e = true ->
  entry_kind_of e = Directory /\ entry_name e <> EmptyString /\
  all_of_isdigit (entry_name e) = true.
Proof.
  unfold is_steam_id_folder.
  destruct (entry_kind_of e); try discriminate.
  intro H. apply andb_true_iff in H as [H1 H2].
  split; [reflexivity |]. split; [| exact H2].
  intro E. rewrite E in H1. discriminate.
Qed.

Variable sh : Shell.
Variable latest0 : path.

(** The base directory the function starts from, where it finds one. *)
Lemma save_search_without_base :
  known_LocalAppDataLow sh = None -> env_LOCALAPPDATA sh = None ->
  GetDefaultSaveGameDirectoryAndLatestFile sh latest0 = ([], latest0).
Proof.
  intros K E. unfold GetDefaultSaveGameDirectoryAndLatestFile. rewrite K, E.
  reflexivity.
Qed.

(** With a base directory, the result is the chosen directory together with
    the outcome of the second loop over it. *)
Lemma save_search_with_base (base : list string) :
  (exists low, known_LocalAppDataLow sh = Some low /\
               base = (low ++ ["nexon"; "DAVE THE DIVER"; "SteamSData"])%list) \/
  (exists env, known_LocalAppDataLow sh = None /\
               env_LOCALAPPDATA sh = Some env /\
               base = (removelast env
                       ++ ["LocalLow"; "nexon"; "DAVE THE DIVER"; "SteamSData"])%list) ->
  base <> [] /\
  exists dir,
    dir <> [] /\
    (match directory_entries sh base with
     | Some entries =>
         match find is_steam_id_folder entries with
         | Some e => dir = (base ++ [entry_name e])%list
         | None => dir = base
         end
     | None => dir = base
     end) /\
    GetDefaultSaveGameDirectoryAndLatestFile sh latest0
    = (dir,
       let most_recent :=
         match directory_entries sh dir with
         | Some entries => fold_left (consider_save dir) entries (empty_path, 0)
         | None => (empty_path, 0)
         end in
       if negb (path_empty (fst most_recent)) then fst most_recent else empty_path).
Proof.
  intro Hb.
  assert (Nb : base <> []).
  { destruct Hb as [(low & _ & ->) | (env & _ & _ & ->)];
      intro H; apply app_eq_nil in H as [_ H]; discriminate. }
  split; [exact Nb |].
  assert (Hbase :
    match known_LocalAppDataLow sh with
    | Some low => Some (low ++ ["nexon"; "DAVE THE DIVER"; "SteamSData"])%list
    | None =>
        match env_LOCALAPPDATA sh with
        | Some env =>
            Some (removelast env
                  ++ "LocalLow" :: ["nexon"; "DAVE THE DIVER"; "SteamSData"])%list
        | None => None
        end
    end = Some base).
  { destruct Hb as [(low & -> & ->) | (env & -> & -> & ->)]; reflexivity. }
  unfold GetDefaultSaveGameDirectoryAndLatestFile. rewrite Hbase.
  destruct (directory_entries sh base) as [entries |] eqn:D.
  - destruct (find is_steam_id_folder entries) as [e |] eqn:F.
    + exists (base ++ [entry_name e])%list.
      assert (Nd : (base ++ [entry_name e])%list <> [])
        by (intro H; apply app_eq_nil in H as [_ H]; discriminate).
      split; [exact Nd |]. split; [reflexivity |].
      destruct (base ++ [entry_name e])%list eqn:E; [contradiction | reflexivity].
    + exists base. split; [exact Nb |]. split; [reflexivity |]. reflexivity.
  - exists base. split; [exact Nb |]. split; [reflexivity |]. reflexivity.
Qed.

End SaveDirectory.





(** ** The name of a save file *)

Section SaveName.

Lemma substring_whole (k : nat) (s : string) :
  (String.length s <= k)%nat -> substring 0 k s = s.
Proof.
  revert k. induction s as [| c s IH]; intros k H.
  - destruct k; reflexivity.
  - destruct k as [| k]; simpl in H; [lia |].
    simpl. rewrite IH by lia. reflexivity.
Qed.

Lemma substring_nothing (s : string) : substring 0 0 s = EmptyString.
Proof. destruct s; reflexivity. Qed.

Lemma substring_after (a s : string) (k : nat) :
  substring (String.length a) k (a ++ s)%string = substring 0 k s.
Proof.
  induction a as [| c a IH]; [reflexivity | exact IH].
Qed.

(** A string whose last seven characters are the ending ends with it. *)
Lemma ends_with_last_seven (n : nat) :
  forall t,
    String.length t = (n + 7)%nat ->
    substring n 7 t = "_GD.sav" ->
    exists a, t = (a ++ "_GD.sav")%string.
Proof.
  induction n as [| n IH]; intros t L H.
  - exists EmptyString. rewrite substring_whole in H by lia. exact H.
  - destruct t as [| c t]; [discriminate L |].
    simpl in L, H. destruct (IH t ltac:(lia) H) as [a ->].
    exists (String c a). reflexivity.
Qed.

End SaveName.

(** X16.  The test of the second loop accepts exactly the names that begin
    with [GameSave] and end with [_GD.sav], the two not overlapping: a name
    passes if and only if it is [GameSave], any characters, [_GD.sav].
    Every accepted name therefore has at least 15 characters. *)
Theorem save_file_name_shape (fileName : string) :
  is_save_file_name fileName = true <->
  exists middle, fileName = ("GameSave" ++ middle ++ "_GD.sav")%string.
Proof.
  split.
  - unfold is_save_file_name. intro H.
    apply andb_true_iff in H as [H Hs]. apply andb_true_iff in H as [Hl Hp].
    apply String.eqb_eq in Hp. apply String.eqb_eq in Hs.
    apply Nat.ltb_lt in Hl.
    destruct fileName as [| c0 [| c1 [| c2 [| c3 [| c4 [| c5 [| c6 [| c7 rest]]]]]]]];
      try (simpl in Hl; lia).
    simpl in Hp. injection Hp as -> -> -> -> -> -> -> ->.
    destruct rest as [| r0 [| r1 [| r2 [| r3 [| r4 [| r5 [| r6 rest']]]]]]];
      try (simpl in Hl; lia); try (simpl in Hs; discriminate Hs).
    cbn [String.length Nat.sub substring] in Hs.
    destruct (ends_with_last_seven (String.length rest')
                (String r0 (String r1 (String r2 (String r3
                   (String r4 (String r5 (String r6 rest')))))))
                ltac:(simpl; lia) Hs) as [a Ha].
    exists a. rewrite Ha. reflexivity.
  - intros [middle ->]. unfold is_save_file_name.
    apply andb_true_iff. split; [apply andb_true_iff; split |].
    + apply Nat.ltb_lt. simpl. rewrite string_length_append. simpl. lia.
    + apply String.eqb_eq. simpl.
      rewrite (substring_nothing (middle ++ "_GD.sav")). reflexivity.
    + apply String.eqb_eq.
      assert (L : String.length ("GameSave" ++ middle ++ "_GD.sav")%string
                  = (String.length ("GameSave" ++ middle)%string + 7)%nat).
      { simpl. rewrite string_length_append. simpl. lia. }
      rewrite L, Nat.add_sub.
      change ("GameSave" ++ middle ++ "_GD.sav")%string
        with (("GameSave" ++ middle) ++ "_GD.sav")%string.
      rewrite substring_after. reflexivity.
Qed.

(** ** The logger *)

Section LoggerFacts.

Lemma log_all_cons (c : log_call) (calls : list log_call) (l : Logger) :
  log_all (c :: calls) l = log_all calls (Log (fst (fst c)) (snd (fst c)) (snd c) l).
Proof. reflexivity. Qed.

(** What a sequence of calls adds to the three sinks. *)
Lemma log_all_lines (calls : list log_call) :
  forall l,
    let l' := log_all calls l in
    s_logFile_is_open l' = s_logFile_is_open l /\
    s_isFileLoggingEnabled l' = s_isFileLoggingEnabled l /\
    log_file_lines l'
    = (log_file_lines l
       ++ (if s_isFileLoggingEnabled l && s_logFile_is_open l
           then map line_of calls else []))%list /\
    cout_lines l' = (cout_lines l ++ map line_of (filter is_info calls))%list /\
    cerr_lines l'
    = (cerr_lines l ++ map line_of (filter (fun c => negb (is_info c)) calls))%list.
Proof.
  induction calls as [| [[level message] code] calls IH]; intro l.
  - cbn. rewrite !app_nil_r.
    destruct (s_isFileLoggingEnabled l && s_logFile_is_open l);
      rewrite ?app_nil_r; auto.
  - cbv zeta. rewrite log_all_cons. cbn [fst snd].
    destruct (IH (Log level message code l)) as (H1 & H2 & H3 & H4 & H5).
    rewrite H1, H2, H3, H4, H5. cbn [Log s_logFile_is_open s_isFileLoggingEnabled
      log_file_lines cout_lines cerr_lines].
    split; [reflexivity |]. split; [reflexivity |].
    unfold is_info at 1 3. cbn [fst snd filter map].
    unfold line_of at 2 4 6. cbn [fst snd].
    destruct (s_isFileLoggingEnabled l && s_logFile_is_open l);
      destruct level; cbn [negb map filter];
        rewrite <- ?app_assoc, ?app_nil_r; auto.
Qed.

End LoggerFacts.


(** ** The currency display *)

Section DisplayFacts.

Lemma display_when_loaded (s : SaveGameManager) (shown d : Display) :
  m_isSaveFileLoaded s = true ->
  UpdateCurrencyDisplay s shown = (d, None) ->
  exists g b f n,
    GetGold s = Ok g /\ GetBei s = Ok b /\
    GetArtisansFlame s = Ok f /\ GetFollowerCount s = Ok n /\
    d = mkDisplay (to_string g) (to_string b) (to_string f) (to_string n).
Proof.
  intros L. unfold UpdateCurrencyDisplay. rewrite L.
  destruct (GetGold s) as [g |]; [| discriminate].
  destruct (GetBei s) as [b |]; [| discriminate].
  destruct (GetArtisansFlame s) as [f |]; [| discriminate].
  destruct (GetFollowerCount s) as [n |]; [| discriminate].
  intro H. injection H as <-. exists g, b, f, n. auto.
Qed.

End DisplayFacts.

(** X18.  What a press of a Max button shows.  Without a loaded save the
    press changes neither the manager nor the display.  With a loaded save
    whose section for this button is a map, and a display that could be
    refreshed before the press, the press calls the button's setter with the
    button's value (999999999 for gold and bei, 999999 for the flame, 99999
    for the followers) and the display afterwards differs from a refresh
    before the press in the button's own text only, which is that value in
    decimal. *)
Theorem max_button_shows_value
  (b : max_button) (s : SaveGameManager) (shown before : Display) :
  (m_isSaveFileLoaded s = false -> on_max_button b s shown = (s, shown, None)) /\
  (m_isSaveFileLoaded s = true ->
   section_usable s (button_section b) = true ->
   UpdateCurrencyDisplay s shown = (before, None) ->
   on_max_button b s shown
   = (fst (button_setter b (button_value b) s),
      with_button_text b (to_string (button_value b)) before,
      None)).
Proof.
  split.
  - intro L. unfold on_max_button. rewrite L. reflexivity.
  - intros L U D.
    destruct (display_when_loaded s shown before L D)
      as (g & be & f & n & Hg & Hb & Hf & Hn & ->).
    unfold on_max_button. rewrite L.
    unfold GetGold, GetBei, GetArtisansFlame, GetFollowerCount in Hg, Hb, Hf, Hn.
    destruct b;
      cbn [button_setter button_value button_section with_button_text
           gold_text bei_text flame_text follower_text] in U |- *;
      unfold SetGold, SetBei, SetArtisansFlame, SetFollowerCount;
      match goal with
      | |- context [write_number ?sec ?fld ?v s] =>
          pose proof (write_number_never_throws sec fld v s) as Hx;
          pose proof (read_number_after_write sec fld v s U) as Own;
          pose proof (fun sec' fld' N =>
                        read_number_after_other_write sec fld sec' fld' v s N)
            as Other;
          pose proof (section_usable_after_write sec fld v s sec) as Q;
          rewrite U in Q; apply section_usable_inv in Q;
          destruct Q as [L1 _];
          rewrite wrap_long_long_small in Own by (vm_compute; split; discriminate);
          destruct (write_number sec fld v s) as [s1 x]
      end;
      cbn [fst snd] in Hx, Own, Other, L1 |- *; subst x;
      unfold UpdateCurrencyDisplay, GetGold, GetBei, GetArtisansFlame,
        GetFollowerCount;
      rewrite L1, Own, ?Other by discriminate;
      rewrite ?Hg, ?Hb, ?Hf, ?Hn; reflexivity.
Qed.

Lemma max_button_shows_value_witness :
  on_max_button BTN_MAX_FLAME small_save (mkDisplay "" "" "" "")
  = (fst (SetArtisansFlame 999999 small_save),
     mkDisplay "100" "0" "999999" "7", None).
Proof.
  exact (proj2 (max_button_shows_value BTN_MAX_FLAME small_save
                  (mkDisplay "" "" "" "") (mkDisplay "100" "0" "0" "7"))
           eq_refl eq_refl eq_refl).
Defined.
